(** * Solidification module of code_saturne (src/cdo/cs_solidification.c)

    A shallow embedding of the phase-change state machine: the binary-alloy
    phase diagram, the two liquid-fraction updaters (Voller-Prakash and
    binary alloy), the monitoring pass and the model-parameter setters; then
    of the enforcement of a zero velocity in the solid cells, of the two
    buoyancy source terms and of the entry points of the life cycle
    (activation, end of the setup, initialization, destruction).

    Conventions of the embedding.
    - [cs_real_t] is the C type [double].  The numerics are embedded twice,
      from the same lines of the source.  The first embedding idealises a
      double as an exact rational [Q], without rounding, and states the
      equalities between reals with [==]; it carries the statements on the
      states, the counters, the order of the calls and what a pass reads
      and writes, and those that equate a stored value with the expression
      of the source it comes from.  A C division by zero has no counterpart
      there ([/ 0 == 0] in [Q]).  The second embedding, module [B64], is
      over IEEE 754 binary64 numbers with their NaN, infinities and signed
      zeros, every operation rounded to nearest, ties to even; it carries
      the statements on the values the phase diagram returns and the two
      updaters store, on their order and on their range.
    - [cs_lnum_t] indices are [nat]; [cs_gnum_t] counters are [Z] with the
      64-bit wrap-around written out ([wrap64]).
    - C arrays are lists, read with [rd] and written with stdpp's
      [<[i := x]>]; the source allocates them with one entry per cell.
    - the process-wide pointer [cs_solidification_structure] and the two
      static constants are threaded explicitly.
    - [bft_error] ends the run with a message ([Fatal]); a failed [assert]
      ends it only in a build without NDEBUG ([Aborted]). *)

From Stdlib Require Import ZArith QArith Qfield Lqa Lia String SpecFloat.
From stdpp Require Import base list.

Open Scope Q_scope.

(** ** Reals and comparisons *)

Definition cs_real_t : Type := Q.

(** C's [a < b] on reals. *)
Definition Qltb (a b : Q) : bool := negb (Qle_bool b a).

(** C's [a <= b] on reals. *)
Definition Qleb (a b : Q) : bool := Qle_bool a b.

(** ** Outcomes of a call *)

Inductive outcome (A : Type) : Type :=
| Done (a : A)            (* the call returns *)
| Fatal (msg : string)    (* bft_error: message, then the run stops *)
| Aborted                 (* failed assert, build without NDEBUG *)
| Undefined.              (* the C standard gives no meaning *)

Arguments Done {A} a.
Arguments Fatal {A} msg.
Arguments Aborted {A}.
Arguments Undefined {A}.

#[global] Instance outcome_bind : MBind outcome := fun A B k m =>
  match m with
  | Done a => k a
  | Fatal msg => Fatal msg
  | Aborted => Aborted
  | Undefined => Undefined
  end.

(** [assert(cond)]: nothing under NDEBUG, otherwise the run aborts when the
    condition is false. *)
Definition c_assert (ndebug : bool) (cond : bool) : outcome unit :=
  if ndebug then Done tt else if cond then Done tt else Aborted.

(** [for (i = 0; i < n; i++) body(i)], with a body that may stop the run. *)
Fixpoint for_each {S : Type} (body : nat -> S -> outcome S)
         (ids : list nat) (s : S) : outcome S :=
  match ids with
  | [] => Done s
  | i :: rest => s' ← body i s; for_each body rest s'
  end.

Definition for_loop {S : Type} (n : nat) (body : nat -> S -> outcome S)
           (s : S) : outcome S :=
  for_each body (seq 0 n) s.

(** The same loop with a body that always returns. *)
Definition iter_loop {S : Type} (n : nat) (body : nat -> S -> S) (s : S) : S :=
  fold_left (fun acc i => body i acc) (seq 0 n) s.

(** ** Arrays *)

(** [a[i]] for an array of reals. *)
Definition rd (a : list cs_real_t) (i : nat) : cs_real_t := default 0 (a !! i).

(** [a[i]] for an array of counters. *)
Definition rdz (a : list Z) (i : nat) : Z := default 0%Z (a !! i).

(** ** States of a cell *)

Inductive cs_solidification_state_t : Type :=
| CS_SOLIDIFICATION_STATE_SOLID
| CS_SOLIDIFICATION_STATE_MUSHY
| CS_SOLIDIFICATION_STATE_LIQUID
| CS_SOLIDIFICATION_STATE_EUTECTIC
| CS_SOLIDIFICATION_N_STATES.

(** The integer value of an enumerator, used as an array index. *)
Definition state_id (s : cs_solidification_state_t) : nat :=
  match s with
  | CS_SOLIDIFICATION_STATE_SOLID => 0
  | CS_SOLIDIFICATION_STATE_MUSHY => 1
  | CS_SOLIDIFICATION_STATE_LIQUID => 2
  | CS_SOLIDIFICATION_STATE_EUTECTIC => 3
  | CS_SOLIDIFICATION_N_STATES => 4
  end.

#[global] Instance state_eq_dec : EqDecision cs_solidification_state_t.
Proof. solve_decision. Defined.

(** [cell_state[i]]; the filler is the out-of-range enumerator. *)
Definition rds (a : list cs_solidification_state_t) (i : nat)
  : cs_solidification_state_t :=
  default CS_SOLIDIFICATION_N_STATES (a !! i).

(** ** Counters *)

Definition wrap64 (z : Z) : Z := (z mod 2 ^ 64)%Z.

(** [n_g_cells[s] += 1] on a [cs_gnum_t] array. *)
Definition incr (s : cs_solidification_state_t) (n : list Z) : list Z :=
  <[state_id s := wrap64 (rdz n (state_id s) + 1)]> n.

(** [for (i = 0; i < CS_SOLIDIFICATION_N_STATES; i++) a[i] = 0]. *)
Definition zeros4 {A : Type} (z : A) : list A := [z; z; z; z].

Definition sum4 (n : list Z) : Z :=
  (rdz n 0 + rdz n 1 + rdz n 2 + rdz n 3)%Z.

(** ** Data model *)

(** Parameters of the Voller and Prakash model. *)
Module Voller.
Record cs_solidification_voller_t : Type := {
  t_solidus : cs_real_t;
  t_liquidus : cs_real_t;
  latent_heat : cs_real_t;
  forcing_coef : cs_real_t
}.
End Voller.

(** Parameters and owned arrays of the binary-alloy model.  The values
    reached through [solute_equation] (the bulk concentration at cells, its
    previous-step values, its face values) are kept next to it. *)
Module Alloy.
Record cs_solidification_binary_alloy_t : Type := {
  dilatation_coef : cs_real_t;
  ref_concentration : cs_real_t;
  latent_heat : cs_real_t;
  forcing_coef : cs_real_t;
  t_melt : cs_real_t;
  t_eutec : cs_real_t;
  t_eutec_inf : cs_real_t;
  t_eutec_sup : cs_real_t;
  c_eutec : cs_real_t;
  c_eutec_a : cs_real_t;
  kp : cs_real_t;
  inv_kp : cs_real_t;
  ml : cs_real_t;
  inv_ml : cs_real_t;
  solute_val : list cs_real_t;        (* cs_equation_get_field(tr_eq)->val *)
  solute_val_pre : list cs_real_t;    (* ... ->val_pre *)
  solute_face_values : list cs_real_t;(* cs_equation_get_face_values(tr_eq) *)
  c_l_val : list cs_real_t;           (* c_l_field->val *)
  c_l_val_pre : list cs_real_t;       (* c_l_field->val_pre *)
  c_l_faces : list cs_real_t;
  temp_faces : list cs_real_t;
  diff_coef : cs_real_t
}.

(** The block with the array behind [c_l_field->val] replaced. *)
Definition with_c_l_val (l : list cs_real_t)
           (a : cs_solidification_binary_alloy_t) :=
  {| dilatation_coef := dilatation_coef a;
     ref_concentration := ref_concentration a;
     latent_heat := latent_heat a; forcing_coef := forcing_coef a;
     t_melt := t_melt a; t_eutec := t_eutec a;
     t_eutec_inf := t_eutec_inf a; t_eutec_sup := t_eutec_sup a;
     c_eutec := c_eutec a; c_eutec_a := c_eutec_a a;
     kp := kp a; inv_kp := inv_kp a; ml := ml a; inv_ml := inv_ml a;
     solute_val := solute_val a; solute_val_pre := solute_val_pre a;
     solute_face_values := solute_face_values a;
     c_l_val := l;
     c_l_val_pre := c_l_val_pre a;
     c_l_faces := c_l_faces a; temp_faces := temp_faces a;
     diff_coef := diff_coef a |}.

(** The block with the array [c_l_faces] replaced. *)
Definition with_c_l_faces (l : list cs_real_t)
           (a : cs_solidification_binary_alloy_t) :=
  {| dilatation_coef := dilatation_coef a;
     ref_concentration := ref_concentration a;
     latent_heat := latent_heat a; forcing_coef := forcing_coef a;
     t_melt := t_melt a; t_eutec := t_eutec a;
     t_eutec_inf := t_eutec_inf a; t_eutec_sup := t_eutec_sup a;
     c_eutec := c_eutec a; c_eutec_a := c_eutec_a a;
     kp := kp a; inv_kp := inv_kp a; ml := ml a; inv_ml := inv_ml a;
     solute_val := solute_val a; solute_val_pre := solute_val_pre a;
     solute_face_values := solute_face_values a;
     c_l_val := c_l_val a;
     c_l_val_pre := c_l_val_pre a;
     c_l_faces := l; temp_faces := temp_faces a;
     diff_coef := diff_coef a |}.

(** [c_l[c_id] = x]. *)
Definition set_c_l (c_id : nat) (x : cs_real_t)
           (a : cs_solidification_binary_alloy_t) :=
  with_c_l_val (<[c_id := x]> (c_l_val a)) a.

(** [alloy->c_l_faces[f_id] = x]. *)
Definition set_c_l_faces (f_id : nat) (x : cs_real_t)
           (a : cs_solidification_binary_alloy_t) :=
  with_c_l_faces (<[f_id := x]> (c_l_faces a)) a.

(** [cs_field_current_to_previous(alloy->c_l_field)]. *)
Definition c_l_current_to_previous (a : cs_solidification_binary_alloy_t) :=
  {| dilatation_coef := dilatation_coef a;
     ref_concentration := ref_concentration a;
     latent_heat := latent_heat a; forcing_coef := forcing_coef a;
     t_melt := t_melt a; t_eutec := t_eutec a;
     t_eutec_inf := t_eutec_inf a; t_eutec_sup := t_eutec_sup a;
     c_eutec := c_eutec a; c_eutec_a := c_eutec_a a;
     kp := kp a; inv_kp := inv_kp a; ml := ml a; inv_ml := inv_ml a;
     solute_val := solute_val a; solute_val_pre := solute_val_pre a;
     solute_face_values := solute_face_values a;
     c_l_val := c_l_val a;
     c_l_val_pre := c_l_val a;
     c_l_faces := c_l_faces a; temp_faces := temp_faces a;
     diff_coef := diff_coef a |}.
End Alloy.

(** What [model_context] points to. *)
Inductive model_context_t : Type :=
| NoContext
| VollerContext (v_model : Voller.cs_solidification_voller_t)
| AlloyContext (alloy : Alloy.cs_solidification_binary_alloy_t).

(** The function [update] points to. *)
Inductive update_t : Type :=
| update_NULL
| update_voller          (* _update_liquid_fraction_voller *)
| update_binary_alloy.   (* _update_liquid_fraction_binary_alloy *)

(** The fields of [struct _solidification_t] the numerics read or write.
    [temperature] stands for [temperature->val], [g_l_val] and [g_l_val_pre]
    for the two snapshots of [g_l_field], [mass_density] for the uniform value
    [cs_property_get_cell_value] returns. *)
Record cs_solidification_t : Type := {
  model : Z;
  options : Z;
  post_flag : Z;
  mass_density : cs_real_t;
  g_l_val : list cs_real_t;
  g_l_val_pre : list cs_real_t;
  cell_state : list cs_solidification_state_t;
  state_ratio : list cs_real_t;
  n_g_cells : list Z;
  temperature : list cs_real_t;
  thermal_reaction_coef_array : list cs_real_t;
  thermal_source_term_array : list cs_real_t;
  model_context : model_context_t;
  forcing_mom_array : list cs_real_t;
  update : update_t
}.

Definition set_g_l (c_id : nat) (x : cs_real_t) (s : cs_solidification_t) :=
  {| model := model s; options := options s; post_flag := post_flag s;
     mass_density := mass_density s;
     g_l_val := <[c_id := x]> (g_l_val s); g_l_val_pre := g_l_val_pre s;
     cell_state := cell_state s; state_ratio := state_ratio s;
     n_g_cells := n_g_cells s; temperature := temperature s;
     thermal_reaction_coef_array := thermal_reaction_coef_array s;
     thermal_source_term_array := thermal_source_term_array s;
     model_context := model_context s;
     forcing_mom_array := forcing_mom_array s;
     update := update s |}.

(** [cs_field_current_to_previous(solid->g_l_field)]. *)
Definition g_l_current_to_previous (s : cs_solidification_t) :=
  {| model := model s; options := options s; post_flag := post_flag s;
     mass_density := mass_density s;
     g_l_val := g_l_val s; g_l_val_pre := g_l_val s;
     cell_state := cell_state s; state_ratio := state_ratio s;
     n_g_cells := n_g_cells s; temperature := temperature s;
     thermal_reaction_coef_array := thermal_reaction_coef_array s;
     thermal_source_term_array := thermal_source_term_array s;
     model_context := model_context s;
     forcing_mom_array := forcing_mom_array s;
     update := update s |}.

Definition set_thermal_reaction_coef (c_id : nat) (x : cs_real_t)
           (s : cs_solidification_t) :=
  {| model := model s; options := options s; post_flag := post_flag s;
     mass_density := mass_density s;
     g_l_val := g_l_val s; g_l_val_pre := g_l_val_pre s;
     cell_state := cell_state s; state_ratio := state_ratio s;
     n_g_cells := n_g_cells s; temperature := temperature s;
     thermal_reaction_coef_array := <[c_id := x]> (thermal_reaction_coef_array s);
     thermal_source_term_array := thermal_source_term_array s;
     model_context := model_context s;
     forcing_mom_array := forcing_mom_array s;
     update := update s |}.

Definition set_thermal_source_term (c_id : nat) (x : cs_real_t)
           (s : cs_solidification_t) :=
  {| model := model s; options := options s; post_flag := post_flag s;
     mass_density := mass_density s;
     g_l_val := g_l_val s; g_l_val_pre := g_l_val_pre s;
     cell_state := cell_state s; state_ratio := state_ratio s;
     n_g_cells := n_g_cells s; temperature := temperature s;
     thermal_reaction_coef_array := thermal_reaction_coef_array s;
     thermal_source_term_array := <[c_id := x]> (thermal_source_term_array s);
     model_context := model_context s;
     forcing_mom_array := forcing_mom_array s;
     update := update s |}.

Definition set_forcing_mom (c_id : nat) (x : cs_real_t)
           (s : cs_solidification_t) :=
  {| model := model s; options := options s; post_flag := post_flag s;
     mass_density := mass_density s;
     g_l_val := g_l_val s; g_l_val_pre := g_l_val_pre s;
     cell_state := cell_state s; state_ratio := state_ratio s;
     n_g_cells := n_g_cells s; temperature := temperature s;
     thermal_reaction_coef_array := thermal_reaction_coef_array s;
     thermal_source_term_array := thermal_source_term_array s;
     model_context := model_context s;
     forcing_mom_array := <[c_id := x]> (forcing_mom_array s);
     update := update s |}.

Definition set_cell_state (c_id : nat) (x : cs_solidification_state_t)
           (s : cs_solidification_t) :=
  {| model := model s; options := options s; post_flag := post_flag s;
     mass_density := mass_density s;
     g_l_val := g_l_val s; g_l_val_pre := g_l_val_pre s;
     cell_state := <[c_id := x]> (cell_state s); state_ratio := state_ratio s;
     n_g_cells := n_g_cells s; temperature := temperature s;
     thermal_reaction_coef_array := thermal_reaction_coef_array s;
     thermal_source_term_array := thermal_source_term_array s;
     model_context := model_context s;
     forcing_mom_array := forcing_mom_array s;
     update := update s |}.

Definition set_n_g_cells (n : list Z) (s : cs_solidification_t) :=
  {| model := model s; options := options s; post_flag := post_flag s;
     mass_density := mass_density s;
     g_l_val := g_l_val s; g_l_val_pre := g_l_val_pre s;
     cell_state := cell_state s; state_ratio := state_ratio s;
     n_g_cells := n; temperature := temperature s;
     thermal_reaction_coef_array := thermal_reaction_coef_array s;
     thermal_source_term_array := thermal_source_term_array s;
     model_context := model_context s;
     forcing_mom_array := forcing_mom_array s;
     update := update s |}.

Definition set_state_ratio (r : list cs_real_t) (s : cs_solidification_t) :=
  {| model := model s; options := options s; post_flag := post_flag s;
     mass_density := mass_density s;
     g_l_val := g_l_val s; g_l_val_pre := g_l_val_pre s;
     cell_state := cell_state s; state_ratio := r;
     n_g_cells := n_g_cells s; temperature := temperature s;
     thermal_reaction_coef_array := thermal_reaction_coef_array s;
     thermal_source_term_array := thermal_source_term_array s;
     model_context := model_context s;
     forcing_mom_array := forcing_mom_array s;
     update := update s |}.

Definition set_model_context (m : model_context_t) (s : cs_solidification_t) :=
  {| model := model s; options := options s; post_flag := post_flag s;
     mass_density := mass_density s;
     g_l_val := g_l_val s; g_l_val_pre := g_l_val_pre s;
     cell_state := cell_state s; state_ratio := state_ratio s;
     n_g_cells := n_g_cells s; temperature := temperature s;
     thermal_reaction_coef_array := thermal_reaction_coef_array s;
     thermal_source_term_array := thermal_source_term_array s;
     model_context := m;
     forcing_mom_array := forcing_mom_array s;
     update := update s |}.

(** The mesh quantities and the time step the updaters read. *)
Record cs_cdo_quantities_t : Type := {
  n_cells : nat;
  n_faces : nat;
  cell_vol : list cs_real_t;
  vol_tot : cs_real_t
}.

Record cs_time_step_t : Type := {
  t_cur : cs_real_t;
  dt : cs_real_t        (* dt[0] *)
}.

(** The static variables of the file. *)
Record statics_t : Type := {
  cs_solidification_forcing_eps : cs_real_t;
  cs_solidification_eutectic_threshold : cs_real_t
}.

(** Their initial values, [1e-3] and [1e-4]. *)
Definition default_statics : statics_t :=
  {| cs_solidification_forcing_eps := 1 # 1000;
     cs_solidification_eutectic_threshold := 1 # 10000 |}.

(** What the compilation fixes: whether NDEBUG is defined, and the two
    model bits tested by this file.  The header cs_solidification.h that
    declares the bits is not part of the sources at hand, so their values
    are parameters. *)
Record build_t : Type := {
  ndebug : bool;
  CS_SOLIDIFICATION_MODEL_VOLLER_PRAKASH_87 : Z;
  CS_SOLIDIFICATION_MODEL_BINARY_ALLOY : Z
}.

(** [flags & bit] as a C condition. *)
Definition flag_test (flags bit : Z) : bool := negb (Z.land flags bit =? 0)%Z.

(** ** Parallel reduction *)

(** Modelled from the spec: [cs_parall_sum] is defined in cs_parall.c, which
    is not among the sources.  The spec describes it as the global sum of a
    small fixed-size vector: every rank ends with the element-wise sum of the
    vectors of all ranks.  [peers] holds the vectors the other ranks
    contribute; a serial run has none. *)
Definition cs_parall_sum_gnum (peers : list (list Z)) (mine : list Z) : list Z :=
  fold_left (zip_with (fun x y => wrap64 (x + y))) peers mine.

Definition cs_parall_sum_real (peers : list (list cs_real_t))
           (mine : list cs_real_t) : list cs_real_t :=
  fold_left (zip_with Qplus) peers mine.

(** ** Voller and Prakash updater *)

Abbreviation SOLID := CS_SOLIDIFICATION_STATE_SOLID.
Abbreviation MUSHY := CS_SOLIDIFICATION_STATE_MUSHY.
Abbreviation LIQUID := CS_SOLIDIFICATION_STATE_LIQUID.
Abbreviation EUTECTIC := CS_SOLIDIFICATION_STATE_EUTECTIC.

(** Body of the loop on cells of [_update_liquid_fraction_voller]. *)
Definition voller_cell (st : statics_t)
           (v_model : Voller.cs_solidification_voller_t)
           (quant : cs_cdo_quantities_t)
           (dgldT inv_forcing_eps dgldT_coef : cs_real_t)
           (c_id : nat) (solid : cs_solidification_t) : cs_solidification_t :=
  let temp := temperature solid in
  if Qltb (rd temp c_id) (Voller.t_solidus v_model) then
    let solid := set_g_l c_id 0 solid in
    let solid := set_thermal_reaction_coef c_id 0 solid in
    let solid := set_thermal_source_term c_id 0 solid in
    let solid := set_cell_state c_id SOLID solid in
    let solid := set_n_g_cells (incr SOLID (n_g_cells solid)) solid in
    set_forcing_mom c_id (Voller.forcing_coef v_model * inv_forcing_eps) solid
  else if Qltb (Voller.t_liquidus v_model) (rd temp c_id) then
    let solid := set_g_l c_id 1 solid in
    let solid := set_thermal_reaction_coef c_id 0 solid in
    let solid := set_thermal_source_term c_id 0 solid in
    let solid := set_n_g_cells (incr LIQUID (n_g_cells solid)) solid in
    let solid := set_cell_state c_id LIQUID solid in
    set_forcing_mom c_id 0 solid
  else
    let glc := (rd temp c_id - Voller.t_solidus v_model) * dgldT in
    let solid := set_g_l c_id glc solid in
    let solid := set_thermal_reaction_coef c_id dgldT_coef solid in
    let solid :=
      set_thermal_source_term c_id
        (dgldT_coef * rd temp c_id * rd (cell_vol quant) c_id) solid in
    let solid := set_cell_state c_id MUSHY solid in
    let solid := set_n_g_cells (incr MUSHY (n_g_cells solid)) solid in
    let glm1 := 1 - glc in
    set_forcing_mom c_id
      (Voller.forcing_coef v_model * glm1 * glm1
       / (glc * glc * glc + cs_solidification_forcing_eps st)) solid.

(** [_enforce_solid_cells]: the list of the cells tagged SOLID, which the
    function hands to the momentum equation for the enforcement of a zero
    velocity.  The face velocities it zeroes belong to the advection field,
    outside the structure; its assertion compares the length of the list,
    cast to [cs_gnum_t], with the SOLID counter. *)
Definition _enforce_solid_cells (b : build_t) (quant : cs_cdo_quantities_t)
           (solid : cs_solidification_t) : outcome (list nat) :=
  let solid_cells :=
    filter (fun c_id => rds (cell_state solid) c_id = SOLID)
      (seq 0 (n_cells quant)) in
  let ii := length solid_cells in
  _ ← c_assert (ndebug b)
        (wrap64 (Z.of_nat ii) =? rdz (n_g_cells solid) (state_id SOLID))%Z;
  Done solid_cells.

(** [if (solid->n_g_cells[CS_SOLIDIFICATION_STATE_SOLID] > 0)
    _enforce_solid_cells(connect, quant)]. *)
Definition enforce_if_solid (b : build_t) (quant : cs_cdo_quantities_t)
           (solid : cs_solidification_t) : outcome (list nat) :=
  if (0 <? rdz (n_g_cells solid) (state_id SOLID))%Z
  then _enforce_solid_cells b quant solid
  else Done [].

(** [_update_liquid_fraction_voller] up to the enforcement and the parallel
    reduction, as one rank runs it. *)
Definition voller_local (st : statics_t)
           (quant : cs_cdo_quantities_t) (ts : cs_time_step_t)
           (cur2prev : bool) (solid : cs_solidification_t)
  : outcome cs_solidification_t :=
  match model_context solid with
  | VollerContext v_model =>
      let solid := if cur2prev then g_l_current_to_previous solid else solid in
      let dgldT := 1 / (Voller.t_liquidus v_model - Voller.t_solidus v_model) in
      let inv_forcing_eps := 1 / cs_solidification_forcing_eps st in
      let solid := set_n_g_cells (zeros4 0%Z) solid in
      let cell_rho := mass_density solid in
      let dgldT_coef := cell_rho * Voller.latent_heat v_model * dgldT / dt ts in
      Done (iter_loop (n_cells quant)
              (voller_cell st v_model quant dgldT inv_forcing_eps dgldT_coef)
              solid)
  | _ => Undefined
  end.

(** The whole of [_update_liquid_fraction_voller]; [peers] holds the counters
    of the other ranks at the reduction. *)
Definition _update_liquid_fraction_voller (b : build_t) (st : statics_t)
           (peers : list (list Z))
           (quant : cs_cdo_quantities_t) (ts : cs_time_step_t)
           (cur2prev : bool) (solid : cs_solidification_t)
  : outcome cs_solidification_t :=
  solid ← voller_local st quant ts cur2prev solid;
  _ ← enforce_if_solid b quant solid;
  Done (set_n_g_cells (cs_parall_sum_gnum peers (n_g_cells solid)) solid).

(** ** Binary-alloy phase diagram *)

(** [_get_alloy_state]: the three outputs are returned as
    [(t_liquidus, t_solidus, state)]. *)
Definition _get_alloy_state (alloy : Alloy.cs_solidification_binary_alloy_t)
           (temp conc : cs_real_t)
  : cs_real_t * cs_real_t * cs_solidification_state_t :=
  let t_liquidus := Alloy.t_melt alloy + Alloy.ml alloy * conc in
  let t_solidus :=
    if Qltb conc (Alloy.c_eutec_a alloy)
    then Alloy.t_melt alloy + Alloy.ml alloy * conc * Alloy.inv_kp alloy
    else Alloy.t_eutec alloy in
  let state := CS_SOLIDIFICATION_N_STATES in
  let state :=
    if Qltb conc (Alloy.c_eutec_a alloy) then
      if Qltb t_liquidus temp then LIQUID
      else if Qltb t_solidus temp then MUSHY
      else SOLID
    else if Qleb conc (Alloy.c_eutec alloy) then
      if Qltb t_liquidus temp then LIQUID
      else if Qltb (Alloy.t_eutec_sup alloy) temp then MUSHY
      else if Qltb (Alloy.t_eutec_inf alloy) temp then EUTECTIC
      else SOLID
    else SOLID in
  (t_liquidus, t_solidus, state).

(** ** Binary-alloy updater *)

(** Body of the loop on cells of [_update_liquid_fraction_binary_alloy]; the
    structure and the alloy block it points to are threaded as a pair. *)
Definition alloy_cell (st : statics_t) (quant : cs_cdo_quantities_t)
           (rhoLovdt inv_kpm1 eut_slope inv_forcing_eps : cs_real_t)
           (c_id : nat)
           (sa : cs_solidification_t * Alloy.cs_solidification_binary_alloy_t)
  : outcome (cs_solidification_t * Alloy.cs_solidification_binary_alloy_t) :=
  let '(solid, alloy) := sa in
  let conc := rd (Alloy.solute_val alloy) c_id in
  let temp := rd (temperature solid) c_id in
  let '(t_liquidus, t_solidus, state) := _get_alloy_state alloy temp conc in
  match state with
  | CS_SOLIDIFICATION_STATE_SOLID =>
      let alloy :=
        if Qltb 0 (rd (g_l_val solid) c_id) then
          if Qleb (Alloy.c_eutec_a alloy) conc
          then Alloy.set_c_l c_id (Alloy.c_eutec alloy) alloy
          else Alloy.set_c_l c_id (conc * Alloy.inv_kp alloy) alloy
        else alloy in
      let solid := set_g_l c_id 0 solid in
      let solid := set_thermal_reaction_coef c_id 0 solid in
      let solid := set_thermal_source_term c_id 0 solid in
      let solid :=
        set_forcing_mom c_id (Alloy.forcing_coef alloy * inv_forcing_eps) solid in
      let solid := set_cell_state c_id SOLID solid in
      let solid := set_n_g_cells (incr SOLID (n_g_cells solid)) solid in
      Done (solid, alloy)
  | CS_SOLIDIFICATION_STATE_MUSHY =>
      let conc_prev := rd (Alloy.solute_val_pre alloy) c_id in
      let dTm := temp - Alloy.t_melt alloy in
      let glc := 1 + inv_kpm1 * (temp - t_liquidus) / dTm in
      let solid := set_g_l c_id glc solid in
      let alloy := Alloy.set_c_l c_id (dTm * Alloy.inv_ml alloy) alloy in
      let dgldT := inv_kpm1 * (t_liquidus - Alloy.t_melt alloy) / (dTm * dTm) in
      let dgldC := inv_kpm1 * Alloy.ml alloy / dTm in
      let solid := set_thermal_reaction_coef c_id (dgldT * rhoLovdt) solid in
      let solid :=
        set_thermal_source_term c_id
          (rd (cell_vol quant) c_id
           * (dgldT * temp + dgldC * (conc_prev - conc)) * rhoLovdt) solid in
      let solid :=
        set_forcing_mom c_id
          (Alloy.forcing_coef alloy * (1 - glc) * (1 - glc)
           / (glc * glc * glc + cs_solidification_forcing_eps st)) solid in
      let solid := set_n_g_cells (incr MUSHY (n_g_cells solid)) solid in
      let solid := set_cell_state c_id MUSHY solid in
      Done (solid, alloy)
  | CS_SOLIDIFICATION_STATE_LIQUID =>
      let solid := set_g_l c_id 1 solid in
      let alloy := Alloy.set_c_l c_id conc alloy in
      let solid := set_thermal_reaction_coef c_id 0 solid in
      let solid := set_thermal_source_term c_id 0 solid in
      let solid := set_forcing_mom c_id 0 solid in
      let solid := set_n_g_cells (incr LIQUID (n_g_cells solid)) solid in
      let solid := set_cell_state c_id LIQUID solid in
      Done (solid, alloy)
  | CS_SOLIDIFICATION_STATE_EUTECTIC =>
      let glc := (conc - Alloy.c_eutec_a alloy) * eut_slope in
      let conc_prev := rd (Alloy.solute_val_pre alloy) c_id in
      let solid := set_g_l c_id glc solid in
      let alloy := Alloy.set_c_l c_id (Alloy.c_eutec alloy) alloy in
      let solid := set_thermal_reaction_coef c_id 0 solid in
      let solid :=
        set_thermal_source_term c_id
          (rd (cell_vol quant) c_id * rhoLovdt * eut_slope * (conc - conc_prev))
          solid in
      let solid :=
        set_forcing_mom c_id
          (Alloy.forcing_coef alloy * (1 - glc) * (1 - glc)
           / (glc * glc * glc + cs_solidification_forcing_eps st)) solid in
      let solid := set_n_g_cells (incr MUSHY (n_g_cells solid)) solid in
      let solid := set_cell_state c_id MUSHY solid in
      Done (solid, alloy)
  | CS_SOLIDIFICATION_N_STATES =>
      Fatal "_update_liquid_fraction_binary_alloy: Invalid state for cell"
  end.

(** Body of the loop on faces. *)
Definition alloy_face (f_id : nat)
           (alloy : Alloy.cs_solidification_binary_alloy_t)
  : outcome Alloy.cs_solidification_binary_alloy_t :=
  let conc := rd (Alloy.solute_face_values alloy) f_id in
  let temp := rd (Alloy.temp_faces alloy) f_id in
  let '(t_liquidus, t_solidus, state) := _get_alloy_state alloy temp conc in
  match state with
  | CS_SOLIDIFICATION_STATE_SOLID =>
      if Qleb (Alloy.c_eutec_a alloy) conc
      then Done (Alloy.set_c_l_faces f_id (Alloy.c_eutec alloy) alloy)
      else Done (Alloy.set_c_l_faces f_id (conc * Alloy.inv_kp alloy) alloy)
  | CS_SOLIDIFICATION_STATE_MUSHY =>
      Done (Alloy.set_c_l_faces f_id
              ((temp - Alloy.t_melt alloy) * Alloy.inv_ml alloy) alloy)
  | CS_SOLIDIFICATION_STATE_LIQUID =>
      Done (Alloy.set_c_l_faces f_id conc alloy)
  | CS_SOLIDIFICATION_STATE_EUTECTIC =>
      Done (Alloy.set_c_l_faces f_id (Alloy.c_eutec alloy) alloy)
  | CS_SOLIDIFICATION_N_STATES =>
      Fatal "_update_liquid_fraction_binary_alloy: Invalid state for face"
  end.

(** [_update_liquid_fraction_binary_alloy] up to the enforcement and the
    parallel reduction, as one rank runs it. *)
Definition alloy_local (b : build_t) (st : statics_t)
           (quant : cs_cdo_quantities_t) (ts : cs_time_step_t)
           (cur2prev : bool) (solid : cs_solidification_t)
  : outcome (cs_solidification_t * Alloy.cs_solidification_binary_alloy_t) :=
  match model_context solid with
  | AlloyContext alloy =>
      let solid := if cur2prev then g_l_current_to_previous solid else solid in
      let alloy := if cur2prev then Alloy.c_l_current_to_previous alloy
                   else alloy in
      let solid := set_n_g_cells (zeros4 0%Z) solid in
      _ ← c_assert (ndebug b) (Qltb 0 (Alloy.kp alloy));
      let cell_rho := mass_density solid in
      let rhoLovdt := cell_rho * Alloy.latent_heat alloy / dt ts in
      let inv_kpm1 := 1 / (Alloy.kp alloy - 1) in
      let eut_slope := 1 / (Alloy.c_eutec alloy - Alloy.c_eutec_a alloy) in
      let inv_forcing_eps := 1 / cs_solidification_forcing_eps st in
      for_loop (n_cells quant)
        (alloy_cell st quant rhoLovdt inv_kpm1 eut_slope inv_forcing_eps)
        (solid, alloy)
  | _ => Undefined
  end.

(** The whole of [_update_liquid_fraction_binary_alloy]: the enforcement,
    the reduction of the counters, then the loop on faces. *)
Definition _update_liquid_fraction_binary_alloy (b : build_t) (st : statics_t)
           (peers : list (list Z))
           (quant : cs_cdo_quantities_t) (ts : cs_time_step_t)
           (cur2prev : bool) (solid : cs_solidification_t)
  : outcome cs_solidification_t :=
  '(solid, alloy) ← alloy_local b st quant ts cur2prev solid;
  _ ← enforce_if_solid b quant solid;
  let solid :=
    set_n_g_cells (cs_parall_sum_gnum peers (n_g_cells solid)) solid in
  alloy ← for_loop (n_faces quant) alloy_face alloy;
  Done (set_model_context (AlloyContext alloy) solid).

(** ** Monitoring *)

(** Body of the loop on cells of [_do_monitoring]. *)
Definition monitoring_cell (quant : cs_cdo_quantities_t) (c_id : nat)
           (solid : cs_solidification_t) : cs_solidification_t :=
  let vol_c := rd (cell_vol quant) c_id in
  let add s :=
    set_state_ratio
      (<[state_id s := rd (state_ratio solid) (state_id s) + vol_c]>
         (state_ratio solid)) solid in
  match rds (cell_state solid) c_id with
  | CS_SOLIDIFICATION_STATE_SOLID => add SOLID
  | CS_SOLIDIFICATION_STATE_LIQUID => add LIQUID
  | CS_SOLIDIFICATION_STATE_MUSHY => add MUSHY
  | CS_SOLIDIFICATION_STATE_EUTECTIC => add EUTECTIC
  | CS_SOLIDIFICATION_N_STATES => solid
  end.

(** One line of the monitoring log: label, percentage, number of cells. *)
Definition log_line : Type := string * cs_real_t * Z.

(** [_do_monitoring] up to the parallel reduction. *)
Definition monitoring_local (quant : cs_cdo_quantities_t)
           (solid : cs_solidification_t) : cs_solidification_t :=
  let solid := set_state_ratio (zeros4 0) solid in
  iter_loop (n_cells quant) (monitoring_cell quant) solid.

(** [_do_monitoring]: the updated structure and the lines it logs; [peers]
    holds the volumes the other ranks contribute to the reduction. *)
Definition _do_monitoring (b : build_t) (peers : list (list cs_real_t))
           (quant : cs_cdo_quantities_t) (solid : cs_solidification_t)
  : cs_solidification_t * list log_line :=
  let solid := monitoring_local quant solid in
  let solid :=
    set_state_ratio (cs_parall_sum_real peers (state_ratio solid)) solid in
  let inv_voltot := 1 / vol_tot quant in
  let solid :=
    set_state_ratio (map (fun r => r * inv_voltot) (state_ratio solid)) solid in
  let line (label : string) (s : cs_solidification_state_t) : log_line :=
    (label, 100 * rd (state_ratio solid) (state_id s),
     rdz (n_g_cells solid) (state_id s)) in
  let log := [line "Solid"%string SOLID; line "Mushy"%string MUSHY;
              line "Liquid"%string LIQUID] in
  let log :=
    if flag_test (model solid) (CS_SOLIDIFICATION_MODEL_BINARY_ALLOY b)
    then log ++ [line "Eutectic"%string EUTECTIC]
    else log in
  (solid, log).

(** ** Time step *)

(** The indirect call [solid->update(...)]. *)
Definition call_update (b : build_t) (st : statics_t) (peers : list (list Z))
           (quant : cs_cdo_quantities_t) (ts : cs_time_step_t)
           (cur2prev : bool) (solid : cs_solidification_t)
  : outcome cs_solidification_t :=
  match update solid with
  | update_voller =>
      _update_liquid_fraction_voller b st peers quant ts cur2prev solid
  | update_binary_alloy =>
      _update_liquid_fraction_binary_alloy b st peers quant ts cur2prev solid
  | update_NULL => Undefined
  end.

Definition _err_empty_module : string :=
  " Stop execution. The structure related to the solidifcation module is empty. Please check your settings.".

(** [cs_solidification_compute], after the three solves: these belong to
    the equation subsystem and leave their results in [temperature] and in
    the solute values, which [structure] holds as they are after the solves.
    [peers_n] and [peers_vol] are what the other ranks contribute to the two
    reductions. *)
Definition cs_solidification_compute (b : build_t) (st : statics_t)
           (peers_n : list (list Z)) (peers_vol : list (list cs_real_t))
           (quant : cs_cdo_quantities_t) (ts : cs_time_step_t)
           (structure : option cs_solidification_t)
  : outcome (cs_solidification_t * list log_line) :=
  match structure with
  | None => Fatal _err_empty_module
  | Some solid =>
      solid ← call_update b st peers_n quant ts true solid;
      Done (_do_monitoring b peers_vol quant solid)
  end.

(** ** Activation and model parameters *)

(** [_solidification_create]: every pointer NULL, every counter zero. *)
Definition _solidification_create : cs_solidification_t :=
  {| model := 0; options := 0; post_flag := 0;
     mass_density := 0;
     g_l_val := []; g_l_val_pre := [];
     cell_state := [];
     state_ratio := zeros4 0; n_g_cells := zeros4 0%Z;
     temperature := [];
     thermal_reaction_coef_array := []; thermal_source_term_array := [];
     model_context := NoContext;
     forcing_mom_array := [];
     update := update_NULL |}.

(** [cs_solidification_activate]: the value the global pointer is set to.
    [fresh_v] and [fresh_a] stand for the content of the block BFT_MALLOC
    returns, which C leaves indeterminate; [rho] is the uniform value of the
    mass-density property found by name.  The activation of the Navier-Stokes
    and thermal modules acts on other modules only. *)
Definition cs_solidification_activate (b : build_t)
           (fresh_v : Voller.cs_solidification_voller_t)
           (fresh_a : Alloy.cs_solidification_binary_alloy_t)
           (rho : cs_real_t)
           (model_ options_ post_flag_ : Z)
  : outcome cs_solidification_t :=
  if (model_ <? 1)%Z then
    Fatal "cs_solidification_activate: Invalid modelling."
  else
    let solid := _solidification_create in
    let mk ctx upd :=
      {| model := model_; options := options_; post_flag := post_flag_;
         mass_density := rho;
         g_l_val := g_l_val solid; g_l_val_pre := g_l_val_pre solid;
         cell_state := cell_state solid; state_ratio := state_ratio solid;
         n_g_cells := n_g_cells solid; temperature := temperature solid;
         thermal_reaction_coef_array := thermal_reaction_coef_array solid;
         thermal_source_term_array := thermal_source_term_array solid;
         model_context := ctx;
         forcing_mom_array := forcing_mom_array solid;
         update := upd |} in
    if flag_test model_ (CS_SOLIDIFICATION_MODEL_VOLLER_PRAKASH_87 b) then
      Done (mk (VollerContext fresh_v) update_voller)
    else if flag_test model_ (CS_SOLIDIFICATION_MODEL_BINARY_ALLOY b) then
      Done (mk (AlloyContext fresh_a) update_binary_alloy)
    else
      Done (mk NoContext update_NULL).

(** [cs_solidification_set_forcing_eps]. *)
Definition cs_solidification_set_forcing_eps (b : build_t) (st : statics_t)
           (forcing_eps : cs_real_t) : outcome statics_t :=
  _ ← c_assert (ndebug b) (Qltb 0 forcing_eps);
  Done {| cs_solidification_forcing_eps := forcing_eps;
          cs_solidification_eutectic_threshold :=
            cs_solidification_eutectic_threshold st |}.

(** [cs_solidification_set_voller_model], on the value of the global
    pointer; the result is the structure it points to afterwards.  Storing
    through [model_context] cast to a type other than the one of the block
    it points to is left without meaning. *)
Definition cs_solidification_set_voller_model (b : build_t)
           (structure : option cs_solidification_t)
           (t_solidus t_liquidus latent_heat forcing_coef : cs_real_t)
  : outcome cs_solidification_t :=
  match structure with
  | None => Fatal _err_empty_module
  | Some solid =>
      if (Z.land (model solid) (CS_SOLIDIFICATION_MODEL_VOLLER_PRAKASH_87 b)
          =? 0)%Z
      then Fatal "cs_solidification_set_voller_model: Voller and Prakash model not declared during the activation of the solidification module. Please check your settings."
      else
        match model_context solid with
        | VollerContext _ =>
            Done (set_model_context
                    (VollerContext
                       {| Voller.t_solidus := t_solidus;
                          Voller.t_liquidus := t_liquidus;
                          Voller.latent_heat := latent_heat;
                          Voller.forcing_coef := forcing_coef |}) solid)
        | NoContext =>
            _ ← c_assert (ndebug b) false; Undefined
        | AlloyContext _ => Undefined
        end
  end.

(** The content of the alloy block once
    [cs_solidification_set_binary_alloy_model] has stored its arguments and
    the derived parameters.  The added solute equation has no values yet, and
    the three array pointers are reset to NULL. *)
Definition binary_alloy_block (st : statics_t)
           (conc0 beta kp mliq t_eutec t_melt solute_diff
            latent_heat forcing_coef : cs_real_t)
  : Alloy.cs_solidification_binary_alloy_t :=
  let inv_kp := 1 / kp in
  let inv_ml := 1 / mliq in
  let c_eutec := (t_eutec - t_melt) * inv_ml in
  let c_eutec_a := c_eutec * kp in
  {| Alloy.dilatation_coef := beta;
     Alloy.ref_concentration := conc0;
     Alloy.latent_heat := latent_heat;
     Alloy.forcing_coef := forcing_coef;
     Alloy.t_melt := t_melt;
     Alloy.t_eutec := t_eutec;
     Alloy.t_eutec_inf := t_eutec - cs_solidification_eutectic_threshold st;
     Alloy.t_eutec_sup := t_eutec + cs_solidification_eutectic_threshold st;
     Alloy.c_eutec := c_eutec;
     Alloy.c_eutec_a := c_eutec_a;
     Alloy.kp := kp;
     Alloy.inv_kp := inv_kp;
     Alloy.ml := mliq;
     Alloy.inv_ml := inv_ml;
     Alloy.solute_val := [];
     Alloy.solute_val_pre := [];
     Alloy.solute_face_values := [];
     Alloy.c_l_val := [];
     Alloy.c_l_val_pre := [];
     Alloy.c_l_faces := [];
     Alloy.temp_faces := [];
     Alloy.diff_coef := solute_diff |}.

(** [cs_solidification_set_binary_alloy_model], in the same way.  The
    strings [name] and [varname] only name the equation and its unknown. *)
Definition cs_solidification_set_binary_alloy_model (b : build_t)
           (st : statics_t)
           (structure : option cs_solidification_t)
           (conc0 beta kp mliq t_eutec t_melt solute_diff
            latent_heat forcing_coef : cs_real_t)
  : outcome cs_solidification_t :=
  match structure with
  | None => Fatal _err_empty_module
  | Some solid =>
      _ ← c_assert (ndebug b)
            (flag_test (model solid) (CS_SOLIDIFICATION_MODEL_BINARY_ALLOY b));
      match model_context solid with
      | AlloyContext _ =>
          Done (set_model_context
                  (AlloyContext
                     (binary_alloy_block st conc0 beta kp mliq t_eutec t_melt
                        solute_diff latent_heat forcing_coef)) solid)
      | NoContext =>
          _ ← c_assert (ndebug b) false; Undefined
      | VollerContext _ =>
          Undefined
      end
  end.

(** Projections of the result of [_get_alloy_state]. *)
Definition liquidus_of (r : cs_real_t * cs_real_t * cs_solidification_state_t)
  : cs_real_t := fst (fst r).
Definition solidus_of (r : cs_real_t * cs_real_t * cs_solidification_state_t)
  : cs_real_t := snd (fst r).
Definition state_of (r : cs_real_t * cs_real_t * cs_solidification_state_t)
  : cs_solidification_state_t := snd r.

(** ** Momentum enforcement: the advection field *)

(** [a[i]] for an array of indices. *)
Definition rdn (a : list nat) (i : nat) : nat := default 0%nat (a !! i).

(** [cs_adjacency_t], as [connect->c2f] is read: the faces of cell [c] are
    [ids[j]] for [idx[c] <= j < idx[c+1]]. *)
Module Adjacency.
Record cs_adjacency_t : Type := {
  idx : list nat;
  ids : list nat
}.
End Adjacency.

(** [_vel_f[0] = _vel_f[1] = _vel_f[2] = 0.] with
    [_vel_f = face_velocity + 3*f]. *)
Definition kill_face (f : nat) (face_velocity : list cs_real_t)
  : list cs_real_t :=
  <[(3 * f)%nat := 0]>
    (<[(3 * f + 1)%nat := 0]> (<[(3 * f + 2)%nat := 0]> face_velocity)).

(** [for (j = c2f->idx[c_id]; j < c2f->idx[c_id+1]; j++)]: the faces
    attached to a cell. *)
Definition kill_cell_faces (c2f : Adjacency.cs_adjacency_t) (c_id : nat)
           (face_velocity : list cs_real_t) : list cs_real_t :=
  fold_left (fun v j => kill_face (rdn (Adjacency.ids c2f) j) v)
    (seq (rdn (Adjacency.idx c2f) c_id)
       (rdn (Adjacency.idx c2f) (c_id + 1) - rdn (Adjacency.idx c2f) c_id))
    face_velocity.

(** The writes of [_enforce_solid_cells] to the array of the advection
    field: the velocity of every face attached to a cell tagged SOLID is
    set to zero. *)
Definition kill_advection_field (quant : cs_cdo_quantities_t)
           (c2f : Adjacency.cs_adjacency_t) (solid : cs_solidification_t)
           (face_velocity : list cs_real_t) : list cs_real_t :=
  iter_loop (n_cells quant)
    (fun c_id v =>
       if decide (rds (cell_state solid) c_id = SOLID)
       then kill_cell_faces c2f c_id v
       else v)
    face_velocity.

(** ** Buoyancy source terms *)

(** [cs_source_term_boussinesq_t], as the two source-term functions read
    it: reference density, reference value of the variable, dilatation
    coefficient, values of the variable, gravity vector. *)
Module Boussinesq.
Record cs_source_term_boussinesq_t : Type := {
  rho0 : cs_real_t;
  var0 : cs_real_t;
  beta : cs_real_t;
  var : list cs_real_t;
  g : list cs_real_t
}.
End Boussinesq.

(** [(elt_ids == NULL) ? i : elt_ids[i]]. *)
Definition elt_id (elt_ids : option (list nat)) (i : nat) : nat :=
  match elt_ids with
  | None => i
  | Some l => rdn l i
  end.

(** [_temp_boussinesq_source_term]; [input] and [retval] are [None] for a
    NULL pointer, and the result is the array behind [retval].  A NULL
    pointer is dereferenced by the first iteration. *)
Definition _temp_boussinesq_source_term (b : build_t) (n_elts : nat)
           (elt_ids : option (list nat)) (compact : bool)
           (input : option Boussinesq.cs_source_term_boussinesq_t)
           (retval : option (list cs_real_t))
  : outcome (option (list cs_real_t)) :=
  _ ← c_assert (ndebug b)
        (match retval, input with Some _, Some _ => true | _, _ => false end);
  match input, retval, n_elts with
  | Some bq, Some retval, _ =>
      Done (Some
        (iter_loop n_elts
           (fun i retval =>
              let id := elt_id elt_ids i in
              let r_id := if compact then i else id in
              let bq_coef :=
                - Boussinesq.beta bq
                * (rd (Boussinesq.var bq) id - Boussinesq.var0 bq) in
              iter_loop 3
                (fun k _r =>
                   <[(3 * r_id + k)%nat :=
                       Boussinesq.rho0 bq * bq_coef * rd (Boussinesq.g bq) k]>
                     _r)
                retval)
           retval))
  | _, _, O => Done retval
  | _, _, _ => Undefined
  end.


(** ** Setup, initialization and destruction *)

(** The structure with whole arrays replaced, as the setup stage does. *)
Definition with_fields (temp g_l g_l_pre : list cs_real_t)
           (s : cs_solidification_t) : cs_solidification_t :=
  {| model := model s; options := options s; post_flag := post_flag s;
     mass_density := mass_density s;
     g_l_val := g_l; g_l_val_pre := g_l_pre;
     cell_state := cell_state s; state_ratio := state_ratio s;
     n_g_cells := n_g_cells s; temperature := temp;
     thermal_reaction_coef_array := thermal_reaction_coef_array s;
     thermal_source_term_array := thermal_source_term_array s;
     model_context := model_context s;
     forcing_mom_array := forcing_mom_array s;
     update := update s |}.

Definition with_cell_arrays (state : list cs_solidification_state_t)
           (forcing reac src : list cs_real_t)
           (s : cs_solidification_t) : cs_solidification_t :=
  {| model := model s; options := options s; post_flag := post_flag s;
     mass_density := mass_density s;
     g_l_val := g_l_val s; g_l_val_pre := g_l_val_pre s;
     cell_state := state; state_ratio := state_ratio s;
     n_g_cells := n_g_cells s; temperature := temperature s;
     thermal_reaction_coef_array := reac;
     thermal_source_term_array := src;
     model_context := model_context s;
     forcing_mom_array := forcing;
     update := update s |}.

(** The alloy block with [temp_faces] replaced. *)
Definition with_temp_faces (l : list cs_real_t)
           (a : Alloy.cs_solidification_binary_alloy_t) :=
  {| Alloy.dilatation_coef := Alloy.dilatation_coef a;
     Alloy.ref_concentration := Alloy.ref_concentration a;
     Alloy.latent_heat := Alloy.latent_heat a;
     Alloy.forcing_coef := Alloy.forcing_coef a;
     Alloy.t_melt := Alloy.t_melt a; Alloy.t_eutec := Alloy.t_eutec a;
     Alloy.t_eutec_inf := Alloy.t_eutec_inf a;
     Alloy.t_eutec_sup := Alloy.t_eutec_sup a;
     Alloy.c_eutec := Alloy.c_eutec a; Alloy.c_eutec_a := Alloy.c_eutec_a a;
     Alloy.kp := Alloy.kp a; Alloy.inv_kp := Alloy.inv_kp a;
     Alloy.ml := Alloy.ml a; Alloy.inv_ml := Alloy.inv_ml a;
     Alloy.solute_val := Alloy.solute_val a;
     Alloy.solute_val_pre := Alloy.solute_val_pre a;
     Alloy.solute_face_values := Alloy.solute_face_values a;
     Alloy.c_l_val := Alloy.c_l_val a;
     Alloy.c_l_val_pre := Alloy.c_l_val_pre a;
     Alloy.c_l_faces := Alloy.c_l_faces a; Alloy.temp_faces := l;
     Alloy.diff_coef := Alloy.diff_coef a |}.

(** [cs_solidification_is_activated]. *)
Definition cs_solidification_is_activated
           (structure : option cs_solidification_t) : bool :=
  match structure with
  | None => false
  | Some _ => true
  end.

(** [cs_solidification_finalize_setup].  [temperature_field] stands for the
    values of the field found by name, [thermal_reaction_coef] for the test
    [solid->thermal_reaction_coef != NULL] (the property is added at
    activation when the thermal model uses the temperature), and the arrays
    of [g_l_field] are those the field system has allocated since
    [cs_solidification_init_setup] created the field.  The registration of
    the source terms and properties acts on other modules only; the array
    of the solute diffusivity is not part of the record. *)
Definition cs_solidification_finalize_setup (b : build_t)
           (temperature_field : list cs_real_t) (thermal_reaction_coef : bool)
           (quant : cs_cdo_quantities_t)
           (structure : option cs_solidification_t)
  : outcome cs_solidification_t :=
  match structure with
  | None => Fatal _err_empty_module
  | Some solid =>
      let solid :=
        with_fields temperature_field
          (map (fun _ => 1) (g_l_val solid)) (g_l_val_pre solid) solid in
      let cell_state := replicate (n_cells quant) LIQUID in
      if negb (flag_test (model solid)
                 (CS_SOLIDIFICATION_MODEL_VOLLER_PRAKASH_87 b))
         && negb (flag_test (model solid)
                    (CS_SOLIDIFICATION_MODEL_BINARY_ALLOY b))
      then Fatal "cs_solidification_finalize_setup: This model is not handled yet."
      else
        let forcing_mom_array := replicate (n_cells quant) 0 in
        let solid :=
          if thermal_reaction_coef
          then with_cell_arrays cell_state forcing_mom_array
                 (replicate (n_cells quant) 0) (replicate (n_cells quant) 0)
                 solid
          else with_cell_arrays cell_state forcing_mom_array
                 (thermal_reaction_coef_array solid)
                 (thermal_source_term_array solid) solid in
        if flag_test (model solid) (CS_SOLIDIFICATION_MODEL_BINARY_ALLOY b)
        then
          match model_context solid with
          | AlloyContext alloy =>
              Done (set_model_context
                      (AlloyContext
                         (Alloy.with_c_l_faces
                            (replicate (n_faces quant) 0) alloy)) solid)
          | _ => Undefined
          end
        else Done solid
  end.

(** [cs_solidification_initialize].  [cdofb] is the test
    [cs_equation_get_space_scheme(alloy->solute_equation) ==
    CS_SPACE_SCHEME_CDOFB] and [thm_face_values] the array
    [cs_equation_get_face_values(thm_eq)] returns. *)
Definition cs_solidification_initialize (b : build_t) (st : statics_t)
           (peers : list (list Z)) (cdofb : bool)
           (thm_face_values : list cs_real_t)
           (quant : cs_cdo_quantities_t) (ts : cs_time_step_t)
           (structure : option cs_solidification_t)
  : outcome cs_solidification_t :=
  match structure with
  | None => Fatal _err_empty_module
  | Some solid =>
      solid ←
        (if flag_test (model solid) (CS_SOLIDIFICATION_MODEL_BINARY_ALLOY b)
         then
           match model_context solid with
           | AlloyContext alloy =>
               if cdofb
               then Done (set_model_context
                            (AlloyContext
                               (with_temp_faces thm_face_values alloy)) solid)
               else Fatal "cs_solidification_initialize: Invalid space scheme for equation"
           | _ => Undefined
           end
         else Done solid);
      call_update b st peers quant ts false solid
  end.

(** What the global pointer designates: nothing, a structure, or a block
    that has been freed. *)
Inductive pointer_t : Type :=
| pointer_NULL
| pointer_to (solid : cs_solidification_t)
| pointer_freed.

(** [cs_solidification_destroy_all]: the value returned and what the
    global pointer, which the function never assigns, designates
    afterwards.  Each model bit is tested on its own: with the Voller bit
    the block behind [model_context] is freed; with the alloy bit the
    arrays of the alloy block are read through [model_context] and freed,
    then the block. *)
Definition cs_solidification_destroy_all (b : build_t)
           (structure : pointer_t) : outcome (pointer_t * pointer_t) :=
  match structure with
  | pointer_NULL => Done (pointer_NULL, pointer_NULL)
  | pointer_freed => Undefined
  | pointer_to solid =>
      let context_freed :=
        flag_test (model solid) (CS_SOLIDIFICATION_MODEL_VOLLER_PRAKASH_87 b) in
      if flag_test (model solid) (CS_SOLIDIFICATION_MODEL_BINARY_ALLOY b)
      then
        if context_freed then Undefined
        else
          match model_context solid with
          | AlloyContext _ => Done (pointer_NULL, pointer_freed)
          | _ => Undefined
          end
      else Done (pointer_NULL, pointer_freed)
  end.

(** ** Definitions used by the statements *)

(** Sample alloys: a hypo-eutectic one with partition coefficient 1/2 and one
    with partition coefficient 2, both with melting point 1000, eutectic
    temperature 900 and liquidus slope -100, so that [c_eutec] is 1. *)
Definition alloy_half : Alloy.cs_solidification_binary_alloy_t :=
  binary_alloy_block default_statics 0 0 (1 # 2) (-100) 900 1000 0 1 1.

(** After [k] cells: four counters, none negative, adding up to [k], the
    EUTECTIC one still zero. *)
Definition counted (k : nat) (n : list Z) : Prop :=
  length n = 4%nat
  /\ (0 <= rdz n 0 /\ 0 <= rdz n 1 /\ 0 <= rdz n 2)%Z
  /\ rdz n 3 = 0%Z
  /\ sum4 n = Z.of_nat k.

(** Four counters, the EUTECTIC one zero. *)
Definition no_eutectic (n : list Z) : Prop :=
  length n = 4%nat /\ rdz n 3 = 0%Z.

(** Number of cells below [k] that [f] sends to [s]. *)
Definition tally (f : nat -> cs_solidification_state_t) (k : nat)
           (s : cs_solidification_state_t) : Z :=
  Z.of_nat (length (filter (fun c => f c = s) (seq 0 k))).

(** Every counter holds the number of cells sent to its state. *)
Definition tallied (f : nat -> cs_solidification_state_t) (k : nat)
           (n : list Z) : Prop :=
  length n = 4%nat
  /\ forall s, s <> CS_SOLIDIFICATION_N_STATES ->
               rdz n (state_id s) = tally f k s.

(** The entries of the five per-cell arrays at cell [c]: liquid fraction,
    thermal reaction coefficient, thermal source term, state, momentum
    forcing coefficient. *)
Definition cell_view (c : nat) (s : cs_solidification_t)
  : cs_real_t * cs_real_t * cs_real_t * cs_solidification_state_t * cs_real_t :=
  (rd (g_l_val s) c, rd (thermal_reaction_coef_array s) c,
   rd (thermal_source_term_array s) c, rds (cell_state s) c,
   rd (forcing_mom_array s) c).

(** The number of cells is a [cs_lnum_t], a 32-bit [int], and the arrays
    have one entry per cell, as [cs_solidification_finalize_setup] and the
    field and mesh builders allocate them. *)
Record sized (quant : cs_cdo_quantities_t) (s : cs_solidification_t) : Prop := {
  sz_lnum : (Z.of_nat (n_cells quant) < 2 ^ 31)%Z;
  sz_g_l : length (g_l_val s) = n_cells quant;
  sz_reac : length (thermal_reaction_coef_array s) = n_cells quant;
  sz_src : length (thermal_source_term_array s) = n_cells quant;
  sz_state : length (cell_state s) = n_cells quant;
  sz_forcing : length (forcing_mom_array s) = n_cells quant;
  sz_temp : length (temperature s) = n_cells quant;
  sz_vol : length (cell_vol quant) = n_cells quant
}.

(** The same for the arrays reached through the alloy block, per cell and
    per face. *)
Record alloy_sized (quant : cs_cdo_quantities_t)
       (alloy : Alloy.cs_solidification_binary_alloy_t) : Prop := {
  asz_c_l : length (Alloy.c_l_val alloy) = n_cells quant;
  asz_solute : length (Alloy.solute_val alloy) = n_cells quant;
  asz_solute_pre : length (Alloy.solute_val_pre alloy) = n_cells quant;
  asz_solute_faces : length (Alloy.solute_face_values alloy) = n_faces quant;
  asz_temp_faces : length (Alloy.temp_faces alloy) = n_faces quant;
  asz_c_l_faces : length (Alloy.c_l_faces alloy) = n_faces quant
}.

(** The fields an update pass leaves alone. *)
Definition same_inputs (s0 s : cs_solidification_t) : Prop :=
  temperature s = temperature s0 /\ model s = model s0
  /\ update s = update s0 /\ mass_density s = mass_density s0.

(** The values the Voller loop body stores for a cell of temperature [T] and
    volume [vol], by branch. *)
Definition voller_values (st : statics_t)
           (v_model : Voller.cs_solidification_voller_t)
           (dgldT inv_forcing_eps dgldT_coef T vol : cs_real_t)
  : cs_real_t * cs_real_t * cs_real_t * cs_solidification_state_t * cs_real_t :=
  if Qltb T (Voller.t_solidus v_model) then
    (0, 0, 0, SOLID, Voller.forcing_coef v_model * inv_forcing_eps)
  else if Qltb (Voller.t_liquidus v_model) T then
    (1, 0, 0, LIQUID, 0)
  else
    let glc := (T - Voller.t_solidus v_model) * dgldT in
    (glc, dgldT_coef, dgldT_coef * T * vol, MUSHY,
     Voller.forcing_coef v_model * (1 - glc) * (1 - glc)
     / (glc * glc * glc + cs_solidification_forcing_eps st)).

(** The constants [_update_liquid_fraction_voller] computes before its loop. *)
Definition voller_dgldT (v_model : Voller.cs_solidification_voller_t)
  : cs_real_t :=
  1 / (Voller.t_liquidus v_model - Voller.t_solidus v_model).

Definition voller_dgldT_coef (v_model : Voller.cs_solidification_voller_t)
           (ts : cs_time_step_t) (cell_rho : cs_real_t) : cs_real_t :=
  cell_rho * Voller.latent_heat v_model * voller_dgldT v_model / dt ts.

(** A three-cell rank for the Voller model: one cell under the solidus, one
    half-way in the mushy zone, one above the liquidus. *)
Definition voller_1700_1730 : Voller.cs_solidification_voller_t :=
  {| Voller.t_solidus := 1700; Voller.t_liquidus := 1730;
     Voller.latent_heat := 5; Voller.forcing_coef := 7 |}.

Definition quant3 : cs_cdo_quantities_t :=
  {| n_cells := 3; n_faces := 0; cell_vol := [1; 1; 2]; vol_tot := 4 |}.

Definition step_tenth : cs_time_step_t := {| t_cur := 0; dt := 1 # 10 |}.

Definition solid3_voller : cs_solidification_t :=
  {| model := 16; options := 0; post_flag := 0; mass_density := 2;
     g_l_val := [1; 1; 1]; g_l_val_pre := [1; 1; 1];
     cell_state := [LIQUID; LIQUID; LIQUID];
     state_ratio := zeros4 0; n_g_cells := zeros4 0%Z;
     temperature := [1600; 1715; 1800];
     thermal_reaction_coef_array := [0; 0; 0];
     thermal_source_term_array := [0; 0; 0];
     model_context := VollerContext voller_1700_1730;
     forcing_mom_array := [0; 0; 0];
     update := update_voller |}.

(** The momentum-forcing coefficient stored by either loop body, by the
    branch taken ([state] is the state the branch belongs to) and the liquid
    fraction [glc] stored with it. *)
Definition forcing_written (st : statics_t) (forcing_coef : cs_real_t)
           (state : cs_solidification_state_t) (glc : cs_real_t) : cs_real_t :=
  match state with
  | CS_SOLIDIFICATION_STATE_SOLID =>
      forcing_coef * (1 / cs_solidification_forcing_eps st)
  | CS_SOLIDIFICATION_STATE_LIQUID => 0
  | CS_SOLIDIFICATION_STATE_MUSHY | CS_SOLIDIFICATION_STATE_EUTECTIC =>
      forcing_coef * (1 - glc) * (1 - glc)
      / (glc * glc * glc + cs_solidification_forcing_eps st)
  | CS_SOLIDIFICATION_N_STATES => 0
  end.

(** The values the alloy loop body stores in the five per-cell arrays, by
    the state the evaluator returns. *)
Definition alloy_values (st : statics_t)
           (alloy : Alloy.cs_solidification_binary_alloy_t)
           (rhoLovdt inv_kpm1 eut_slope inv_forcing_eps : cs_real_t)
           (temp conc conc_prev vol : cs_real_t)
  : cs_real_t * cs_real_t * cs_real_t * cs_solidification_state_t * cs_real_t :=
  let '(t_liquidus, t_solidus, state) := _get_alloy_state alloy temp conc in
  match state with
  | CS_SOLIDIFICATION_STATE_SOLID =>
      (0, 0, 0, SOLID, Alloy.forcing_coef alloy * inv_forcing_eps)
  | CS_SOLIDIFICATION_STATE_MUSHY =>
      let dTm := temp - Alloy.t_melt alloy in
      let glc := 1 + inv_kpm1 * (temp - t_liquidus) / dTm in
      let dgldT := inv_kpm1 * (t_liquidus - Alloy.t_melt alloy) / (dTm * dTm) in
      let dgldC := inv_kpm1 * Alloy.ml alloy / dTm in
      (glc, dgldT * rhoLovdt,
       vol * (dgldT * temp + dgldC * (conc_prev - conc)) * rhoLovdt,
       MUSHY,
       Alloy.forcing_coef alloy * (1 - glc) * (1 - glc)
       / (glc * glc * glc + cs_solidification_forcing_eps st))
  | CS_SOLIDIFICATION_STATE_LIQUID => (1, 0, 0, LIQUID, 0)
  | CS_SOLIDIFICATION_STATE_EUTECTIC =>
      let glc := (conc - Alloy.c_eutec_a alloy) * eut_slope in
      (glc, 0, vol * rhoLovdt * eut_slope * (conc - conc_prev), MUSHY,
       Alloy.forcing_coef alloy * (1 - glc) * (1 - glc)
       / (glc * glc * glc + cs_solidification_forcing_eps st))
  | CS_SOLIDIFICATION_N_STATES => (0, 0, 0, CS_SOLIDIFICATION_N_STATES, 0)
  end.

(** The liquid concentration the body leaves in the cell; [g_old] and
    [cl_old] are the liquid fraction and liquid concentration found there. *)
Definition alloy_c_l_value (alloy : Alloy.cs_solidification_binary_alloy_t)
           (temp conc g_old cl_old : cs_real_t) : cs_real_t :=
  match state_of (_get_alloy_state alloy temp conc) with
  | CS_SOLIDIFICATION_STATE_SOLID =>
      if Qltb 0 g_old then
        if Qleb (Alloy.c_eutec_a alloy) conc then Alloy.c_eutec alloy
        else conc * Alloy.inv_kp alloy
      else cl_old
  | CS_SOLIDIFICATION_STATE_MUSHY =>
      (temp - Alloy.t_melt alloy) * Alloy.inv_ml alloy
  | CS_SOLIDIFICATION_STATE_LIQUID => conc
  | CS_SOLIDIFICATION_STATE_EUTECTIC => Alloy.c_eutec alloy
  | CS_SOLIDIFICATION_N_STATES => cl_old
  end.

(** The state whose counter the body increments. *)
Definition counted_state (s : cs_solidification_state_t)
  : cs_solidification_state_t :=
  match s with
  | CS_SOLIDIFICATION_STATE_EUTECTIC => MUSHY
  | _ => s
  end.

(** The constants [_update_liquid_fraction_binary_alloy] computes before
    its loop on cells. *)
Definition alloy_rhoLovdt (alloy : Alloy.cs_solidification_binary_alloy_t)
           (ts : cs_time_step_t) (cell_rho : cs_real_t) : cs_real_t :=
  cell_rho * Alloy.latent_heat alloy / dt ts.

Definition alloy_inv_kpm1 (alloy : Alloy.cs_solidification_binary_alloy_t)
  : cs_real_t := 1 / (Alloy.kp alloy - 1).

Definition alloy_eut_slope (alloy : Alloy.cs_solidification_binary_alloy_t)
  : cs_real_t := 1 / (Alloy.c_eutec alloy - Alloy.c_eutec_a alloy).

(** The values one cell holds after an alloy pass, from what the pass finds
    on entry. *)
Definition alloy_cell_values (st : statics_t) (quant : cs_cdo_quantities_t)
           (ts : cs_time_step_t) (solid : cs_solidification_t)
           (alloy : Alloy.cs_solidification_binary_alloy_t) (c : nat) :=
  alloy_values st alloy
    (alloy_rhoLovdt alloy ts (mass_density solid))
    (alloy_inv_kpm1 alloy) (alloy_eut_slope alloy)
    (1 / cs_solidification_forcing_eps st)
    (rd (temperature solid) c) (rd (Alloy.solute_val alloy) c)
    (rd (Alloy.solute_val_pre alloy) c) (rd (cell_vol quant) c).

(** The assertion on [kp] lets the pass through. *)
Definition kp_accepted (b : build_t)
           (alloy : Alloy.cs_solidification_binary_alloy_t) : Prop :=
  ndebug b = true \/ 0 < Alloy.kp alloy.

(** A rank: its mesh quantities and its structure. *)
Definition rank_t : Type := cs_cdo_quantities_t * cs_solidification_t.

(** The updater [update] points to, up to the parallel reduction. *)
Definition update_local (b : build_t) (st : statics_t)
           (quant : cs_cdo_quantities_t) (ts : cs_time_step_t)
           (cur2prev : bool) (solid : cs_solidification_t)
  : outcome cs_solidification_t :=
  match update solid with
  | update_voller => voller_local st quant ts cur2prev solid
  | update_binary_alloy =>
      sa ← alloy_local b st quant ts cur2prev solid; Done (fst sa)
  | update_NULL => Undefined
  end.

(** The rank is set up as activation and the setup stage leave it: [update]
    and [model_context] agree, and the arrays have one entry per cell. *)
Definition ready (b : build_t) (r : rank_t) : Prop :=
  sized (fst r) (snd r)
  /\ match update (snd r), model_context (snd r) with
     | update_voller, VollerContext _ => True
     | update_binary_alloy, AlloyContext alloy =>
         alloy_sized (fst r) alloy /\ kp_accepted b alloy
     | _, _ => False
     end.

(** The counters a rank brings to the reduction. *)
Definition local_counts (b : build_t) (st : statics_t) (ts : cs_time_step_t)
           (cur2prev : bool) (r : rank_t) : list Z :=
  match update_local b st (fst r) ts cur2prev (snd r) with
  | Done s => n_g_cells s
  | _ => zeros4 0%Z
  end.

(** The forcing coefficient of the model in use. *)
Definition forcing_coef_of (m : model_context_t) : cs_real_t :=
  match m with
  | VollerContext v_model => Voller.forcing_coef v_model
  | AlloyContext alloy => Alloy.forcing_coef alloy
  | NoContext => 0
  end.

(** The values cell [c] holds after a pass of the model in use. *)
Definition pass_values (st : statics_t) (quant : cs_cdo_quantities_t)
           (ts : cs_time_step_t) (solid : cs_solidification_t) (c : nat)
  : cs_real_t * cs_real_t * cs_real_t * cs_solidification_state_t * cs_real_t :=
  match model_context solid with
  | VollerContext v_model =>
      voller_values st v_model (voller_dgldT v_model)
        (1 / cs_solidification_forcing_eps st)
        (voller_dgldT_coef v_model ts (mass_density solid))
        (rd (temperature solid) c) (rd (cell_vol quant) c)
  | AlloyContext alloy => alloy_cell_values st quant ts solid alloy c
  | NoContext => (0, 0, 0, CS_SOLIDIFICATION_N_STATES, 0)
  end.

(** What both loop bodies guarantee for the cell they write: the tag is
    SOLID, MUSHY or LIQUID and the forcing is the one of the tag. *)
Definition cell_ok (st : statics_t) (fc : cs_real_t)
           (v : cs_real_t * cs_real_t * cs_real_t
                * cs_solidification_state_t * cs_real_t) : Prop :=
  let state := snd (fst v) in
  let g := fst (fst (fst (fst v))) in
  (state = SOLID \/ state = MUSHY \/ state = LIQUID)
  /\ snd v = forcing_written st fc state g.

(** A build with NDEBUG, the two model bits at 16 and 32. *)
Definition release_build : build_t :=
  {| ndebug := true;
     CS_SOLIDIFICATION_MODEL_VOLLER_PRAKASH_87 := 16;
     CS_SOLIDIFICATION_MODEL_BINARY_ALLOY := 32 |}.


(** A three-cell rank for the binary-alloy model with the hypo-eutectic
    sample alloy: a mushy cell under the solid-side concentration, a cell on
    the eutectic plateau, a liquid cell. *)
Definition alloy_half_cells : Alloy.cs_solidification_binary_alloy_t :=
  Alloy.with_c_l_val [0; 0; 0]
    {| Alloy.dilatation_coef := 0; Alloy.ref_concentration := 0;
       Alloy.latent_heat := 1; Alloy.forcing_coef := 1;
       Alloy.t_melt := 1000; Alloy.t_eutec := 900;
       Alloy.t_eutec_inf := Alloy.t_eutec_inf alloy_half;
       Alloy.t_eutec_sup := Alloy.t_eutec_sup alloy_half;
       Alloy.c_eutec := Alloy.c_eutec alloy_half;
       Alloy.c_eutec_a := Alloy.c_eutec_a alloy_half;
       Alloy.kp := 1 # 2; Alloy.inv_kp := Alloy.inv_kp alloy_half;
       Alloy.ml := -100; Alloy.inv_ml := Alloy.inv_ml alloy_half;
       Alloy.solute_val := [2 # 5; 3 # 4; 1 # 10];
       Alloy.solute_val_pre := [2 # 5; 7 # 10; 1 # 10];
       Alloy.solute_face_values := [2 # 5; 3 # 4];
       Alloy.c_l_val := []; Alloy.c_l_val_pre := [0; 0; 0];
       Alloy.c_l_faces := [0; 0]; Alloy.temp_faces := [950; 900];
       Alloy.diff_coef := 0 |}.

Definition quant3_faces : cs_cdo_quantities_t :=
  {| n_cells := 3; n_faces := 2; cell_vol := [1; 1; 2]; vol_tot := 4 |}.

Definition solid3_alloy : cs_solidification_t :=
  {| model := 32; options := 0; post_flag := 0; mass_density := 2;
     g_l_val := [1; 1; 1]; g_l_val_pre := [1; 1; 1];
     cell_state := [LIQUID; LIQUID; LIQUID];
     state_ratio := zeros4 0; n_g_cells := zeros4 0%Z;
     temperature := [950; 900; 995];
     thermal_reaction_coef_array := [0; 0; 0];
     thermal_source_term_array := [0; 0; 0];
     model_context := AlloyContext alloy_half_cells;
     forcing_mom_array := [0; 0; 0];
     update := update_binary_alloy |}.

(** Number of cells of the whole mesh: those of this rank and of the
    others. *)
Definition global_cells (quant : cs_cdo_quantities_t) (others : list rank_t)
  : nat :=
  (n_cells quant + sum_list (map (fun r => n_cells (fst r)) others))%nat.

(** The volumes a rank brings to the reduction of [_do_monitoring].  They
    depend on the tags only, which the reduction of the counters does not
    touch. *)
Definition local_volumes (b : build_t) (st : statics_t) (ts : cs_time_step_t)
           (cur2prev : bool) (r : rank_t) : list cs_real_t :=
  match call_update b st [] (fst r) ts cur2prev (snd r) with
  | Done s => state_ratio (monitoring_local (fst r) s)
  | _ => zeros4 0
  end.

(** Four volumes, the EUTECTIC one zero. *)
Definition ratio_no_eutectic (r : list cs_real_t) : Prop :=
  length r = 4%nat /\ rd r 3 = 0.

(** The call stops with the message of [bft_error]. *)
Definition fatal {A : Type} (o : outcome A) : Prop :=
  exists msg, o = Fatal msg.

(** Activation for the Voller model (bit 16) with the Stokes bit, then the
    alloy setter, in a build with NDEBUG. *)
Definition alloy_setter_after_voller_activation
  : outcome cs_solidification_t :=
  solid ← cs_solidification_activate release_build voller_1700_1730
            alloy_half 2 17 0 0;
  cs_solidification_set_binary_alloy_model release_build default_statics
    (Some solid) 0 0 (1 # 2) (-100) 900 1000 0 1 1.

(** ** Definitions used by the further statements *)

Definition view_g (v : cs_real_t * cs_real_t * cs_real_t
                       * cs_solidification_state_t * cs_real_t) : cs_real_t :=
  fst (fst (fst (fst v))).

(** The fields of the structure no loop body writes. *)
Definition same_frame (s0 s : cs_solidification_t) : Prop :=
  g_l_val_pre s = g_l_val_pre s0 /\ model_context s = model_context s0
  /\ state_ratio s = state_ratio s0 /\ options s = options s0
  /\ post_flag s = post_flag s0.

(** The alloy block with its two owned arrays of liquid concentrations
    replaced. *)
Definition with_liquid_concentrations (cells faces : list cs_real_t)
           (a : Alloy.cs_solidification_binary_alloy_t) :=
  Alloy.with_c_l_faces faces (Alloy.with_c_l_val cells a).

(** The liquid concentration the loop on faces stores for a face of
    temperature [temp] and bulk concentration [conc]. *)
Definition alloy_face_value (alloy : Alloy.cs_solidification_binary_alloy_t)
           (temp conc : cs_real_t) : cs_real_t :=
  match state_of (_get_alloy_state alloy temp conc) with
  | CS_SOLIDIFICATION_STATE_SOLID =>
      if Qleb (Alloy.c_eutec_a alloy) conc then Alloy.c_eutec alloy
      else conc * Alloy.inv_kp alloy
  | CS_SOLIDIFICATION_STATE_MUSHY =>
      (temp - Alloy.t_melt alloy) * Alloy.inv_ml alloy
  | CS_SOLIDIFICATION_STATE_LIQUID => conc
  | CS_SOLIDIFICATION_STATE_EUTECTIC => Alloy.c_eutec alloy
  | CS_SOLIDIFICATION_N_STATES => 0
  end.

(** What a pass leaves of the model context it found: the Voller block as
    it was; the alloy block with new liquid concentrations at cells and
    faces and, when asked, the current ones saved as previous. *)
Definition context_after (quant : cs_cdo_quantities_t) (cur2prev : bool)
           (m m' : model_context_t) : Prop :=
  match m with
  | VollerContext v_model => m' = VollerContext v_model
  | AlloyContext alloy =>
      exists cells faces,
        length cells = n_cells quant /\ length faces = n_faces quant
        /\ m' = AlloyContext
               (with_liquid_concentrations cells faces
                  (if cur2prev then Alloy.c_l_current_to_previous alloy
                   else alloy))
  | NoContext => False
  end.

(** The parameters of the alloy block and the arrays it reads from the
    solute and thermal equations. *)
Definition same_alloy_inputs
           (a a' : Alloy.cs_solidification_binary_alloy_t) : Prop :=
  Alloy.dilatation_coef a' = Alloy.dilatation_coef a
  /\ Alloy.ref_concentration a' = Alloy.ref_concentration a
  /\ Alloy.latent_heat a' = Alloy.latent_heat a
  /\ Alloy.forcing_coef a' = Alloy.forcing_coef a
  /\ Alloy.t_melt a' = Alloy.t_melt a /\ Alloy.t_eutec a' = Alloy.t_eutec a
  /\ Alloy.t_eutec_inf a' = Alloy.t_eutec_inf a
  /\ Alloy.t_eutec_sup a' = Alloy.t_eutec_sup a
  /\ Alloy.c_eutec a' = Alloy.c_eutec a
  /\ Alloy.c_eutec_a a' = Alloy.c_eutec_a a
  /\ Alloy.kp a' = Alloy.kp a /\ Alloy.inv_kp a' = Alloy.inv_kp a
  /\ Alloy.ml a' = Alloy.ml a /\ Alloy.inv_ml a' = Alloy.inv_ml a
  /\ Alloy.diff_coef a' = Alloy.diff_coef a
  /\ Alloy.solute_val a' = Alloy.solute_val a
  /\ Alloy.solute_val_pre a' = Alloy.solute_val_pre a
  /\ Alloy.solute_face_values a' = Alloy.solute_face_values a
  /\ Alloy.temp_faces a' = Alloy.temp_faces a.







(** The faces attached to a cell, and to the cells of a selection. *)
Definition cell_faces (c2f : Adjacency.cs_adjacency_t) (c_id : nat)
  : list nat :=
  map (rdn (Adjacency.ids c2f))
    (seq (rdn (Adjacency.idx c2f) c_id)
       (rdn (Adjacency.idx c2f) (c_id + 1) - rdn (Adjacency.idx c2f) c_id)).

Definition selection_faces (c2f : Adjacency.cs_adjacency_t)
           (cells : list nat) : list nat :=
  flat_map (cell_faces c2f) cells.

(** The velocity array with the three components of the faces of [faces]
    set to zero. *)
Definition kill_faces (faces : list nat) (face_velocity : list cs_real_t)
  : list cs_real_t :=
  fold_left (fun v f => kill_face f v) faces face_velocity.

(** [compact ? i : id]. *)
Definition result_id (elt_ids : option (list nat)) (compact : bool) (i : nat)
  : nat :=
  if compact then i else elt_id elt_ids i.

(** Three consecutive entries written per element. *)
Definition scatter3 (n : nat) (r_id : nat -> nat) (F : nat -> nat -> cs_real_t)
           (retval : list cs_real_t) : list cs_real_t :=
  iter_loop n
    (fun i retval =>
       iter_loop 3 (fun k _r => <[(3 * r_id i + k)%nat := F i k]> _r) retval)
    retval.

(** The three-cell alloy rank later on: the first cell, solid already,
    holds the liquid concentration 4/5 of its solidification; the second
    one is liquid still and colder than the eutectic plateau. *)
Definition alloy_half_cold : Alloy.cs_solidification_binary_alloy_t :=
  Alloy.with_c_l_val [4 # 5; 0; 0] alloy_half_cells.

Definition solid3_alloy_cold : cs_solidification_t :=
  {| model := 32; options := 0; post_flag := 0; mass_density := 2;
     g_l_val := [0; 1; 1]; g_l_val_pre := [1; 1; 1];
     cell_state := [SOLID; LIQUID; LIQUID];
     state_ratio := zeros4 0; n_g_cells := zeros4 0%Z;
     temperature := [900; 850; 995];
     thermal_reaction_coef_array := [0; 0; 0];
     thermal_source_term_array := [0; 0; 0];
     model_context := AlloyContext alloy_half_cold;
     forcing_mom_array := [0; 0; 0];
     update := update_binary_alloy |}.

(** A buoyancy source term on two elements: reference temperature 20,
    dilatation coefficient 1/100, gravity along the third axis. *)
Definition bq_two : Boussinesq.cs_source_term_boussinesq_t :=
  {| Boussinesq.rho0 := 2; Boussinesq.var0 := 20;
     Boussinesq.beta := 1 # 100; Boussinesq.var := [20; 30];
     Boussinesq.g := [0; 0; -10] |}.

(** ** Double precision *)

(** [cs_real_t] is the C type [double] (cs_defs.h, not among the sources):
    an IEEE 754 binary64 number.  The numbers are those of the specification
    of floating-point arithmetic of the standard library, [spec_float] with
    53 bits of precision and exponents below 1024; every operation rounds to
    nearest, ties to even, as a C compiler does that evaluates each double
    operation in double precision and fuses none.  There is one NaN; the two
    zeros and the two infinities are distinct values.  The doubles are the
    values that satisfy [valid_binary prec emax]; the operations return such
    values, and the statements below hold for every value of the type. *)
Module Binary64.

Definition double : Type := spec_float.

Definition prec : Z := 53.
Definition emax : Z := 1024.

Definition add (a b : double) : double := SFadd prec emax a b.
Definition sub (a b : double) : double := SFsub prec emax a b.
Definition mul (a b : double) : double := SFmul prec emax a b.
Definition div (a b : double) : double := SFdiv prec emax a b.

(** C's [a < b] and [a <= b]: false as soon as an operand is a NaN. *)
Definition ltb (a b : double) : bool := SFltb a b.
Definition leb (a b : double) : bool := SFleb a b.

(** The conversion of an integer constant. *)
Definition of_int (z : Z) : double := binary_normalize prec emax z 0 false.

Definition zero : double := S754_zero false.
Definition one : double := of_int 1.

(** The decimal constant [m]e-[k], for [m] and [10^k] below [2^53]: the
    double nearest to the quotient, which the correctly rounded division of
    two exact operands returns. *)
Definition decimal (m : Z) (k : nat) : double :=
  div (of_int m) (of_int (10 ^ Z.of_nat k)).

Definition is_nan (a : double) : bool :=
  match a with
  | S754_nan => true
  | _ => false
  end.

Definition is_finite (a : double) : bool :=
  match a with
  | S754_zero _ | S754_finite _ _ _ => true
  | _ => false
  end.

End Binary64.

Declare Scope b64_scope.
Delimit Scope b64_scope with b64.
Bind Scope b64_scope with Binary64.double.

Infix "+" := Binary64.add : b64_scope.
Infix "-" := Binary64.sub : b64_scope.
Infix "*" := Binary64.mul : b64_scope.
Infix "/" := Binary64.div : b64_scope.
Infix "<?" := Binary64.ltb : b64_scope.
Infix "<=?" := Binary64.leb : b64_scope.

(** A key whose lexicographic order is the order [SFcompare] gives the
    doubles: the class (infinities outside, zeros in the middle), then the
    exponent and the mantissa, both negated on the negative side. *)
Definition order_key (x : Binary64.double) : Z * Z * Z :=
  match x with
  | S754_zero _ | S754_nan => (0, 0, 0)%Z
  | S754_infinity s => ((if s then -2 else 2), 0, 0)%Z
  | S754_finite s m e =>
      if s then (-1, - e, Z.neg m)%Z else (1, e, Z.pos m)%Z
  end.

Definition order_key_lt (k1 k2 : Z * Z * Z) : Prop :=
  let '(a1, b1, c1) := k1 in
  let '(a2, b2, c2) := k2 in
  (a1 < a2 \/ (a1 = a2 /\ (b1 < b2 \/ (b1 = b2 /\ c1 < c2))))%Z.

(** ** The phase diagram and the two updaters in double precision *)

(** The same functions as above, from the same lines of the source, with
    the arithmetic of the machine in place of the exact one.  What does not
    depend on the arithmetic (states, counters, loops, outcomes) is shared. *)
Module B64.

Import Binary64.
Local Open Scope b64_scope.

Definition cs_real_t : Type := double.

(** [a[i]] for an array of reals. *)
Definition rd (a : list cs_real_t) (i : nat) : cs_real_t :=
  default zero (a !! i).

Module Voller.
Record cs_solidification_voller_t : Type := {
  t_solidus : cs_real_t;
  t_liquidus : cs_real_t;
  latent_heat : cs_real_t;
  forcing_coef : cs_real_t
}.
End Voller.

Module Alloy.
Record cs_solidification_binary_alloy_t : Type := {
  dilatation_coef : cs_real_t;
  ref_concentration : cs_real_t;
  latent_heat : cs_real_t;
  forcing_coef : cs_real_t;
  t_melt : cs_real_t;
  t_eutec : cs_real_t;
  t_eutec_inf : cs_real_t;
  t_eutec_sup : cs_real_t;
  c_eutec : cs_real_t;
  c_eutec_a : cs_real_t;
  kp : cs_real_t;
  inv_kp : cs_real_t;
  ml : cs_real_t;
  inv_ml : cs_real_t;
  solute_val : list cs_real_t;        (* cs_equation_get_field(tr_eq)->val *)
  solute_val_pre : list cs_real_t;    (* ... ->val_pre *)
  solute_face_values : list cs_real_t;(* cs_equation_get_face_values(tr_eq) *)
  c_l_val : list cs_real_t;           (* c_l_field->val *)
  c_l_val_pre : list cs_real_t;       (* c_l_field->val_pre *)
  c_l_faces : list cs_real_t;
  temp_faces : list cs_real_t;
  diff_coef : cs_real_t
}.

(** The block with the array behind [c_l_field->val] replaced. *)
Definition with_c_l_val (l : list cs_real_t)
           (a : cs_solidification_binary_alloy_t) :=
  {| dilatation_coef := dilatation_coef a;
     ref_concentration := ref_concentration a;
     latent_heat := latent_heat a; forcing_coef := forcing_coef a;
     t_melt := t_melt a; t_eutec := t_eutec a;
     t_eutec_inf := t_eutec_inf a; t_eutec_sup := t_eutec_sup a;
     c_eutec := c_eutec a; c_eutec_a := c_eutec_a a;
     kp := kp a; inv_kp := inv_kp a; ml := ml a; inv_ml := inv_ml a;
     solute_val := solute_val a; solute_val_pre := solute_val_pre a;
     solute_face_values := solute_face_values a;
     c_l_val := l;
     c_l_val_pre := c_l_val_pre a;
     c_l_faces := c_l_faces a; temp_faces := temp_faces a;
     diff_coef := diff_coef a |}.

(** The block with the array [c_l_faces] replaced. *)
Definition with_c_l_faces (l : list cs_real_t)
           (a : cs_solidification_binary_alloy_t) :=
  {| dilatation_coef := dilatation_coef a;
     ref_concentration := ref_concentration a;
     latent_heat := latent_heat a; forcing_coef := forcing_coef a;
     t_melt := t_melt a; t_eutec := t_eutec a;
     t_eutec_inf := t_eutec_inf a; t_eutec_sup := t_eutec_sup a;
     c_eutec := c_eutec a; c_eutec_a := c_eutec_a a;
     kp := kp a; inv_kp := inv_kp a; ml := ml a; inv_ml := inv_ml a;
     solute_val := solute_val a; solute_val_pre := solute_val_pre a;
     solute_face_values := solute_face_values a;
     c_l_val := c_l_val a;
     c_l_val_pre := c_l_val_pre a;
     c_l_faces := l; temp_faces := temp_faces a;
     diff_coef := diff_coef a |}.

(** [c_l[c_id] = x]. *)
Definition set_c_l (c_id : nat) (x : cs_real_t)
           (a : cs_solidification_binary_alloy_t) :=
  with_c_l_val (<[c_id := x]> (c_l_val a)) a.

(** [alloy->c_l_faces[f_id] = x]. *)
Definition set_c_l_faces (f_id : nat) (x : cs_real_t)
           (a : cs_solidification_binary_alloy_t) :=
  with_c_l_faces (<[f_id := x]> (c_l_faces a)) a.

(** [cs_field_current_to_previous(alloy->c_l_field)]. *)
Definition c_l_current_to_previous (a : cs_solidification_binary_alloy_t) :=
  {| dilatation_coef := dilatation_coef a;
     ref_concentration := ref_concentration a;
     latent_heat := latent_heat a; forcing_coef := forcing_coef a;
     t_melt := t_melt a; t_eutec := t_eutec a;
     t_eutec_inf := t_eutec_inf a; t_eutec_sup := t_eutec_sup a;
     c_eutec := c_eutec a; c_eutec_a := c_eutec_a a;
     kp := kp a; inv_kp := inv_kp a; ml := ml a; inv_ml := inv_ml a;
     solute_val := solute_val a; solute_val_pre := solute_val_pre a;
     solute_face_values := solute_face_values a;
     c_l_val := c_l_val a;
     c_l_val_pre := c_l_val a;
     c_l_faces := c_l_faces a; temp_faces := temp_faces a;
     diff_coef := diff_coef a |}.
End Alloy.

(** What [model_context] points to. *)
Inductive model_context_t : Type :=
| NoContext
| VollerContext (v_model : Voller.cs_solidification_voller_t)
| AlloyContext (alloy : Alloy.cs_solidification_binary_alloy_t).

(** The fields of [struct _solidification_t] the two updaters read or
    write, named as in the exact embedding. *)
Record cs_solidification_t : Type := {
  mass_density : cs_real_t;
  g_l_val : list cs_real_t;
  g_l_val_pre : list cs_real_t;
  cell_state : list cs_solidification_state_t;
  n_g_cells : list Z;
  temperature : list cs_real_t;
  thermal_reaction_coef_array : list cs_real_t;
  thermal_source_term_array : list cs_real_t;
  model_context : model_context_t;
  forcing_mom_array : list cs_real_t
}.

Definition set_g_l (c_id : nat) (x : cs_real_t) (s : cs_solidification_t) :=
  {| mass_density := mass_density s;
     g_l_val := <[c_id := x]> (g_l_val s); g_l_val_pre := g_l_val_pre s;
     cell_state := cell_state s;
     n_g_cells := n_g_cells s; temperature := temperature s;
     thermal_reaction_coef_array := thermal_reaction_coef_array s;
     thermal_source_term_array := thermal_source_term_array s;
     model_context := model_context s;
     forcing_mom_array := forcing_mom_array s |}.

(** [cs_field_current_to_previous(solid->g_l_field)]. *)
Definition g_l_current_to_previous (s : cs_solidification_t) :=
  {| mass_density := mass_density s;
     g_l_val := g_l_val s; g_l_val_pre := g_l_val s;
     cell_state := cell_state s;
     n_g_cells := n_g_cells s; temperature := temperature s;
     thermal_reaction_coef_array := thermal_reaction_coef_array s;
     thermal_source_term_array := thermal_source_term_array s;
     model_context := model_context s;
     forcing_mom_array := forcing_mom_array s |}.

Definition set_thermal_reaction_coef (c_id : nat) (x : cs_real_t)
           (s : cs_solidification_t) :=
  {| mass_density := mass_density s;
     g_l_val := g_l_val s; g_l_val_pre := g_l_val_pre s;
     cell_state := cell_state s;
     n_g_cells := n_g_cells s; temperature := temperature s;
     thermal_reaction_coef_array := <[c_id := x]> (thermal_reaction_coef_array s);
     thermal_source_term_array := thermal_source_term_array s;
     model_context := model_context s;
     forcing_mom_array := forcing_mom_array s |}.

Definition set_thermal_source_term (c_id : nat) (x : cs_real_t)
           (s : cs_solidification_t) :=
  {| mass_density := mass_density s;
     g_l_val := g_l_val s; g_l_val_pre := g_l_val_pre s;
     cell_state := cell_state s;
     n_g_cells := n_g_cells s; temperature := temperature s;
     thermal_reaction_coef_array := thermal_reaction_coef_array s;
     thermal_source_term_array := <[c_id := x]> (thermal_source_term_array s);
     model_context := model_context s;
     forcing_mom_array := forcing_mom_array s |}.

Definition set_forcing_mom (c_id : nat) (x : cs_real_t)
           (s : cs_solidification_t) :=
  {| mass_density := mass_density s;
     g_l_val := g_l_val s; g_l_val_pre := g_l_val_pre s;
     cell_state := cell_state s;
     n_g_cells := n_g_cells s; temperature := temperature s;
     thermal_reaction_coef_array := thermal_reaction_coef_array s;
     thermal_source_term_array := thermal_source_term_array s;
     model_context := model_context s;
     forcing_mom_array := <[c_id := x]> (forcing_mom_array s) |}.

Definition set_cell_state (c_id : nat) (x : cs_solidification_state_t)
           (s : cs_solidification_t) :=
  {| mass_density := mass_density s;
     g_l_val := g_l_val s; g_l_val_pre := g_l_val_pre s;
     cell_state := <[c_id := x]> (cell_state s);
     n_g_cells := n_g_cells s; temperature := temperature s;
     thermal_reaction_coef_array := thermal_reaction_coef_array s;
     thermal_source_term_array := thermal_source_term_array s;
     model_context := model_context s;
     forcing_mom_array := forcing_mom_array s |}.

Definition set_n_g_cells (n : list Z) (s : cs_solidification_t) :=
  {| mass_density := mass_density s;
     g_l_val := g_l_val s; g_l_val_pre := g_l_val_pre s;
     cell_state := cell_state s;
     n_g_cells := n; temperature := temperature s;
     thermal_reaction_coef_array := thermal_reaction_coef_array s;
     thermal_source_term_array := thermal_source_term_array s;
     model_context := model_context s;
     forcing_mom_array := forcing_mom_array s |}.

Definition set_model_context (m : model_context_t) (s : cs_solidification_t) :=
  {| mass_density := mass_density s;
     g_l_val := g_l_val s; g_l_val_pre := g_l_val_pre s;
     cell_state := cell_state s;
     n_g_cells := n_g_cells s; temperature := temperature s;
     thermal_reaction_coef_array := thermal_reaction_coef_array s;
     thermal_source_term_array := thermal_source_term_array s;
     model_context := m;
     forcing_mom_array := forcing_mom_array s |}.

(** The mesh quantities and the time step the updaters read. *)
Record cs_cdo_quantities_t : Type := {
  n_cells : nat;
  n_faces : nat;
  cell_vol : list cs_real_t
}.

Record cs_time_step_t : Type := {
  dt : cs_real_t        (* dt[0] *)
}.

(** The static variables of the file. *)
Record statics_t : Type := {
  cs_solidification_forcing_eps : cs_real_t;
  cs_solidification_eutectic_threshold : cs_real_t
}.

(** Their initial values, [1e-3] and [1e-4]. *)
Definition default_statics : statics_t :=
  {| cs_solidification_forcing_eps := decimal 1 3;
     cs_solidification_eutectic_threshold := decimal 1 4 |}.

(** *** Voller and Prakash updater *)

(** Body of the loop on cells of [_update_liquid_fraction_voller]. *)
Definition voller_cell (st : statics_t)
           (v_model : Voller.cs_solidification_voller_t)
           (quant : cs_cdo_quantities_t)
           (dgldT inv_forcing_eps dgldT_coef : cs_real_t)
           (c_id : nat) (solid : cs_solidification_t) : cs_solidification_t :=
  let temp := temperature solid in
  if rd temp c_id <? Voller.t_solidus v_model then
    let solid := set_g_l c_id zero solid in
    let solid := set_thermal_reaction_coef c_id zero solid in
    let solid := set_thermal_source_term c_id zero solid in
    let solid := set_cell_state c_id SOLID solid in
    let solid := set_n_g_cells (incr SOLID (n_g_cells solid)) solid in
    set_forcing_mom c_id (Voller.forcing_coef v_model * inv_forcing_eps) solid
  else if Voller.t_liquidus v_model <? rd temp c_id then
    let solid := set_g_l c_id one solid in
    let solid := set_thermal_reaction_coef c_id zero solid in
    let solid := set_thermal_source_term c_id zero solid in
    let solid := set_n_g_cells (incr LIQUID (n_g_cells solid)) solid in
    let solid := set_cell_state c_id LIQUID solid in
    set_forcing_mom c_id zero solid
  else
    let glc := (rd temp c_id - Voller.t_solidus v_model) * dgldT in
    let solid := set_g_l c_id glc solid in
    let solid := set_thermal_reaction_coef c_id dgldT_coef solid in
    let solid :=
      set_thermal_source_term c_id
        (dgldT_coef * rd temp c_id * rd (cell_vol quant) c_id) solid in
    let solid := set_cell_state c_id MUSHY solid in
    let solid := set_n_g_cells (incr MUSHY (n_g_cells solid)) solid in
    let glm1 := one - glc in
    set_forcing_mom c_id
      (Voller.forcing_coef v_model * glm1 * glm1
       / (glc * glc * glc + cs_solidification_forcing_eps st)) solid.

(** [_enforce_solid_cells]: the list of the cells tagged SOLID, which the
    function hands to the momentum equation for the enforcement of a zero
    velocity; its assertion compares the length of the list, cast to
    [cs_gnum_t], with the SOLID counter. *)
Definition _enforce_solid_cells (b : build_t) (quant : cs_cdo_quantities_t)
           (solid : cs_solidification_t) : outcome (list nat) :=
  let solid_cells :=
    filter (fun c_id => rds (cell_state solid) c_id = SOLID)
      (seq 0 (n_cells quant)) in
  let ii := length solid_cells in
  _ ← c_assert (ndebug b)
        (wrap64 (Z.of_nat ii) =? rdz (n_g_cells solid) (state_id SOLID))%Z;
  Done solid_cells.

(** [if (solid->n_g_cells[CS_SOLIDIFICATION_STATE_SOLID] > 0)
    _enforce_solid_cells(connect, quant)]. *)
Definition enforce_if_solid (b : build_t) (quant : cs_cdo_quantities_t)
           (solid : cs_solidification_t) : outcome (list nat) :=
  if (0 <? rdz (n_g_cells solid) (state_id SOLID))%Z
  then _enforce_solid_cells b quant solid
  else Done [].

(** [_update_liquid_fraction_voller] up to the end of its loop on cells. *)
Definition voller_local (st : statics_t)
           (quant : cs_cdo_quantities_t) (ts : cs_time_step_t)
           (cur2prev : bool) (solid : cs_solidification_t)
  : outcome cs_solidification_t :=
  match model_context solid with
  | VollerContext v_model =>
      let solid := if cur2prev then g_l_current_to_previous solid else solid in
      let dgldT := one / (Voller.t_liquidus v_model - Voller.t_solidus v_model) in
      let inv_forcing_eps := one / cs_solidification_forcing_eps st in
      let solid := set_n_g_cells (zeros4 0%Z) solid in
      let cell_rho := mass_density solid in
      let dgldT_coef := cell_rho * Voller.latent_heat v_model * dgldT / dt ts in
      Done (iter_loop (n_cells quant)
              (voller_cell st v_model quant dgldT inv_forcing_eps dgldT_coef)
              solid)
  | _ => Undefined
  end.

(** The whole of [_update_liquid_fraction_voller]; [peers] holds the counters
    of the other ranks at the reduction. *)
Definition _update_liquid_fraction_voller (b : build_t) (st : statics_t)
           (peers : list (list Z))
           (quant : cs_cdo_quantities_t) (ts : cs_time_step_t)
           (cur2prev : bool) (solid : cs_solidification_t)
  : outcome cs_solidification_t :=
  solid ← voller_local st quant ts cur2prev solid;
  _ ← enforce_if_solid b quant solid;
  Done (set_n_g_cells (cs_parall_sum_gnum peers (n_g_cells solid)) solid).

(** *** Binary-alloy phase diagram *)

(** [_get_alloy_state]: the three outputs are returned as
    [(t_liquidus, t_solidus, state)]. *)
Definition _get_alloy_state (alloy : Alloy.cs_solidification_binary_alloy_t)
           (temp conc : cs_real_t)
  : cs_real_t * cs_real_t * cs_solidification_state_t :=
  let t_liquidus := Alloy.t_melt alloy + Alloy.ml alloy * conc in
  let t_solidus :=
    if conc <? Alloy.c_eutec_a alloy
    then Alloy.t_melt alloy + Alloy.ml alloy * conc * Alloy.inv_kp alloy
    else Alloy.t_eutec alloy in
  let state := CS_SOLIDIFICATION_N_STATES in
  let state :=
    if conc <? Alloy.c_eutec_a alloy then
      if t_liquidus <? temp then LIQUID
      else if t_solidus <? temp then MUSHY
      else SOLID
    else if conc <=? Alloy.c_eutec alloy then
      if t_liquidus <? temp then LIQUID
      else if Alloy.t_eutec_sup alloy <? temp then MUSHY
      else if Alloy.t_eutec_inf alloy <? temp then EUTECTIC
      else SOLID
    else SOLID in
  (t_liquidus, t_solidus, state).

(** *** Binary-alloy updater *)

(** Body of the loop on cells of [_update_liquid_fraction_binary_alloy]; the
    structure and the alloy block it points to are threaded as a pair. *)
Definition alloy_cell (st : statics_t) (quant : cs_cdo_quantities_t)
           (rhoLovdt inv_kpm1 eut_slope inv_forcing_eps : cs_real_t)
           (c_id : nat)
           (sa : cs_solidification_t * Alloy.cs_solidification_binary_alloy_t)
  : outcome (cs_solidification_t * Alloy.cs_solidification_binary_alloy_t) :=
  let '(solid, alloy) := sa in
  let conc := rd (Alloy.solute_val alloy) c_id in
  let temp := rd (temperature solid) c_id in
  let '(t_liquidus, t_solidus, state) := _get_alloy_state alloy temp conc in
  match state with
  | CS_SOLIDIFICATION_STATE_SOLID =>
      let alloy :=
        if zero <? rd (g_l_val solid) c_id then
          if Alloy.c_eutec_a alloy <=? conc
          then Alloy.set_c_l c_id (Alloy.c_eutec alloy) alloy
          else Alloy.set_c_l c_id (conc * Alloy.inv_kp alloy) alloy
        else alloy in
      let solid := set_g_l c_id zero solid in
      let solid := set_thermal_reaction_coef c_id zero solid in
      let solid := set_thermal_source_term c_id zero solid in
      let solid :=
        set_forcing_mom c_id (Alloy.forcing_coef alloy * inv_forcing_eps) solid in
      let solid := set_cell_state c_id SOLID solid in
      let solid := set_n_g_cells (incr SOLID (n_g_cells solid)) solid in
      Done (solid, alloy)
  | CS_SOLIDIFICATION_STATE_MUSHY =>
      let conc_prev := rd (Alloy.solute_val_pre alloy) c_id in
      let dTm := temp - Alloy.t_melt alloy in
      let glc := one + inv_kpm1 * (temp - t_liquidus) / dTm in
      let solid := set_g_l c_id glc solid in
      let alloy := Alloy.set_c_l c_id (dTm * Alloy.inv_ml alloy) alloy in
      let dgldT := inv_kpm1 * (t_liquidus - Alloy.t_melt alloy) / (dTm * dTm) in
      let dgldC := inv_kpm1 * Alloy.ml alloy / dTm in
      let solid := set_thermal_reaction_coef c_id (dgldT * rhoLovdt) solid in
      let solid :=
        set_thermal_source_term c_id
          (rd (cell_vol quant) c_id
           * (dgldT * temp + dgldC * (conc_prev - conc)) * rhoLovdt) solid in
      let solid :=
        set_forcing_mom c_id
          (Alloy.forcing_coef alloy * (one - glc) * (one - glc)
           / (glc * glc * glc + cs_solidification_forcing_eps st)) solid in
      let solid := set_n_g_cells (incr MUSHY (n_g_cells solid)) solid in
      let solid := set_cell_state c_id MUSHY solid in
      Done (solid, alloy)
  | CS_SOLIDIFICATION_STATE_LIQUID =>
      let solid := set_g_l c_id one solid in
      let alloy := Alloy.set_c_l c_id conc alloy in
      let solid := set_thermal_reaction_coef c_id zero solid in
      let solid := set_thermal_source_term c_id zero solid in
      let solid := set_forcing_mom c_id zero solid in
      let solid := set_n_g_cells (incr LIQUID (n_g_cells solid)) solid in
      let solid := set_cell_state c_id LIQUID solid in
      Done (solid, alloy)
  | CS_SOLIDIFICATION_STATE_EUTECTIC =>
      let glc := (conc - Alloy.c_eutec_a alloy) * eut_slope in
      let conc_prev := rd (Alloy.solute_val_pre alloy) c_id in
      let solid := set_g_l c_id glc solid in
      let alloy := Alloy.set_c_l c_id (Alloy.c_eutec alloy) alloy in
      let solid := set_thermal_reaction_coef c_id zero solid in
      let solid :=
        set_thermal_source_term c_id
          (rd (cell_vol quant) c_id * rhoLovdt * eut_slope * (conc - conc_prev))
          solid in
      let solid :=
        set_forcing_mom c_id
          (Alloy.forcing_coef alloy * (one - glc) * (one - glc)
           / (glc * glc * glc + cs_solidification_forcing_eps st)) solid in
      let solid := set_n_g_cells (incr MUSHY (n_g_cells solid)) solid in
      let solid := set_cell_state c_id MUSHY solid in
      Done (solid, alloy)
  | CS_SOLIDIFICATION_N_STATES =>
      Fatal "_update_liquid_fraction_binary_alloy: Invalid state for cell"
  end.

(** Body of the loop on faces. *)
Definition alloy_face (f_id : nat)
           (alloy : Alloy.cs_solidification_binary_alloy_t)
  : outcome Alloy.cs_solidification_binary_alloy_t :=
  let conc := rd (Alloy.solute_face_values alloy) f_id in
  let temp := rd (Alloy.temp_faces alloy) f_id in
  let '(t_liquidus, t_solidus, state) := _get_alloy_state alloy temp conc in
  match state with
  | CS_SOLIDIFICATION_STATE_SOLID =>
      if Alloy.c_eutec_a alloy <=? conc
      then Done (Alloy.set_c_l_faces f_id (Alloy.c_eutec alloy) alloy)
      else Done (Alloy.set_c_l_faces f_id (conc * Alloy.inv_kp alloy) alloy)
  | CS_SOLIDIFICATION_STATE_MUSHY =>
      Done (Alloy.set_c_l_faces f_id
              ((temp - Alloy.t_melt alloy) * Alloy.inv_ml alloy) alloy)
  | CS_SOLIDIFICATION_STATE_LIQUID =>
      Done (Alloy.set_c_l_faces f_id conc alloy)
  | CS_SOLIDIFICATION_STATE_EUTECTIC =>
      Done (Alloy.set_c_l_faces f_id (Alloy.c_eutec alloy) alloy)
  | CS_SOLIDIFICATION_N_STATES =>
      Fatal "_update_liquid_fraction_binary_alloy: Invalid state for face"
  end.

(** [_update_liquid_fraction_binary_alloy] up to the end of its loop on
    cells. *)
Definition alloy_local (b : build_t) (st : statics_t)
           (quant : cs_cdo_quantities_t) (ts : cs_time_step_t)
           (cur2prev : bool) (solid : cs_solidification_t)
  : outcome (cs_solidification_t * Alloy.cs_solidification_binary_alloy_t) :=
  match model_context solid with
  | AlloyContext alloy =>
      let solid := if cur2prev then g_l_current_to_previous solid else solid in
      let alloy := if cur2prev then Alloy.c_l_current_to_previous alloy
                   else alloy in
      let solid := set_n_g_cells (zeros4 0%Z) solid in
      _ ← c_assert (ndebug b) (zero <? Alloy.kp alloy);
      let cell_rho := mass_density solid in
      let rhoLovdt := cell_rho * Alloy.latent_heat alloy / dt ts in
      let inv_kpm1 := one / (Alloy.kp alloy - one) in
      let eut_slope := one / (Alloy.c_eutec alloy - Alloy.c_eutec_a alloy) in
      let inv_forcing_eps := one / cs_solidification_forcing_eps st in
      for_loop (n_cells quant)
        (alloy_cell st quant rhoLovdt inv_kpm1 eut_slope inv_forcing_eps)
        (solid, alloy)
  | _ => Undefined
  end.

(** The whole of [_update_liquid_fraction_binary_alloy]. *)
Definition _update_liquid_fraction_binary_alloy (b : build_t) (st : statics_t)
           (peers : list (list Z))
           (quant : cs_cdo_quantities_t) (ts : cs_time_step_t)
           (cur2prev : bool) (solid : cs_solidification_t)
  : outcome cs_solidification_t :=
  '(solid, alloy) ← alloy_local b st quant ts cur2prev solid;
  _ ← enforce_if_solid b quant solid;
  let solid :=
    set_n_g_cells (cs_parall_sum_gnum peers (n_g_cells solid)) solid in
  alloy ← for_loop (n_faces quant) alloy_face alloy;
  Done (set_model_context (AlloyContext alloy) solid).

(** *** Model parameters *)

(** [cs_solidification_set_forcing_eps]. *)
Definition cs_solidification_set_forcing_eps (b : build_t) (st : statics_t)
           (forcing_eps : cs_real_t) : outcome statics_t :=
  _ ← c_assert (ndebug b) (zero <? forcing_eps);
  Done {| cs_solidification_forcing_eps := forcing_eps;
          cs_solidification_eutectic_threshold :=
            cs_solidification_eutectic_threshold st |}.

(** The parameters [cs_solidification_set_voller_model] stores. *)
Definition voller_block (t_solidus t_liquidus latent_heat forcing_coef
                         : cs_real_t) : Voller.cs_solidification_voller_t :=
  {| Voller.t_solidus := t_solidus;
     Voller.t_liquidus := t_liquidus;
     Voller.latent_heat := latent_heat;
     Voller.forcing_coef := forcing_coef |}.

(** The parameters [cs_solidification_set_binary_alloy_model] stores and
    derives; the solute equation it adds has no values yet. *)
Definition binary_alloy_block (st : statics_t)
           (conc0 beta kp mliq t_eutec t_melt solute_diff
            latent_heat forcing_coef : cs_real_t)
  : Alloy.cs_solidification_binary_alloy_t :=
  let inv_kp := one / kp in
  let inv_ml := one / mliq in
  let c_eutec := (t_eutec - t_melt) * inv_ml in
  let c_eutec_a := c_eutec * kp in
  {| Alloy.dilatation_coef := beta;
     Alloy.ref_concentration := conc0;
     Alloy.latent_heat := latent_heat;
     Alloy.forcing_coef := forcing_coef;
     Alloy.t_melt := t_melt;
     Alloy.t_eutec := t_eutec;
     Alloy.t_eutec_inf := t_eutec - cs_solidification_eutectic_threshold st;
     Alloy.t_eutec_sup := t_eutec + cs_solidification_eutectic_threshold st;
     Alloy.c_eutec := c_eutec;
     Alloy.c_eutec_a := c_eutec_a;
     Alloy.kp := kp;
     Alloy.inv_kp := inv_kp;
     Alloy.ml := mliq;
     Alloy.inv_ml := inv_ml;
     Alloy.solute_val := [];
     Alloy.solute_val_pre := [];
     Alloy.solute_face_values := [];
     Alloy.c_l_val := [];
     Alloy.c_l_val_pre := [];
     Alloy.c_l_faces := [];
     Alloy.temp_faces := [];
     Alloy.diff_coef := solute_diff |}.

(** The block with the arrays of the solute replaced, as the equation and
    field systems fill them. *)
Definition with_solute (val val_pre c_l : list cs_real_t)
           (a : Alloy.cs_solidification_binary_alloy_t) :=
  {| Alloy.dilatation_coef := Alloy.dilatation_coef a;
     Alloy.ref_concentration := Alloy.ref_concentration a;
     Alloy.latent_heat := Alloy.latent_heat a;
     Alloy.forcing_coef := Alloy.forcing_coef a;
     Alloy.t_melt := Alloy.t_melt a; Alloy.t_eutec := Alloy.t_eutec a;
     Alloy.t_eutec_inf := Alloy.t_eutec_inf a;
     Alloy.t_eutec_sup := Alloy.t_eutec_sup a;
     Alloy.c_eutec := Alloy.c_eutec a; Alloy.c_eutec_a := Alloy.c_eutec_a a;
     Alloy.kp := Alloy.kp a; Alloy.inv_kp := Alloy.inv_kp a;
     Alloy.ml := Alloy.ml a; Alloy.inv_ml := Alloy.inv_ml a;
     Alloy.solute_val := val; Alloy.solute_val_pre := val_pre;
     Alloy.solute_face_values := Alloy.solute_face_values a;
     Alloy.c_l_val := c_l; Alloy.c_l_val_pre := c_l;
     Alloy.c_l_faces := Alloy.c_l_faces a;
     Alloy.temp_faces := Alloy.temp_faces a;
     Alloy.diff_coef := Alloy.diff_coef a |}.

(** Projections of the result of [_get_alloy_state]. *)
Definition liquidus_of (r : cs_real_t * cs_real_t * cs_solidification_state_t)
  : cs_real_t := fst (fst r).
Definition solidus_of (r : cs_real_t * cs_real_t * cs_solidification_state_t)
  : cs_real_t := snd (fst r).
Definition state_of (r : cs_real_t * cs_real_t * cs_solidification_state_t)
  : cs_solidification_state_t := snd r.

(** *** Definitions used by the statements *)

(** The entries of the five per-cell arrays at cell [c]: liquid fraction,
    thermal reaction coefficient, thermal source term, state, momentum
    forcing coefficient. *)
Definition cell_view (c : nat) (s : cs_solidification_t)
  : cs_real_t * cs_real_t * cs_real_t * cs_solidification_state_t * cs_real_t :=
  (rd (g_l_val s) c, rd (thermal_reaction_coef_array s) c,
   rd (thermal_source_term_array s) c, rds (cell_state s) c,
   rd (forcing_mom_array s) c).

(** The number of cells is a [cs_lnum_t], a 32-bit [int], and the arrays
    have one entry per cell. *)
Record sized (quant : cs_cdo_quantities_t) (s : cs_solidification_t) : Prop := {
  sz_lnum : (Z.of_nat (n_cells quant) < 2 ^ 31)%Z;
  sz_g_l : length (g_l_val s) = n_cells quant;
  sz_reac : length (thermal_reaction_coef_array s) = n_cells quant;
  sz_src : length (thermal_source_term_array s) = n_cells quant;
  sz_state : length (cell_state s) = n_cells quant;
  sz_forcing : length (forcing_mom_array s) = n_cells quant;
  sz_temp : length (temperature s) = n_cells quant;
  sz_vol : length (cell_vol quant) = n_cells quant
}.

(** The fields an update pass leaves alone. *)
Definition same_inputs (s0 s : cs_solidification_t) : Prop :=
  temperature s = temperature s0 /\ mass_density s = mass_density s0.

(** The constants [_update_liquid_fraction_voller] computes before its loop. *)
Definition voller_dgldT (v_model : Voller.cs_solidification_voller_t)
  : cs_real_t :=
  one / (Voller.t_liquidus v_model - Voller.t_solidus v_model).

Definition voller_dgldT_coef (v_model : Voller.cs_solidification_voller_t)
           (ts : cs_time_step_t) (cell_rho : cs_real_t) : cs_real_t :=
  cell_rho * Voller.latent_heat v_model * voller_dgldT v_model / dt ts.

(** The values the Voller loop body stores for a cell of temperature [T] and
    volume [vol], by branch. *)
Definition voller_values (st : statics_t)
           (v_model : Voller.cs_solidification_voller_t)
           (dgldT inv_forcing_eps dgldT_coef T vol : cs_real_t)
  : cs_real_t * cs_real_t * cs_real_t * cs_solidification_state_t * cs_real_t :=
  if ltb T (Voller.t_solidus v_model) then
    (zero, zero, zero, SOLID, Voller.forcing_coef v_model * inv_forcing_eps)
  else if ltb (Voller.t_liquidus v_model) T then
    (one, zero, zero, LIQUID, zero)
  else
    let glc := (T - Voller.t_solidus v_model) * dgldT in
    (glc, dgldT_coef, dgldT_coef * T * vol, MUSHY,
     Voller.forcing_coef v_model * (one - glc) * (one - glc)
     / (glc * glc * glc + cs_solidification_forcing_eps st)).

(** The values the Voller pass leaves in cell [c]. *)
Definition voller_cell_values (st : statics_t) (quant : cs_cdo_quantities_t)
           (ts : cs_time_step_t) (solid : cs_solidification_t)
           (v_model : Voller.cs_solidification_voller_t) (c : nat) :=
  voller_values st v_model (voller_dgldT v_model)
    (one / cs_solidification_forcing_eps st)
    (voller_dgldT_coef v_model ts (mass_density solid))
    (rd (temperature solid) c) (rd (cell_vol quant) c).

(** The porous-medium expression of the mushy and eutectic branches. *)
Definition darcy (st : statics_t) (fc glc : cs_real_t) : cs_real_t :=
  fc * (one - glc) * (one - glc)
  / (glc * glc * glc + cs_solidification_forcing_eps st).

(** The momentum-forcing coefficient stored by either loop body, by the
    branch taken ([state] is the state the branch belongs to) and the liquid
    fraction [glc] stored with it. *)
Definition forcing_written (st : statics_t) (forcing_coef : cs_real_t)
           (state : cs_solidification_state_t) (glc : cs_real_t) : cs_real_t :=
  match state with
  | CS_SOLIDIFICATION_STATE_SOLID =>
      forcing_coef * (one / cs_solidification_forcing_eps st)
  | CS_SOLIDIFICATION_STATE_LIQUID => zero
  | CS_SOLIDIFICATION_STATE_MUSHY | CS_SOLIDIFICATION_STATE_EUTECTIC =>
      darcy st forcing_coef glc
  | CS_SOLIDIFICATION_N_STATES => zero
  end.

(** The values the alloy loop body stores in the five per-cell arrays, by
    the state the evaluator returns. *)
Definition alloy_values (st : statics_t)
           (alloy : Alloy.cs_solidification_binary_alloy_t)
           (rhoLovdt inv_kpm1 eut_slope inv_forcing_eps : cs_real_t)
           (temp conc conc_prev vol : cs_real_t)
  : cs_real_t * cs_real_t * cs_real_t * cs_solidification_state_t * cs_real_t :=
  let '(t_liquidus, t_solidus, state) := _get_alloy_state alloy temp conc in
  match state with
  | CS_SOLIDIFICATION_STATE_SOLID =>
      (zero, zero, zero, SOLID, Alloy.forcing_coef alloy * inv_forcing_eps)
  | CS_SOLIDIFICATION_STATE_MUSHY =>
      let dTm := temp - Alloy.t_melt alloy in
      let glc := one + inv_kpm1 * (temp - t_liquidus) / dTm in
      let dgldT := inv_kpm1 * (t_liquidus - Alloy.t_melt alloy) / (dTm * dTm) in
      let dgldC := inv_kpm1 * Alloy.ml alloy / dTm in
      (glc, dgldT * rhoLovdt,
       vol * (dgldT * temp + dgldC * (conc_prev - conc)) * rhoLovdt,
       MUSHY,
       Alloy.forcing_coef alloy * (one - glc) * (one - glc)
       / (glc * glc * glc + cs_solidification_forcing_eps st))
  | CS_SOLIDIFICATION_STATE_LIQUID => (one, zero, zero, LIQUID, zero)
  | CS_SOLIDIFICATION_STATE_EUTECTIC =>
      let glc := (conc - Alloy.c_eutec_a alloy) * eut_slope in
      (glc, zero, vol * rhoLovdt * eut_slope * (conc - conc_prev), MUSHY,
       Alloy.forcing_coef alloy * (one - glc) * (one - glc)
       / (glc * glc * glc + cs_solidification_forcing_eps st))
  | CS_SOLIDIFICATION_N_STATES =>
      (zero, zero, zero, CS_SOLIDIFICATION_N_STATES, zero)
  end.

(** The liquid concentration the body leaves in the cell; [g_old] and
    [cl_old] are the liquid fraction and liquid concentration found there. *)
Definition alloy_c_l_value (alloy : Alloy.cs_solidification_binary_alloy_t)
           (temp conc g_old cl_old : cs_real_t) : cs_real_t :=
  match state_of (_get_alloy_state alloy temp conc) with
  | CS_SOLIDIFICATION_STATE_SOLID =>
      if ltb zero g_old then
        if leb (Alloy.c_eutec_a alloy) conc then Alloy.c_eutec alloy
        else conc * Alloy.inv_kp alloy
      else cl_old
  | CS_SOLIDIFICATION_STATE_MUSHY =>
      (temp - Alloy.t_melt alloy) * Alloy.inv_ml alloy
  | CS_SOLIDIFICATION_STATE_LIQUID => conc
  | CS_SOLIDIFICATION_STATE_EUTECTIC => Alloy.c_eutec alloy
  | CS_SOLIDIFICATION_N_STATES => cl_old
  end.

(** The constants [_update_liquid_fraction_binary_alloy] computes before
    its loop on cells. *)
Definition alloy_rhoLovdt (alloy : Alloy.cs_solidification_binary_alloy_t)
           (ts : cs_time_step_t) (cell_rho : cs_real_t) : cs_real_t :=
  cell_rho * Alloy.latent_heat alloy / dt ts.

Definition alloy_inv_kpm1 (alloy : Alloy.cs_solidification_binary_alloy_t)
  : cs_real_t := one / (Alloy.kp alloy - one).

Definition alloy_eut_slope (alloy : Alloy.cs_solidification_binary_alloy_t)
  : cs_real_t := one / (Alloy.c_eutec alloy - Alloy.c_eutec_a alloy).

(** The values the alloy pass leaves in cell [c]. *)
Definition alloy_cell_values (st : statics_t) (quant : cs_cdo_quantities_t)
           (ts : cs_time_step_t) (solid : cs_solidification_t)
           (alloy : Alloy.cs_solidification_binary_alloy_t) (c : nat) :=
  alloy_values st alloy
    (alloy_rhoLovdt alloy ts (mass_density solid))
    (alloy_inv_kpm1 alloy) (alloy_eut_slope alloy)
    (one / cs_solidification_forcing_eps st)
    (rd (temperature solid) c) (rd (Alloy.solute_val alloy) c)
    (rd (Alloy.solute_val_pre alloy) c) (rd (cell_vol quant) c).

(** The state the evaluator gives cell [c]. *)
Definition alloy_cell_state (solid : cs_solidification_t)
           (alloy : Alloy.cs_solidification_binary_alloy_t) (c : nat)
  : cs_solidification_state_t :=
  state_of (_get_alloy_state alloy (rd (temperature solid) c)
              (rd (Alloy.solute_val alloy) c)).

(** The assertion on [kp] lets the pass through. *)
Definition kp_accepted (b : build_t)
           (alloy : Alloy.cs_solidification_binary_alloy_t) : Prop :=
  ndebug b = true \/ ltb zero (Alloy.kp alloy) = true.

(** The arrays reached through the alloy block have one entry per cell or
    per face. *)
Record alloy_sized (quant : cs_cdo_quantities_t)
       (alloy : Alloy.cs_solidification_binary_alloy_t) : Prop := {
  asz_c_l : length (Alloy.c_l_val alloy) = n_cells quant;
  asz_solute : length (Alloy.solute_val alloy) = n_cells quant;
  asz_solute_pre : length (Alloy.solute_val_pre alloy) = n_cells quant;
  asz_solute_faces : length (Alloy.solute_face_values alloy) = n_faces quant;
  asz_temp_faces : length (Alloy.temp_faces alloy) = n_faces quant;
  asz_c_l_faces : length (Alloy.c_l_faces alloy) = n_faces quant
}.

(** A rank set up for the alloy pass. *)
Definition alloy_ready (b : build_t) (quant : cs_cdo_quantities_t)
           (solid : cs_solidification_t)
           (alloy : Alloy.cs_solidification_binary_alloy_t) : Prop :=
  model_context solid = AlloyContext alloy
  /\ sized quant solid
  /\ alloy_sized quant alloy
  /\ kp_accepted b alloy.


(** C's [x == 0]. *)
Definition is_zero (x : cs_real_t) : bool :=
  match x with
  | S754_zero _ => true
  | _ => false
  end.

(** A three-cell rank for the Voller model with solidus 1700 and liquidus
    1730: one cell under the solidus, one half-way, one above the
    liquidus. *)
Definition voller_1700_1730 : Voller.cs_solidification_voller_t :=
  voller_block (of_int 1700) (of_int 1730) (of_int 5) (of_int 7).

Definition quant3 : cs_cdo_quantities_t :=
  {| n_cells := 3; n_faces := 0; cell_vol := [one; one; of_int 2] |}.

Definition step_tenth : cs_time_step_t := {| dt := decimal 1 1 |}.

Definition solid3 (m : model_context_t) (temp : list cs_real_t)
  : cs_solidification_t :=
  {| mass_density := of_int 2;
     g_l_val := [one; one; one]; g_l_val_pre := [one; one; one];
     cell_state := [LIQUID; LIQUID; LIQUID];
     n_g_cells := zeros4 0%Z;
     temperature := temp;
     thermal_reaction_coef_array := [zero; zero; zero];
     thermal_source_term_array := [zero; zero; zero];
     model_context := m;
     forcing_mom_array := [zero; zero; zero] |}.

Definition solid3_voller : cs_solidification_t :=
  solid3 (VollerContext voller_1700_1730)
    [of_int 1600; of_int 1715; of_int 1800].

(** The same rank, the first cell exactly on the solidus. *)
Definition solid3_on_solidus : cs_solidification_t :=
  solid3 (VollerContext voller_1700_1730)
    [of_int 1700; of_int 1715; of_int 1800].




(** Sample alloys as the setter derives them, both with melting point 1000,
    eutectic temperature 900 and liquidus slope -100, so that [c_eutec] is
    1: a hypo-eutectic one with partition coefficient 0.5 and one with
    partition coefficient 2. *)
Definition alloy_half : Alloy.cs_solidification_binary_alloy_t :=
  binary_alloy_block default_statics zero zero (decimal 5 1) (of_int (-100))
    (of_int 900) (of_int 1000) zero one one.



(** The block with its arrays per face replaced. *)
Definition with_face_arrays (conc_f temp_f c_l_f : list cs_real_t)
           (a : Alloy.cs_solidification_binary_alloy_t) :=
  {| Alloy.dilatation_coef := Alloy.dilatation_coef a;
     Alloy.ref_concentration := Alloy.ref_concentration a;
     Alloy.latent_heat := Alloy.latent_heat a;
     Alloy.forcing_coef := Alloy.forcing_coef a;
     Alloy.t_melt := Alloy.t_melt a; Alloy.t_eutec := Alloy.t_eutec a;
     Alloy.t_eutec_inf := Alloy.t_eutec_inf a;
     Alloy.t_eutec_sup := Alloy.t_eutec_sup a;
     Alloy.c_eutec := Alloy.c_eutec a; Alloy.c_eutec_a := Alloy.c_eutec_a a;
     Alloy.kp := Alloy.kp a; Alloy.inv_kp := Alloy.inv_kp a;
     Alloy.ml := Alloy.ml a; Alloy.inv_ml := Alloy.inv_ml a;
     Alloy.solute_val := Alloy.solute_val a;
     Alloy.solute_val_pre := Alloy.solute_val_pre a;
     Alloy.solute_face_values := conc_f;
     Alloy.c_l_val := Alloy.c_l_val a;
     Alloy.c_l_val_pre := Alloy.c_l_val_pre a;
     Alloy.c_l_faces := c_l_f;
     Alloy.temp_faces := temp_f;
     Alloy.diff_coef := Alloy.diff_coef a |}.

(** A build without NDEBUG, the two model bits at 16 and 32. *)
Definition debug_build : build_t :=
  {| ndebug := false;
     CS_SOLIDIFICATION_MODEL_VOLLER_PRAKASH_87 := 16;
     CS_SOLIDIFICATION_MODEL_BINARY_ALLOY := 32 |}.







(** A three-cell rank for an alloy block. *)
Definition solid3_alloy (a : Alloy.cs_solidification_binary_alloy_t)
           (temp conc conc_pre : list cs_real_t) : cs_solidification_t :=
  solid3 (AlloyContext (with_solute conc conc_pre [zero; zero; zero] a)) temp.

(** The partition coefficient [6004799503160662 * 2^-54], the double next
    above one third, for which the setter derives [c_eutec_a = 0.1] from
    [c_eutec = 0.3]; the alloy has melting point 1000, eutectic temperature
    970 and liquidus slope -100. *)
Definition kp_third : cs_real_t :=
  of_int 6004799503160662 / of_int (2 ^ 54).

Definition alloy_third : Alloy.cs_solidification_binary_alloy_t :=
  binary_alloy_block default_statics zero zero kp_third (of_int (-100))
    (of_int 970) (of_int 1000) zero one one.

(** Its three cells on the eutectic plateau, the first with concentration
    0.2 after 0.3. *)
Definition solid3_eutectic : cs_solidification_t :=
  solid3_alloy alloy_third
    [of_int 970; of_int 970; of_int 970]
    [decimal 2 1; decimal 15 2; decimal 25 2]
    [decimal 3 1; decimal 15 2; decimal 25 2].

(** An alloy with partition coefficient 0.25, so that [c_eutec = 1] and
    [c_eutec_a = 0.25], its first cell on the plateau with concentration
    0.325. *)
Definition alloy_quarter : Alloy.cs_solidification_binary_alloy_t :=
  binary_alloy_block default_statics zero zero (decimal 25 2) (of_int (-100))
    (of_int 900) (of_int 1000) zero one one.

Definition solid3_quarter : cs_solidification_t :=
  solid3_alloy alloy_quarter
    [of_int 900; of_int 950; of_int 1100]
    [decimal 325 3; decimal 5 1; decimal 5 1]
    [decimal 325 3; decimal 5 1; decimal 5 1].

(** An alloy with melting point 1024, eutectic temperature 896, liquidus
    slope -128 and partition coefficient 0.25, and three nearly pure cells:
    one at the melting point, one a last place under it, one at 900. *)
Definition alloy_1024 : Alloy.cs_solidification_binary_alloy_t :=
  binary_alloy_block default_statics zero zero (decimal 25 2) (of_int (-128))
    (of_int 896) (of_int 1024) zero one one.

Definition solid3_1024 : cs_solidification_t :=
  solid3_alloy alloy_1024
    [of_int 1024; of_int 1024 - one / of_int (2 ^ 43); of_int 900]
    [one / of_int (2 ^ 52); one / of_int (2 ^ 51); one / of_int (2 ^ 51)]
    [one / of_int (2 ^ 52); one / of_int (2 ^ 51); one / of_int (2 ^ 51)].


End B64.

(** * Properties *)

(** ** Comparisons *)

Lemma Qltb_true a b : Qltb a b = true <-> a < b.
Proof.
  unfold Qltb. rewrite negb_true_iff, <- not_true_iff_false, Qle_bool_iff.
  split; [apply Qnot_le_lt | apply Qlt_not_le].
Qed.

Lemma Qltb_false a b : Qltb a b = false <-> b <= a.
Proof.
  unfold Qltb. rewrite negb_false_iff. apply Qle_bool_iff.
Qed.

Lemma Qleb_true a b : Qleb a b = true <-> a <= b.
Proof. apply Qle_bool_iff. Qed.

Lemma Qleb_false a b : Qleb a b = false <-> b < a.
Proof.
  unfold Qleb. rewrite <- not_true_iff_false, Qle_bool_iff.
  split; [apply Qnot_le_lt | apply Qlt_not_le].
Qed.

(** Case analysis on the C comparisons in the goal, leaving the order facts
    as hypotheses. *)
Ltac cmp_cases :=
  repeat match goal with
    | |- context [Qltb ?a ?b] =>
        let E := fresh "E" in
        destruct (Qltb a b) eqn:E;
        [apply Qltb_true in E | apply Qltb_false in E]
    | |- context [Qleb ?a ?b] =>
        let E := fresh "E" in
        destruct (Qleb a b) eqn:E;
        [apply Qleb_true in E | apply Qleb_false in E]
    end.

(** ** Phase diagram *)

Section PhaseDiagram.

Variable alloy : Alloy.cs_solidification_binary_alloy_t.
Variables temp conc : cs_real_t.

Let t_liq := liquidus_of (_get_alloy_state alloy temp conc).
Let state := state_of (_get_alloy_state alloy temp conc).

Lemma get_alloy_state_liquidus :
  t_liq == Alloy.t_melt alloy + Alloy.ml alloy * conc.
Proof. reflexivity. Qed.

Lemma get_alloy_state_classified : state <> CS_SOLIDIFICATION_N_STATES.
Proof.
  unfold state, state_of, _get_alloy_state; simpl.
  cmp_cases; discriminate.
Qed.

End PhaseDiagram.

(** ** Loops *)

Lemma iter_loop_S {S : Type} (n : nat) (body : nat -> S -> S) (s : S) :
  iter_loop (Datatypes.S n) body s = body n (iter_loop n body s).
Proof.
  unfold iter_loop. rewrite seq_S, fold_left_app. reflexivity.
Qed.

(** Invariant rule for a loop whose body always returns. *)
Lemma iter_loop_rule {S : Type} (I : nat -> S -> Prop) (n : nat)
      (body : nat -> S -> S) (s0 : S) :
  I 0%nat s0 ->
  (forall i s, (i < n)%nat -> I i s -> I (Datatypes.S i) (body i s)) ->
  I n (iter_loop n body s0).
Proof.
  intros H0 Hstep. induction n as [|n IH].
  - exact H0.
  - rewrite iter_loop_S. apply Hstep; [lia |].
    apply IH. intros i s Hi. apply Hstep. lia.
Qed.

Lemma for_each_app {S : Type} (body : nat -> S -> outcome S)
      (l1 l2 : list nat) (s : S) :
  for_each body (l1 ++ l2) s
  = (s' ← for_each body l1 s; for_each body l2 s').
Proof.
  revert s. induction l1 as [|i l1 IH]; intros s; simpl.
  - reflexivity.
  - destruct (body i s) as [s1| | |]; simpl; [apply IH | reflexivity ..].
Qed.

Lemma for_loop_S {S : Type} (n : nat) (body : nat -> S -> outcome S) (s : S) :
  for_loop (Datatypes.S n) body s = (s' ← for_loop n body s; body n s').
Proof.
  unfold for_loop. rewrite seq_S, for_each_app. simpl.
  destruct (for_each body (seq 0 n) s) as [s1| | |]; simpl; [| reflexivity ..].
  destruct (body n s1); reflexivity.
Qed.

(** Invariant rule for a loop whose body may stop the run: if every step
    taken under the invariant returns and restores it, the loop returns. *)
Lemma for_loop_rule {S : Type} (I : nat -> S -> Prop) (n : nat)
      (body : nat -> S -> outcome S) (s0 : S) :
  I 0%nat s0 ->
  (forall i s, (i < n)%nat -> I i s ->
               exists s', body i s = Done s' /\ I (Datatypes.S i) s') ->
  exists s', for_loop n body s0 = Done s' /\ I n s'.
Proof.
  intros H0 Hstep. induction n as [|n IH].
  - exists s0. split; [reflexivity | exact H0].
  - destruct IH as (s1 & E1 & I1); [intros i s Hi; apply Hstep; lia |].
    destruct (Hstep n s1) as (s2 & E2 & I2); [lia | exact I1 |].
    exists s2. split; [| exact I2].
    rewrite for_loop_S, E1. exact E2.
Qed.

(** ** Arrays *)

Lemma rd_insert_eq (a : list cs_real_t) (i : nat) (x : cs_real_t) :
  (i < length a)%nat -> rd (<[i := x]> a) i = x.
Proof. intros H. unfold rd. rewrite list_lookup_insert_eq by exact H. reflexivity. Qed.

Lemma rd_insert_ne (a : list cs_real_t) (i j : nat) (x : cs_real_t) :
  i <> j -> rd (<[i := x]> a) j = rd a j.
Proof. intros H. unfold rd. rewrite list_lookup_insert_ne by exact H. reflexivity. Qed.

Lemma rds_insert_eq (a : list cs_solidification_state_t) (i : nat)
      (x : cs_solidification_state_t) :
  (i < length a)%nat -> rds (<[i := x]> a) i = x.
Proof. intros H. unfold rds. rewrite list_lookup_insert_eq by exact H. reflexivity. Qed.

Lemma rds_insert_ne (a : list cs_solidification_state_t) (i j : nat)
      (x : cs_solidification_state_t) :
  i <> j -> rds (<[i := x]> a) j = rds a j.
Proof. intros H. unfold rds. rewrite list_lookup_insert_ne by exact H. reflexivity. Qed.

(** ** Counters *)

Lemma counted_zeros : counted 0 (zeros4 0%Z).
Proof. repeat split; discriminate. Qed.

Lemma counted_incr (k : nat) (n : list Z) (s : cs_solidification_state_t) :
  (Z.of_nat k + 1 < 2 ^ 64)%Z ->
  s = SOLID \/ s = MUSHY \/ s = LIQUID ->
  counted k n -> counted (S k) (incr s n).
Proof.
  intros Hk Hs (Hlen & (H0 & H1 & H2) & H3 & Hsum).
  destruct n as [|a [|b [|c [|d [|e n]]]]]; try discriminate Hlen.
  unfold sum4, rdz in *; simpl in *.
  assert (Hw : forall x, (0 <= x <= Z.of_nat k)%Z -> wrap64 (x + 1) = (x + 1)%Z)
    by (intros x Hx; unfold wrap64; apply Z.mod_small; lia).
  destruct Hs as [-> | [-> | ->]]; unfold incr, counted, sum4, rdz; simpl;
    rewrite Hw by lia; repeat split; lia.
Qed.

Lemma no_eutectic_zeros : no_eutectic (zeros4 0%Z).
Proof. split; reflexivity. Qed.

Lemma no_eutectic_incr (n : list Z) (s : cs_solidification_state_t) :
  s = SOLID \/ s = MUSHY \/ s = LIQUID ->
  no_eutectic n -> no_eutectic (incr s n).
Proof.
  intros Hs (Hlen & H3).
  destruct n as [|a [|b [|c [|d [|e n]]]]]; try discriminate Hlen.
  destruct Hs as [-> | [-> | ->]]; split; try reflexivity; exact H3.
Qed.

(** ** Which counter a cell moves *)

Lemma tally_S (f : nat -> cs_solidification_state_t) (k : nat)
      (s : cs_solidification_state_t) :
  tally f (S k) s = (tally f k s + (if decide (f k = s) then 1 else 0))%Z.
Proof.
  unfold tally. rewrite seq_S, filter_app, length_app. simpl.
  rewrite filter_cons, filter_nil.
  destruct (decide (f k = s)); simpl; lia.
Qed.

Lemma tally_le (f : nat -> cs_solidification_state_t) (k : nat)
      (s : cs_solidification_state_t) :
  (0 <= tally f k s <= Z.of_nat k)%Z.
Proof.
  unfold tally. split; [lia |].
  apply inj_le. etransitivity; [apply length_filter |].
  rewrite length_seq. reflexivity.
Qed.

Lemma tallied_zeros (f : nat -> cs_solidification_state_t) :
  tallied f 0 (zeros4 0%Z).
Proof. split; [reflexivity |]. intros [] H; try reflexivity; contradiction. Qed.

Lemma tallied_incr (f : nat -> cs_solidification_state_t) (k : nat)
      (n : list Z) :
  (Z.of_nat k + 1 < 2 ^ 64)%Z ->
  f k <> CS_SOLIDIFICATION_N_STATES ->
  tallied f k n -> tallied f (S k) (incr (f k) n).
Proof.
  intros Hk Hf (Hlen & Ht).
  destruct n as [|n0 [|n1 [|n2 [|n3 [|e n]]]]]; try discriminate Hlen.
  assert (Hw : forall s, s <> CS_SOLIDIFICATION_N_STATES ->
                 wrap64 (tally f k s + 1) = (tally f k s + 1)%Z).
  { intros s _. unfold wrap64. apply Z.mod_small.
    pose proof (tally_le f k s). lia. }
  pose proof (Ht SOLID ltac:(discriminate)) as H0.
  pose proof (Ht MUSHY ltac:(discriminate)) as H1.
  pose proof (Ht LIQUID ltac:(discriminate)) as H2.
  pose proof (Ht EUTECTIC ltac:(discriminate)) as H3.
  unfold rdz in H0, H1, H2, H3; simpl in H0, H1, H2, H3. subst n0 n1 n2 n3.
  split; [destruct (f k); reflexivity |].
  intros s Hs. rewrite tally_S.
  destruct (f k) eqn:Efk; try contradiction;
    destruct s; try contradiction; unfold incr, rdz; simpl;
    rewrite ?Hw by discriminate;
    repeat match goal with
      | |- context [decide (?a = ?b)] =>
          destruct (decide (a = b)); try discriminate; try contradiction
      end; lia.
Qed.

Lemma tallied_incr_eq (f : nat -> cs_solidification_state_t) (k : nat)
      (n : list Z) (x : cs_solidification_state_t) :
  x = f k ->
  (Z.of_nat k + 1 < 2 ^ 64)%Z ->
  x <> CS_SOLIDIFICATION_N_STATES ->
  tallied f k n -> tallied f (S k) (incr x n).
Proof. intros ->. apply tallied_incr. Qed.

Lemma tally_ext (f g : nat -> cs_solidification_state_t) (k : nat)
      (s : cs_solidification_state_t) :
  (forall c, (c < k)%nat -> f c = g c) -> tally f k s = tally g k s.
Proof.
  intros H. induction k as [|k IH]; [reflexivity |].
  rewrite !tally_S, IH by (intros c Hc; apply H; lia).
  rewrite (H k) by lia. reflexivity.
Qed.

Lemma tallied_ext (f g : nat -> cs_solidification_state_t) (k : nat)
      (n : list Z) :
  (forall c, (c < k)%nat -> f c = g c) -> tallied f k n -> tallied g k n.
Proof.
  intros H (Hl & Ht). split; [exact Hl |].
  intros s Hs. rewrite (Ht s Hs). apply tally_ext. exact H.
Qed.

(** ** What an update pass leaves in one cell *)

Section VollerCell.

Variable st : statics_t.
Variable v_model : Voller.cs_solidification_voller_t.
Variable quant : cs_cdo_quantities_t.
Variables dgldT inv_forcing_eps dgldT_coef : cs_real_t.

Let body := voller_cell st v_model quant dgldT inv_forcing_eps dgldT_coef.

Lemma voller_cell_view (c : nat) (s : cs_solidification_t) :
  sized quant s -> (c < n_cells quant)%nat ->
  cell_view c (body c s)
  = voller_values st v_model dgldT inv_forcing_eps dgldT_coef
      (rd (temperature s) c) (rd (cell_vol quant) c).
Proof.
  intros [] Hc. unfold body, voller_cell, voller_values, cell_view.
  cmp_cases; simpl; rewrite !rd_insert_eq, rds_insert_eq by lia; reflexivity.
Qed.

Lemma voller_cell_frame (c c' : nat) (s : cs_solidification_t) :
  c <> c' -> cell_view c' (body c s) = cell_view c' s.
Proof.
  intros Hc. unfold body, voller_cell, cell_view.
  cmp_cases; simpl; rewrite !rd_insert_ne, rds_insert_ne by exact Hc;
    reflexivity.
Qed.

Lemma voller_cell_sized (c : nat) (s : cs_solidification_t) :
  sized quant s -> sized quant (body c s).
Proof.
  intros []. unfold body, voller_cell.
  cmp_cases; split; simpl; rewrite ?length_insert; assumption.
Qed.

Lemma voller_cell_inputs (c : nat) (s0 s : cs_solidification_t) :
  same_inputs s0 s -> same_inputs s0 (body c s).
Proof.
  intros H. unfold body, voller_cell. cmp_cases; exact H.
Qed.

Lemma voller_cell_counted (c k : nat) (s : cs_solidification_t) :
  (Z.of_nat k + 1 < 2 ^ 64)%Z ->
  counted k (n_g_cells s) -> counted (S k) (n_g_cells (body c s)).
Proof.
  intros Hk H. unfold body, voller_cell.
  cmp_cases; simpl; apply counted_incr; auto.
Qed.

Lemma voller_cell_counter (c : nat) (s : cs_solidification_t) (vol : cs_real_t) :
  n_g_cells (body c s)
  = incr (snd (fst (voller_values st v_model dgldT inv_forcing_eps dgldT_coef
                      (rd (temperature s) c) vol)))
      (n_g_cells s).
Proof.
  unfold body, voller_cell, voller_values. cmp_cases; reflexivity.
Qed.

Lemma voller_cell_no_eutectic (c : nat) (s : cs_solidification_t) :
  no_eutectic (n_g_cells s) -> no_eutectic (n_g_cells (body c s)).
Proof.
  intros H. unfold body, voller_cell.
  cmp_cases; simpl; apply no_eutectic_incr; auto.
Qed.

End VollerCell.

(** ** Voller and Prakash pass *)

Lemma sized_g_l_current_to_previous quant s :
  sized quant s -> sized quant (g_l_current_to_previous s).
Proof. intros []. split; assumption. Qed.

Lemma sized_set_n_g_cells quant n s :
  sized quant s -> sized quant (set_n_g_cells n s).
Proof. intros []. split; assumption. Qed.

(** The loop part of the pass returns, and each cell then holds the values
    of its branch. *)
Lemma voller_local_cells (st : statics_t) (quant : cs_cdo_quantities_t)
      (ts : cs_time_step_t) (cur2prev : bool) (solid : cs_solidification_t)
      (v_model : Voller.cs_solidification_voller_t) :
  model_context solid = VollerContext v_model ->
  sized quant solid ->
  exists s',
    voller_local st quant ts cur2prev solid = Done s'
    /\ sized quant s' /\ same_inputs solid s'
    /\ forall c, (c < n_cells quant)%nat ->
         cell_view c s'
         = voller_values st v_model (voller_dgldT v_model)
             (1 / cs_solidification_forcing_eps st)
             (voller_dgldT_coef v_model ts (mass_density solid))
             (rd (temperature solid) c) (rd (cell_vol quant) c).
Proof.
  intros Hctx Hsz. unfold voller_local. rewrite Hctx.
  eexists. split; [reflexivity |].
  set (s0 := set_n_g_cells (zeros4 0%Z)
               (if cur2prev then g_l_current_to_previous solid else solid)).
  assert (Hsz0 : sized quant s0)
    by (apply sized_set_n_g_cells; destruct cur2prev;
        [apply sized_g_l_current_to_previous |]; exact Hsz).
  assert (Hin0 : same_inputs solid s0)
    by (destruct cur2prev; repeat split).
  assert (Hrho : mass_density s0 = mass_density solid) by apply Hin0.
  rewrite Hrho.
  apply (iter_loop_rule
           (fun k s =>
              sized quant s /\ same_inputs solid s
              /\ forall c, (c < k)%nat ->
                   cell_view c s
                   = voller_values st v_model (voller_dgldT v_model)
                       (1 / cs_solidification_forcing_eps st)
                       (voller_dgldT_coef v_model ts (mass_density solid))
                       (rd (temperature solid) c) (rd (cell_vol quant) c))).
  - split; [exact Hsz0 |]. split; [exact Hin0 |]. intros c Hc; lia.
  - intros i s Hi (Hs & Hin & Hv).
    split; [apply voller_cell_sized; exact Hs |].
    split; [apply voller_cell_inputs; exact Hin |].
    intros c Hc. destruct (decide (c = i)) as [-> | Hne].
    + rewrite voller_cell_view by assumption.
      destruct Hin as (-> & _). reflexivity.
    + rewrite voller_cell_frame by congruence. apply Hv. lia.
Qed.

(** The loop part of the pass leaves counters that add up to the number of
    cells of the rank. *)
Lemma voller_local_counted (st : statics_t) (quant : cs_cdo_quantities_t)
      (ts : cs_time_step_t) (cur2prev : bool) (solid : cs_solidification_t)
      (v_model : Voller.cs_solidification_voller_t) (s' : cs_solidification_t) :
  model_context solid = VollerContext v_model ->
  (Z.of_nat (n_cells quant) < 2 ^ 64)%Z ->
  voller_local st quant ts cur2prev solid = Done s' ->
  counted (n_cells quant) (n_g_cells s').
Proof.
  intros Hctx Hn. unfold voller_local. rewrite Hctx. intros [= <-].
  apply (iter_loop_rule (fun k s => counted k (n_g_cells s))).
  - apply counted_zeros.
  - intros i s Hi H. apply voller_cell_counted; [lia | exact H].
Qed.

Lemma voller_local_no_eutectic (st : statics_t) (quant : cs_cdo_quantities_t)
      (ts : cs_time_step_t) (cur2prev : bool) (solid : cs_solidification_t)
      (v_model : Voller.cs_solidification_voller_t) (s' : cs_solidification_t) :
  model_context solid = VollerContext v_model ->
  voller_local st quant ts cur2prev solid = Done s' ->
  no_eutectic (n_g_cells s').
Proof.
  intros Hctx. unfold voller_local. rewrite Hctx. intros [= <-].
  apply (iter_loop_rule (fun k s => no_eutectic (n_g_cells s))).
  - apply no_eutectic_zeros.
  - intros i s Hi H. apply voller_cell_no_eutectic. exact H.
Qed.

(** The loop part of the pass counts each cell once, under the state its
    branch belongs to. *)
Lemma voller_local_tallied (st : statics_t) (quant : cs_cdo_quantities_t)
      (ts : cs_time_step_t) (cur2prev : bool) (solid : cs_solidification_t)
      (v_model : Voller.cs_solidification_voller_t) (s' : cs_solidification_t) :
  model_context solid = VollerContext v_model ->
  (Z.of_nat (n_cells quant) < 2 ^ 64)%Z ->
  voller_local st quant ts cur2prev solid = Done s' ->
  tallied
    (fun c =>
       snd (fst (voller_values st v_model (voller_dgldT v_model)
                   (1 / cs_solidification_forcing_eps st)
                   (voller_dgldT_coef v_model ts (mass_density solid))
                   (rd (temperature solid) c) (rd (cell_vol quant) c))))
    (n_cells quant) (n_g_cells s').
Proof.
  intros Hctx Hn. unfold voller_local. rewrite Hctx. intros [= <-].
  set (s0 := set_n_g_cells (zeros4 0%Z)
               (if cur2prev then g_l_current_to_previous solid else solid)).
  assert (Hin0 : same_inputs solid s0)
    by (destruct cur2prev; repeat split).
  assert (Hrho : mass_density
                   (if cur2prev then g_l_current_to_previous solid else solid)
                 = mass_density solid) by (destruct cur2prev; reflexivity).
  rewrite Hrho.
  set (f := fun c : nat =>
       snd (fst (voller_values st v_model (voller_dgldT v_model)
                   (1 / cs_solidification_forcing_eps st)
                   (voller_dgldT_coef v_model ts (mass_density solid))
                   (rd (temperature solid) c) (rd (cell_vol quant) c)))).
  apply (iter_loop_rule
           (fun k s => same_inputs solid s /\ tallied f k (n_g_cells s))).
  - split; [exact Hin0 | apply tallied_zeros].
  - intros i s Hi (Hin & Ht).
    split; [apply voller_cell_inputs; exact Hin |].
    rewrite (voller_cell_counter _ _ _ _ _ _ _ _ (rd (cell_vol quant) i)).
    destruct Hin as (-> & _).
    apply (tallied_incr f); [lia | | exact Ht].
    unfold f, voller_values. cmp_cases; discriminate.
Qed.

(** Case analysis on the comparisons of a hypothesis. *)
Ltac cmp_cases_in H :=
  repeat match type of H with
    | context [Qltb ?a ?b] =>
        let E := fresh "E" in
        destruct (Qltb a b) eqn:E;
        [apply Qltb_true in E | apply Qltb_false in E]
    | context [Qleb ?a ?b] =>
        let E := fresh "E" in
        destruct (Qleb a b) eqn:E;
        [apply Qleb_true in E | apply Qleb_false in E]
    end.

(** The enforcement returns: its assertion holds as soon as the counters
    tally the tags. *)
Lemma enforce_returns (b : build_t) (quant : cs_cdo_quantities_t)
      (s : cs_solidification_t) :
  (Z.of_nat (n_cells quant) < 2 ^ 64)%Z ->
  tallied (fun c => rds (cell_state s) c) (n_cells quant) (n_g_cells s) ->
  exists l, enforce_if_solid b quant s = Done l.
Proof.
  intros Hn (_ & Ht). unfold enforce_if_solid.
  destruct (0 <? rdz (n_g_cells s) (state_id SOLID))%Z; [| eexists; reflexivity].
  unfold _enforce_solid_cells.
  rewrite (Ht SOLID) by discriminate.
  pose proof (tally_le (fun c => rds (cell_state s) c) (n_cells quant) SOLID)
    as Hle.
  unfold tally in *.
  assert (Hw : wrap64
                 (Z.of_nat
                    (length
                       (filter (fun c => rds (cell_state s) c = SOLID)
                          (seq 0 (n_cells quant)))))
               = Z.of_nat
                   (length
                      (filter (fun c => rds (cell_state s) c = SOLID)
                         (seq 0 (n_cells quant)))))
    by (unfold wrap64; apply Z.mod_small; lia).
  rewrite Hw, Z.eqb_refl. unfold c_assert.
  destruct (ndebug b); eexists; reflexivity.
Qed.

Lemma sized_lnum (quant : cs_cdo_quantities_t) (s : cs_solidification_t) :
  sized quant s -> (Z.of_nat (n_cells quant) < 2 ^ 64)%Z.
Proof. intros []. lia. Qed.

(** The loop part of the Voller pass, all facts together. *)
Lemma voller_local_spec (st : statics_t) (quant : cs_cdo_quantities_t)
      (ts : cs_time_step_t) (cur2prev : bool) (solid : cs_solidification_t)
      (v_model : Voller.cs_solidification_voller_t) :
  model_context solid = VollerContext v_model ->
  sized quant solid ->
  exists s',
    voller_local st quant ts cur2prev solid = Done s'
    /\ sized quant s' /\ same_inputs solid s'
    /\ (forall c, (c < n_cells quant)%nat ->
          cell_view c s'
          = voller_values st v_model (voller_dgldT v_model)
              (1 / cs_solidification_forcing_eps st)
              (voller_dgldT_coef v_model ts (mass_density solid))
              (rd (temperature solid) c) (rd (cell_vol quant) c))
    /\ no_eutectic (n_g_cells s')
    /\ counted (n_cells quant) (n_g_cells s')
    /\ tallied (fun c => rds (cell_state s') c) (n_cells quant)
         (n_g_cells s').
Proof.
  intros Hctx Hsz. pose proof (sized_lnum _ _ Hsz) as Hn.
  destruct (voller_local_cells st quant ts cur2prev solid v_model Hctx Hsz)
    as (s1 & E1 & Hs1 & Hin1 & Hv).
  exists s1. split; [exact E1 |]. split; [exact Hs1 |]. split; [exact Hin1 |].
  split; [exact Hv |].
  split; [exact (voller_local_no_eutectic _ _ _ _ _ _ _ Hctx E1) |].
  split; [exact (voller_local_counted _ _ _ _ _ _ _ Hctx Hn E1) |].
  eapply tallied_ext;
    [| exact (voller_local_tallied _ _ _ _ _ _ _ Hctx Hn E1)].
  intros c Hc. simpl.
  change (rds (cell_state s1) c) with (snd (fst (cell_view c s1))).
  rewrite (Hv c Hc). reflexivity.
Qed.

Lemma sized_solid3_voller : sized quant3 solid3_voller.
Proof. split; reflexivity. Defined.

(** ** Binary-alloy pass *)

Section AlloyCell.

Variable st : statics_t.
Variable quant : cs_cdo_quantities_t.
Variables rhoLovdt inv_kpm1 eut_slope inv_forcing_eps : cs_real_t.

Let body := alloy_cell st quant rhoLovdt inv_kpm1 eut_slope inv_forcing_eps.

(** One step of the loop on cells: it returns, writes cell [c] of each
    array, and moves one counter. *)
Lemma alloy_cell_step (c : nat) (s : cs_solidification_t)
      (a : Alloy.cs_solidification_binary_alloy_t) :
  sized quant s -> length (Alloy.c_l_val a) = n_cells quant ->
  (c < n_cells quant)%nat ->
  let temp := rd (temperature s) c in
  let conc := rd (Alloy.solute_val a) c in
  exists s' a',
    body c (s, a) = Done (s', a')
    /\ sized quant s' /\ length (Alloy.c_l_val a') = n_cells quant
    /\ same_inputs s s'
    /\ a' = Alloy.with_c_l_val (Alloy.c_l_val a') a
    /\ cell_view c s'
       = alloy_values st a rhoLovdt inv_kpm1 eut_slope inv_forcing_eps
           temp conc (rd (Alloy.solute_val_pre a) c) (rd (cell_vol quant) c)
    /\ rd (Alloy.c_l_val a') c
       = alloy_c_l_value a temp conc (rd (g_l_val s) c) (rd (Alloy.c_l_val a) c)
    /\ (forall c', c' <> c ->
          cell_view c' s' = cell_view c' s
          /\ rd (g_l_val s') c' = rd (g_l_val s) c'
          /\ rd (Alloy.c_l_val a') c' = rd (Alloy.c_l_val a) c')
    /\ n_g_cells s'
       = incr (counted_state (state_of (_get_alloy_state a temp conc)))
           (n_g_cells s)
    /\ state_of (_get_alloy_state a temp conc) <> CS_SOLIDIFICATION_N_STATES.
Proof.
  intros Hsz Hcl Hc temp conc. destruct Hsz. destruct a.
  unfold body, alloy_cell, alloy_values, alloy_c_l_value, state_of,
    _get_alloy_state, cell_view, same_inputs.
  fold temp. simpl in *. fold conc.
  cmp_cases; simpl;
    (eexists; eexists; split; [reflexivity |]);
    (split; [split; simpl; rewrite ?length_insert; assumption |]);
    simpl; rewrite ?length_insert;
    (split; [assumption |]);
    (split; [repeat split |]);
    (split; [reflexivity |]);
    rewrite ?rd_insert_eq, ?rds_insert_eq by lia;
    (split; [reflexivity |]);
    (split; [reflexivity |]);
    (split; [intros c' Hne;
             rewrite ?rd_insert_ne, ?rds_insert_ne by congruence;
             repeat split |]);
    (split; [reflexivity | discriminate]).
Qed.

End AlloyCell.

Lemma same_inputs_trans (s0 s1 s2 : cs_solidification_t) :
  same_inputs s0 s1 -> same_inputs s1 s2 -> same_inputs s0 s2.
Proof.
  intros (A1 & A2 & A3 & A4) (B1 & B2 & B3 & B4).
  repeat split; congruence.
Qed.

(** The loop on cells returns; each cell then holds the values its state
    calls for, and the counters add up to the number of cells. *)
Lemma alloy_cells_loop (st : statics_t) (quant : cs_cdo_quantities_t)
      (rhoLovdt inv_kpm1 eut_slope inv_forcing_eps : cs_real_t)
      (s0 : cs_solidification_t)
      (a0 : Alloy.cs_solidification_binary_alloy_t) :
  sized quant s0 -> length (Alloy.c_l_val a0) = n_cells quant ->
  n_g_cells s0 = zeros4 0%Z ->
  exists s' a',
    for_loop (n_cells quant)
      (alloy_cell st quant rhoLovdt inv_kpm1 eut_slope inv_forcing_eps)
      (s0, a0) = Done (s', a')
    /\ sized quant s' /\ length (Alloy.c_l_val a') = n_cells quant
    /\ same_inputs s0 s'
    /\ (exists l, a' = Alloy.with_c_l_val l a0)
    /\ (forall c, (c < n_cells quant)%nat ->
          cell_view c s'
          = alloy_values st a0 rhoLovdt inv_kpm1 eut_slope inv_forcing_eps
              (rd (temperature s0) c) (rd (Alloy.solute_val a0) c)
              (rd (Alloy.solute_val_pre a0) c) (rd (cell_vol quant) c)
          /\ rd (Alloy.c_l_val a') c
             = alloy_c_l_value a0 (rd (temperature s0) c)
                 (rd (Alloy.solute_val a0) c)
                 (rd (g_l_val s0) c) (rd (Alloy.c_l_val a0) c))
    /\ no_eutectic (n_g_cells s')
    /\ ((Z.of_nat (n_cells quant) < 2 ^ 64)%Z ->
        counted (n_cells quant) (n_g_cells s')
        /\ tallied
             (fun c =>
                counted_state
                  (state_of (_get_alloy_state a0 (rd (temperature s0) c)
                               (rd (Alloy.solute_val a0) c))))
             (n_cells quant) (n_g_cells s')).
Proof.
  intros Hsz Hcl Hzero.
  set (f := fun c : nat =>
              counted_state
                (state_of (_get_alloy_state a0 (rd (temperature s0) c)
                             (rd (Alloy.solute_val a0) c)))).
  pose (I := fun (k : nat)
                 (sa : cs_solidification_t
                       * Alloy.cs_solidification_binary_alloy_t) =>
    let s := fst sa in
    let a := snd sa in
    sized quant s /\ length (Alloy.c_l_val a) = n_cells quant
    /\ same_inputs s0 s
    /\ (exists l, a = Alloy.with_c_l_val l a0)
    /\ (forall c, (c < k)%nat ->
          cell_view c s
          = alloy_values st a0 rhoLovdt inv_kpm1 eut_slope inv_forcing_eps
              (rd (temperature s0) c) (rd (Alloy.solute_val a0) c)
              (rd (Alloy.solute_val_pre a0) c) (rd (cell_vol quant) c)
          /\ rd (Alloy.c_l_val a) c
             = alloy_c_l_value a0 (rd (temperature s0) c)
                 (rd (Alloy.solute_val a0) c)
                 (rd (g_l_val s0) c) (rd (Alloy.c_l_val a0) c))
    /\ (forall c, (k <= c)%nat ->
          rd (g_l_val s) c = rd (g_l_val s0) c
          /\ rd (Alloy.c_l_val a) c = rd (Alloy.c_l_val a0) c)
    /\ no_eutectic (n_g_cells s)
    /\ ((Z.of_nat (n_cells quant) < 2 ^ 64)%Z ->
        counted k (n_g_cells s) /\ tallied f k (n_g_cells s))).
  destruct (for_loop_rule I (n_cells quant)
              (alloy_cell st quant rhoLovdt inv_kpm1 eut_slope inv_forcing_eps)
              (s0, a0)) as ([s' a'] & E & HI).
  - unfold I; simpl. split; [exact Hsz |]. split; [exact Hcl |].
    split; [repeat split |].
    split; [exists (Alloy.c_l_val a0); destruct a0; reflexivity |].
    split; [intros c Hc; lia |].
    split; [intros c _; split; reflexivity |].
    rewrite Hzero.
    split; [apply no_eutectic_zeros |].
    intros _; split; [apply counted_zeros | apply tallied_zeros].
  - intros i [s a] Hi (Hs & Hl & Hin & (l & Ha) & Hdone & Htodo & Hz & Hc).
    simpl in Hs, Hl, Hin, Ha, Hdone, Htodo, Hz, Hc.
    destruct (alloy_cell_step st quant rhoLovdt inv_kpm1 eut_slope
                inv_forcing_eps i s a Hs Hl Hi)
      as (s1 & a1 & E1 & Hs1 & Hl1 & Hin1 & Ha1 & Hv1 & Hc1 & Hfr & Hn1 & Hne).
    exists (s1, a1). split; [exact E1 |].
    unfold I; simpl.
    split; [exact Hs1 |]. split; [exact Hl1 |].
    split; [exact (same_inputs_trans _ _ _ Hin Hin1) |].
    split; [exists (Alloy.c_l_val a1); rewrite Ha1, Ha; reflexivity |].
    assert (Ht : temperature s = temperature s0) by apply Hin.
    destruct (Htodo i (Nat.le_refl i)) as (Hg_i & Hcl_i).
    assert (Hst : let x := counted_state
                             (state_of
                                (_get_alloy_state a (rd (temperature s) i)
                                   (rd (Alloy.solute_val a) i))) in
                  x = SOLID \/ x = MUSHY \/ x = LIQUID).
    { revert Hne.
      destruct (state_of
                  (_get_alloy_state a (rd (temperature s) i)
                     (rd (Alloy.solute_val a) i)));
        simpl; intros Hne; auto; contradiction. }
    split; [| split; [| split]].
    + intros c Hc'. destruct (decide (c = i)) as [-> | Hci].
      * rewrite Hv1, Hc1, Ht, Hg_i, Hcl_i, Ha. split; reflexivity.
      * destruct (Hfr c Hci) as (F1 & _ & F3). rewrite F1, F3.
        apply Hdone. lia.
    + intros c Hc'. destruct (Hfr c) as (_ & F2 & F3); [lia |].
      rewrite F2, F3. apply Htodo. lia.
    + rewrite Hn1. apply no_eutectic_incr; [exact Hst | exact Hz].
    + intros Hn. destruct (Hc Hn) as (Hc1' & Hc2'). rewrite Hn1.
      split; [apply counted_incr; [lia | exact Hst | exact Hc1'] |].
      assert (Ef : counted_state
                     (state_of
                        (_get_alloy_state a (rd (temperature s) i)
                           (rd (Alloy.solute_val a) i))) = f i)
        by (unfold f; rewrite Ht, Ha; reflexivity).
      apply (tallied_incr_eq f); [exact Ef | lia | | exact Hc2'].
      cbv zeta in Hst. destruct Hst as [-> | [-> | ->]]; discriminate.
  - exists s', a'.
    destruct HI as (H1 & H2 & H3 & H4 & H5 & _ & H7 & H8).
    repeat (split; [assumption |]). exact H8.
Qed.

(** The loop on faces returns and writes [c_l_faces] only. *)
Lemma alloy_faces_loop (n : nat)
      (a0 : Alloy.cs_solidification_binary_alloy_t) :
  exists a', for_loop n alloy_face a0 = Done a'
             /\ exists l, a' = Alloy.with_c_l_faces l a0.
Proof.
  apply (for_loop_rule (fun _ a => exists l, a = Alloy.with_c_l_faces l a0)).
  - exists (Alloy.c_l_faces a0). destruct a0; reflexivity.
  - intros i a _ (l & ->). unfold alloy_face, _get_alloy_state. simpl.
    cmp_cases; (eexists; split; [reflexivity |]); eexists; reflexivity.
Qed.

Lemma alloy_local_spec (b : build_t) (st : statics_t)
      (quant : cs_cdo_quantities_t) (ts : cs_time_step_t) (cur2prev : bool)
      (solid : cs_solidification_t)
      (alloy : Alloy.cs_solidification_binary_alloy_t) :
  model_context solid = AlloyContext alloy ->
  sized quant solid -> length (Alloy.c_l_val alloy) = n_cells quant ->
  kp_accepted b alloy ->
  exists s' a',
    alloy_local b st quant ts cur2prev solid = Done (s', a')
    /\ sized quant s' /\ same_inputs solid s'
    /\ (forall c, (c < n_cells quant)%nat ->
          cell_view c s' = alloy_cell_values st quant ts solid alloy c
          /\ rd (Alloy.c_l_val a') c
             = alloy_c_l_value alloy (rd (temperature solid) c)
                 (rd (Alloy.solute_val alloy) c)
                 (rd (g_l_val solid) c) (rd (Alloy.c_l_val alloy) c))
    /\ no_eutectic (n_g_cells s')
    /\ ((Z.of_nat (n_cells quant) < 2 ^ 64)%Z ->
        counted (n_cells quant) (n_g_cells s')
        /\ tallied
             (fun c =>
                counted_state
                  (state_of (_get_alloy_state alloy (rd (temperature solid) c)
                               (rd (Alloy.solute_val alloy) c))))
             (n_cells quant) (n_g_cells s')).
Proof.
  intros Hctx Hsz Hcl Hkp. unfold alloy_local. rewrite Hctx.
  set (s0 := set_n_g_cells (zeros4 0%Z)
               (if cur2prev then g_l_current_to_previous solid else solid)).
  set (a0 := if cur2prev then Alloy.c_l_current_to_previous alloy else alloy).
  assert (Hk0 : Alloy.kp a0 = Alloy.kp alloy)
    by (unfold a0; destruct cur2prev; reflexivity).
  assert (Ha : c_assert (ndebug b) (Qltb 0 (Alloy.kp a0)) = Done tt).
  { rewrite Hk0. unfold c_assert. destruct Hkp as [-> | Hk]; [reflexivity |].
    apply Qltb_true in Hk. rewrite Hk. destruct (ndebug b); reflexivity. }
  rewrite Ha. simpl.
  assert (Hsz0 : sized quant s0)
    by (apply sized_set_n_g_cells; destruct cur2prev;
        [apply sized_g_l_current_to_previous |]; exact Hsz).
  assert (Hcl0 : length (Alloy.c_l_val a0) = n_cells quant)
    by (unfold a0; destruct cur2prev; exact Hcl).
  assert (Hin0 : same_inputs solid s0)
    by (unfold s0; destruct cur2prev; repeat split).
  assert (Hg0 : g_l_val s0 = g_l_val solid)
    by (unfold s0; destruct cur2prev; reflexivity).
  assert (Hrho : mass_density s0 = mass_density solid) by apply Hin0.
  assert (Ht : temperature s0 = temperature solid) by apply Hin0.
  destruct (alloy_cells_loop st quant
              (mass_density s0 * Alloy.latent_heat a0 / dt ts)
              (1 / (Alloy.kp a0 - 1))
              (1 / (Alloy.c_eutec a0 - Alloy.c_eutec_a a0))
              (1 / cs_solidification_forcing_eps st) s0 a0 Hsz0 Hcl0
              eq_refl)
    as (s' & a' & E & Hs' & _ & Hin' & _ & Hv & Hz & Hc).
  exists s', a'. split; [exact E |].
  split; [exact Hs' |].
  split; [exact (same_inputs_trans _ _ _ Hin0 Hin') |].
  split; [| split; [exact Hz |]].
  2: { intros Hn. destruct (Hc Hn) as (C1 & C2). split; [exact C1 |].
       revert C2. rewrite Ht. unfold a0. destruct cur2prev; intros C2; exact C2. }
  intros c Hlt. destruct (Hv c Hlt) as (V1 & V2).
  rewrite V1, V2, Hrho, Ht, Hg0.
  unfold a0, alloy_cell_values, alloy_rhoLovdt, alloy_inv_kpm1,
    alloy_eut_slope.
  destruct cur2prev; split; reflexivity.
Qed.

Lemma alloy_values_state (st : statics_t)
      (alloy : Alloy.cs_solidification_binary_alloy_t)
      (rhoLovdt inv_kpm1 eut_slope inv_forcing_eps
       temp conc conc_prev vol : cs_real_t) :
  snd (fst (alloy_values st alloy rhoLovdt inv_kpm1 eut_slope inv_forcing_eps
              temp conc conc_prev vol))
  = counted_state (state_of (_get_alloy_state alloy temp conc)).
Proof.
  unfold alloy_values, state_of, _get_alloy_state. cmp_cases; reflexivity.
Qed.

(** The loop part of the alloy pass, with the counters tallying the tags. *)
Lemma alloy_local_tags (b : build_t) (st : statics_t)
      (quant : cs_cdo_quantities_t) (ts : cs_time_step_t) (cur2prev : bool)
      (solid : cs_solidification_t)
      (alloy : Alloy.cs_solidification_binary_alloy_t) :
  model_context solid = AlloyContext alloy ->
  sized quant solid -> length (Alloy.c_l_val alloy) = n_cells quant ->
  kp_accepted b alloy ->
  exists s' a',
    alloy_local b st quant ts cur2prev solid = Done (s', a')
    /\ sized quant s' /\ same_inputs solid s'
    /\ (forall c, (c < n_cells quant)%nat ->
          cell_view c s' = alloy_cell_values st quant ts solid alloy c
          /\ rd (Alloy.c_l_val a') c
             = alloy_c_l_value alloy (rd (temperature solid) c)
                 (rd (Alloy.solute_val alloy) c)
                 (rd (g_l_val solid) c) (rd (Alloy.c_l_val alloy) c))
    /\ no_eutectic (n_g_cells s')
    /\ counted (n_cells quant) (n_g_cells s')
    /\ tallied (fun c => rds (cell_state s') c) (n_cells quant)
         (n_g_cells s').
Proof.
  intros Hctx Hsz Hcl Hkp. pose proof (sized_lnum _ _ Hsz) as Hn.
  destruct (alloy_local_spec b st quant ts cur2prev solid alloy Hctx Hsz
              Hcl Hkp) as (s1 & a1 & E1 & Hs1 & Hin1 & Hv & Hz & Hc).
  destruct (Hc Hn) as (C1 & C2).
  exists s1, a1. split; [exact E1 |]. split; [exact Hs1 |].
  split; [exact Hin1 |]. split; [exact Hv |]. split; [exact Hz |].
  split; [exact C1 |].
  eapply tallied_ext; [| exact C2].
  intros c Hlt. simpl.
  change (rds (cell_state s1) c) with (snd (fst (cell_view c s1))).
  destruct (Hv c Hlt) as (-> & _).
  unfold alloy_cell_values. rewrite alloy_values_state. reflexivity.
Qed.

(** ** Either model, one rank among others *)

Lemma voller_values_ok (st : statics_t)
      (v_model : Voller.cs_solidification_voller_t)
      (dgldT dgldT_coef T vol : cs_real_t) :
  cell_ok st (Voller.forcing_coef v_model)
    (voller_values st v_model dgldT (1 / cs_solidification_forcing_eps st)
       dgldT_coef T vol).
Proof.
  unfold cell_ok, voller_values. cmp_cases; simpl; auto.
Qed.

Lemma alloy_values_ok (st : statics_t)
      (alloy : Alloy.cs_solidification_binary_alloy_t)
      (rhoLovdt inv_kpm1 eut_slope temp conc conc_prev vol : cs_real_t) :
  cell_ok st (Alloy.forcing_coef alloy)
    (alloy_values st alloy rhoLovdt inv_kpm1 eut_slope
       (1 / cs_solidification_forcing_eps st) temp conc conc_prev vol).
Proof.
  unfold cell_ok, alloy_values, _get_alloy_state. cmp_cases; simpl; auto.
Qed.

(** Either pass returns.  [s_loc] is the structure when the reduction is
    reached, [s'] the one the pass leaves. *)
Lemma call_update_spec (b : build_t) (st : statics_t) (peers : list (list Z))
      (quant : cs_cdo_quantities_t) (ts : cs_time_step_t) (cur2prev : bool)
      (solid : cs_solidification_t) :
  ready b (quant, solid) ->
  exists s_loc s',
    update_local b st quant ts cur2prev solid = Done s_loc
    /\ call_update b st peers quant ts cur2prev solid = Done s'
    /\ n_g_cells s' = cs_parall_sum_gnum peers (n_g_cells s_loc)
    /\ (forall c, cell_view c s' = cell_view c s_loc)
    /\ sized quant s' /\ same_inputs solid s'
    /\ no_eutectic (n_g_cells s_loc)
    /\ ((Z.of_nat (n_cells quant) < 2 ^ 64)%Z ->
        counted (n_cells quant) (n_g_cells s_loc)
        /\ tallied (fun c => rds (cell_state s') c) (n_cells quant)
             (n_g_cells s_loc))
    /\ (forall c, (c < n_cells quant)%nat ->
          cell_ok st (forcing_coef_of (model_context solid)) (cell_view c s'))
    /\ (forall c, (c < n_cells quant)%nat ->
          cell_view c s' = pass_values st quant ts solid c).
Proof.
  intros (Hsz & Hready). simpl in Hsz, Hready.
  unfold update_local, call_update, pass_values.
  destruct (update solid) eqn:Hu; [contradiction | |].
  - destruct (model_context solid) as [| v_model | alloy] eqn:Hctx;
      try contradiction.
    destruct (voller_local_spec st quant ts cur2prev solid v_model Hctx Hsz)
      as (s1 & E1 & Hs1 & Hin1 & Hv & Hz1 & Hc1 & Ht1).
    destruct (enforce_returns b quant s1 (sized_lnum _ _ Hsz) Ht1) as (l & El).
    exists s1. eexists.
    unfold _update_liquid_fraction_voller. rewrite E1. simpl.
    rewrite El. simpl.
    split; [reflexivity |]. split; [reflexivity |]. split; [reflexivity |].
    split; [intros c; reflexivity |].
    split; [apply sized_set_n_g_cells; exact Hs1 |].
    split; [exact Hin1 |].
    split; [exact Hz1 |].
    split; [intros _; split; [exact Hc1 | exact Ht1] |].
    split; intros c Hc;
      change (cell_view c (set_n_g_cells _ s1)) with (cell_view c s1);
      rewrite (Hv c Hc); [apply voller_values_ok | reflexivity].
  - destruct (model_context solid) as [| v_model | alloy] eqn:Hctx;
      try contradiction.
    destruct Hready as (Hasz & Hkp).
    pose proof (asz_c_l _ _ Hasz) as Hcl.
    destruct (alloy_local_tags b st quant ts cur2prev solid alloy Hctx Hsz
                Hcl Hkp) as (s1 & a1 & E1 & Hs1 & Hin1 & Hv & Hz & Hc & Ht).
    destruct (enforce_returns b quant s1 (sized_lnum _ _ Hsz) Ht) as (l & El).
    destruct (alloy_faces_loop (n_faces quant) a1) as (a2 & E2 & _).
    exists s1. eexists.
    unfold _update_liquid_fraction_binary_alloy. rewrite E1. simpl.
    rewrite El. simpl. rewrite E2. simpl.
    split; [reflexivity |]. split; [reflexivity |]. split; [reflexivity |].
    split; [intros c; reflexivity |].
    split; [destruct Hs1; split; assumption |].
    split; [exact Hin1 |].
    split; [exact Hz |].
    split; [intros _; split; [exact Hc | exact Ht] |].
    split; intros c Hlt;
      change (cell_view c (set_model_context _ (set_n_g_cells _ s1)))
        with (cell_view c s1);
      destruct (Hv c Hlt) as (-> & _); [apply alloy_values_ok | reflexivity].
Qed.

(** ** A sample alloy rank *)

Lemma ready_solid3_alloy : ready release_build (quant3_faces, solid3_alloy).
Proof.
  split; [split; reflexivity |].
  split; [split; reflexivity | left; reflexivity].
Defined.


(** ** Reduction of the counters *)

Lemma counted_add (k1 k2 : nat) (a b : list Z) :
  (Z.of_nat (k1 + k2) < 2 ^ 64)%Z ->
  counted k1 a -> counted k2 b ->
  counted (k1 + k2) (zip_with (fun x y => wrap64 (x + y)) a b).
Proof.
  intros Hk (La & (A0 & A1 & A2) & A3 & As) (Lb & (B0 & B1 & B2) & B3 & Bs).
  destruct a as [|a0 [|a1 [|a2 [|a3 [|e a]]]]]; try discriminate La.
  destruct b as [|b0 [|b1 [|b2 [|b3 [|e b]]]]]; try discriminate Lb.
  unfold sum4, rdz in *; simpl in *. subst a3 b3.
  assert (Hw : forall x y, (0 <= x)%Z -> (0 <= y)%Z ->
                 (x + y <= Z.of_nat (k1 + k2))%Z -> wrap64 (x + y) = (x + y)%Z)
    by (intros x y Hx Hy Hxy; unfold wrap64; apply Z.mod_small; lia).
  unfold counted, sum4, rdz; simpl.
  rewrite !Hw by lia. repeat split; lia.
Qed.

Lemma no_eutectic_add (a b : list Z) :
  no_eutectic a -> no_eutectic b ->
  no_eutectic (zip_with (fun x y => wrap64 (x + y)) a b).
Proof.
  intros (La & A3) (Lb & B3).
  destruct a as [|a0 [|a1 [|a2 [|a3 [|e a]]]]]; try discriminate La.
  destruct b as [|b0 [|b1 [|b2 [|b3 [|e b]]]]]; try discriminate Lb.
  unfold rdz in *; simpl in *. subst a3 b3. split; reflexivity.
Qed.

Lemma local_counts_spec (b : build_t) (st : statics_t) (ts : cs_time_step_t)
      (cur2prev : bool) (r : rank_t) :
  ready b r ->
  no_eutectic (local_counts b st ts cur2prev r)
  /\ ((Z.of_nat (n_cells (fst r)) < 2 ^ 64)%Z ->
      counted (n_cells (fst r)) (local_counts b st ts cur2prev r)).
Proof.
  destruct r as [quant solid]. intros Hr.
  destruct (call_update_spec b st [] quant ts cur2prev solid Hr)
    as (s_loc & s' & E & _ & _ & _ & _ & _ & Hz & Hc & _).
  unfold local_counts. simpl. rewrite E.
  split; [exact Hz | intros Hn; apply Hc; exact Hn].
Qed.

Lemma parall_sum_counted (b : build_t) (st : statics_t) (ts : cs_time_step_t)
      (cur2prev : bool) (others : list rank_t) (k : nat) (mine : list Z) :
  Forall (ready b) others ->
  (Z.of_nat (k + sum_list (map (fun r => n_cells (fst r)) others)) < 2 ^ 64)%Z ->
  counted k mine ->
  counted (k + sum_list (map (fun r => n_cells (fst r)) others))
    (cs_parall_sum_gnum (map (local_counts b st ts cur2prev) others) mine).
Proof.
  intros Hall. revert k mine.
  induction Hall as [| r others Hr _ IH]; intros k mine Hk Hm; simpl in *.
  - rewrite Nat.add_0_r. exact Hm.
  - rewrite Nat.add_assoc. apply IH; [rewrite <- Nat.add_assoc; exact Hk |].
    apply counted_add; [lia | exact Hm |].
    apply local_counts_spec; [exact Hr | lia].
Qed.

Lemma parall_sum_no_eutectic (b : build_t) (st : statics_t)
      (ts : cs_time_step_t) (cur2prev : bool) (others : list rank_t)
      (mine : list Z) :
  Forall (ready b) others -> no_eutectic mine ->
  no_eutectic
    (cs_parall_sum_gnum (map (local_counts b st ts cur2prev) others) mine).
Proof.
  intros Hall. revert mine.
  induction Hall as [| r others Hr _ IH]; intros mine Hm; simpl.
  - exact Hm.
  - apply IH. apply no_eutectic_add; [exact Hm |].
    apply local_counts_spec. exact Hr.
Qed.

(** C7: in a pass of either model every cell moves exactly one counter,
    the one of the tag stored for it; when the reduction is reached the four
    counters of a rank add up to its number of cells, and after the
    reduction they add up to the number of cells of all ranks. *)
Theorem count_conservation (b : build_t) (st : statics_t)
        (ts : cs_time_step_t) (cur2prev : bool)
        (quant : cs_cdo_quantities_t) (solid : cs_solidification_t)
        (others : list rank_t) :
  ready b (quant, solid) ->
  Forall (ready b) others ->
  (Z.of_nat (global_cells quant others) < 2 ^ 64)%Z ->
  exists s_loc s',
    update_local b st quant ts cur2prev solid = Done s_loc
    /\ call_update b st (map (local_counts b st ts cur2prev) others)
         quant ts cur2prev solid = Done s'
    /\ tallied (fun c => rds (cell_state s') c) (n_cells quant)
         (n_g_cells s_loc)
    /\ sum4 (n_g_cells s_loc) = Z.of_nat (n_cells quant)
    /\ sum4 (n_g_cells s') = Z.of_nat (global_cells quant others).
Proof.
  intros Hr Hall Hg. unfold global_cells in *.
  destruct (call_update_spec b st (map (local_counts b st ts cur2prev) others)
              quant ts cur2prev solid Hr)
    as (s_loc & s' & E1 & E2 & En & _ & _ & _ & _ & Hc & _).
  exists s_loc, s'.
  destruct Hc as (Hc1 & Hc2); [lia |].
  split; [exact E1 |]. split; [exact E2 |]. split; [exact Hc2 |].
  split; [apply Hc1 |].
  rewrite En.
  apply (parall_sum_counted b st ts cur2prev others (n_cells quant));
    assumption.
Qed.

Lemma count_conservation_witness :
  exists s',
    call_update release_build default_statics
      (map (local_counts release_build default_statics step_tenth true)
         [(quant3_faces, solid3_alloy)])
      quant3 step_tenth true solid3_voller = Done s'
    /\ sum4 (n_g_cells s') = 6%Z.
Proof.
  destruct (count_conservation release_build default_statics step_tenth true
              quant3 solid3_voller [(quant3_faces, solid3_alloy)])
    as (s_loc & s' & _ & E & _ & _ & Hsum).
  - split; [exact sized_solid3_voller | exact I].
  - constructor; [exact ready_solid3_alloy | constructor].
  - reflexivity.
  - exists s'. split; [exact E | exact Hsum].
Defined.

(** ** Monitoring *)

Lemma ratio_no_eutectic_add (a b : list cs_real_t) :
  ratio_no_eutectic a -> ratio_no_eutectic b ->
  ratio_no_eutectic (zip_with Qplus a b).
Proof.
  intros (La & A3) (Lb & B3).
  destruct a as [|a0 [|a1 [|a2 [|a3 [|e a]]]]]; try discriminate La.
  destruct b as [|b0 [|b1 [|b2 [|b3 [|e b]]]]]; try discriminate Lb.
  unfold rd in *; simpl in *. subst a3 b3. split; reflexivity.
Qed.

Lemma monitoring_local_spec (quant : cs_cdo_quantities_t)
      (s : cs_solidification_t) :
  (forall c, (c < n_cells quant)%nat -> rds (cell_state s) c <> EUTECTIC) ->
  let s' := monitoring_local quant s in
  cell_state s' = cell_state s /\ n_g_cells s' = n_g_cells s
  /\ model s' = model s /\ ratio_no_eutectic (state_ratio s').
Proof.
  intros Htag. unfold monitoring_local.
  apply (iter_loop_rule
           (fun (_ : nat) s' =>
              cell_state s' = cell_state s /\ n_g_cells s' = n_g_cells s
              /\ model s' = model s /\ ratio_no_eutectic (state_ratio s'))).
  - repeat split.
  - intros i s1 Hi (H1 & H2 & H3 & Hl & H4).
    unfold monitoring_cell. rewrite H1.
    specialize (Htag i Hi).
    destruct (state_ratio s1) as [|r0 [|r1 [|r2 [|r3 [|e r]]]]] eqn:Er;
      try discriminate Hl.
    destruct (rds (cell_state s) i); try contradiction; simpl;
      rewrite ?Er; repeat split; assumption.
Qed.

Lemma call_update_tags (b : build_t) (st : statics_t) (peers : list (list Z))
      (quant : cs_cdo_quantities_t) (ts : cs_time_step_t) (cur2prev : bool)
      (solid : cs_solidification_t) :
  ready b (quant, solid) ->
  exists s',
    call_update b st peers quant ts cur2prev solid = Done s'
    /\ model s' = model solid
    /\ (forall c, (c < n_cells quant)%nat -> rds (cell_state s') c <> EUTECTIC).
Proof.
  intros Hr.
  destruct (call_update_spec b st peers quant ts cur2prev solid Hr)
    as (s_loc & s' & _ & E & _ & _ & _ & Hin & _ & _ & Hok & _).
  exists s'. split; [exact E |]. split; [apply Hin |].
  intros c Hc. destruct (Hok c Hc) as (Hst & _). simpl in Hst.
  destruct Hst as [-> | [-> | ->]]; discriminate.
Qed.

Lemma local_volumes_spec (b : build_t) (st : statics_t) (ts : cs_time_step_t)
      (cur2prev : bool) (r : rank_t) :
  ready b r -> ratio_no_eutectic (local_volumes b st ts cur2prev r).
Proof.
  destruct r as [quant solid]. intros Hr.
  destruct (call_update_tags b st [] quant ts cur2prev solid Hr)
    as (s' & E & _ & Htag).
  unfold local_volumes. simpl. rewrite E.
  apply monitoring_local_spec. exact Htag.
Qed.

Lemma parall_sum_ratio_no_eutectic (b : build_t) (st : statics_t)
      (ts : cs_time_step_t) (cur2prev : bool) (others : list rank_t)
      (mine : list cs_real_t) :
  Forall (ready b) others -> ratio_no_eutectic mine ->
  ratio_no_eutectic
    (cs_parall_sum_real (map (local_volumes b st ts cur2prev) others) mine).
Proof.
  intros Hall. revert mine.
  induction Hall as [| r others Hr _ IH]; intros mine Hm; simpl.
  - exact Hm.
  - apply IH. apply ratio_no_eutectic_add; [exact Hm |].
    apply local_volumes_spec. exact Hr.
Qed.


(** C10: a pass of either model followed by a monitoring pass leaves no
    cell tagged EUTECTIC, a zero EUTECTIC counter and a zero EUTECTIC volume
    ratio on every rank, so the eutectic line logged for the binary-alloy
    model shows 0 percent for 0 cells. *)
Theorem eutectic_monitoring_zero (b : build_t) (st : statics_t)
        (ts : cs_time_step_t) (cur2prev : bool)
        (quant : cs_cdo_quantities_t) (solid : cs_solidification_t)
        (others : list rank_t) :
  ready b (quant, solid) ->
  Forall (ready b) others ->
  exists s1,
    call_update b st (map (local_counts b st ts cur2prev) others)
      quant ts cur2prev solid = Done s1
    /\ let s' := fst (_do_monitoring b
                        (map (local_volumes b st ts cur2prev) others)
                        quant s1) in
       let log := snd (_do_monitoring b
                         (map (local_volumes b st ts cur2prev) others)
                         quant s1) in
       (forall c, (c < n_cells quant)%nat -> rds (cell_state s') c <> EUTECTIC)
       /\ rdz (n_g_cells s') (state_id EUTECTIC) = 0%Z
       /\ rd (state_ratio s') (state_id EUTECTIC) == 0
       /\ forall label pct cnt,
            In (label, pct, cnt) log -> label = "Eutectic"%string ->
            pct == 0 /\ cnt = 0%Z.
Proof.
  intros Hr Hall.
  destruct (call_update_spec b st (map (local_counts b st ts cur2prev) others)
              quant ts cur2prev solid Hr)
    as (s_loc & s1 & _ & E & En & _ & _ & _ & Hz & _ & Hok & _).
  exists s1. split; [exact E |].
  assert (Htag : forall c, (c < n_cells quant)%nat ->
                           rds (cell_state s1) c <> EUTECTIC).
  { intros c Hc. destruct (Hok c Hc) as (Hst & _). simpl in Hst.
    destruct Hst as [-> | [-> | ->]]; discriminate. }
  destruct (monitoring_local_spec quant s1 Htag) as (M1 & M2 & M3 & M4).
  pose proof (parall_sum_ratio_no_eutectic b st ts cur2prev others _ Hall M4)
    as (Pl & P3).
  pose proof (parall_sum_no_eutectic b st ts cur2prev others _ Hall Hz)
    as (_ & N3).
  rewrite <- En in N3.
  unfold _do_monitoring. simpl.
  set (sm := monitoring_local quant s1) in *.
  set (red := cs_parall_sum_real
                (map (local_volumes b st ts cur2prev) others)
                (state_ratio sm)) in *.
  assert (R3 : rd (map (fun r => r * (1 / vol_tot quant)) red) 3 == 0).
  { destruct red as [|r0 [|r1 [|r2 [|r3 [|e r]]]]]; try discriminate Pl.
    unfold rd in *; simpl in *. rewrite P3. ring. }
  assert (Hn3 : rdz (n_g_cells sm) 3 = 0%Z) by (rewrite M2; exact N3).
  split; [rewrite M1; exact Htag |].
  split; [exact Hn3 |]. split; [exact R3 |].
  intros label pct cnt Hin Hlabel.
  destruct (flag_test (model sm) (CS_SOLIDIFICATION_MODEL_BINARY_ALLOY b));
    simpl in Hin;
    repeat (destruct Hin as [Hin | Hin];
            [injection Hin as <- <- <-; try discriminate Hlabel |]);
    try contradiction.
  split; [rewrite R3; ring | exact Hn3].
Qed.

Lemma eutectic_monitoring_zero_witness :
  exists s1,
    call_update release_build default_statics
      (map (local_counts release_build default_statics step_tenth true)
         [(quant3, solid3_voller)])
      quant3_faces step_tenth true solid3_alloy = Done s1
    /\ rd (state_ratio
             (fst (_do_monitoring release_build
                     (map (local_volumes release_build default_statics
                             step_tenth true) [(quant3, solid3_voller)])
                     quant3_faces s1))) 3 == 0.
Proof.
  destruct (eutectic_monitoring_zero release_build default_statics step_tenth
              true quant3_faces solid3_alloy [(quant3, solid3_voller)])
    as (s1 & E & _ & _ & H & _).
  - exact ready_solid3_alloy.
  - constructor; [| constructor].
    split; [exact sized_solid3_voller | exact I].
  - exists s1. split; [exact E | exact H].
Defined.

(** ** Model-parameter setters *)

(** Activation leaves [update] and [model_context] in agreement. *)
Lemma activate_consistent (b : build_t)
      (fresh_v : Voller.cs_solidification_voller_t)
      (fresh_a : Alloy.cs_solidification_binary_alloy_t)
      (rho : cs_real_t) (model_ options_ post_flag_ : Z)
      (solid : cs_solidification_t) :
  cs_solidification_activate b fresh_v fresh_a rho model_ options_ post_flag_
  = Done solid ->
  model solid = model_
  /\ match update solid, model_context solid with
     | update_voller, VollerContext _ => True
     | update_binary_alloy, AlloyContext _ => True
     | update_NULL, NoContext => True
     | _, _ => False
     end.
Proof.
  unfold cs_solidification_activate.
  destruct (model_ <? 1)%Z; [discriminate |].
  destruct (flag_test model_ (CS_SOLIDIFICATION_MODEL_VOLLER_PRAKASH_87 b));
    [| destruct (flag_test model_ (CS_SOLIDIFICATION_MODEL_BINARY_ALLOY b))];
    intros [= <-]; split; exact I || reflexivity.
Qed.

Lemma set_voller_model_before_activation (b : build_t)
      (t_solidus t_liquidus latent_heat forcing_coef : cs_real_t) :
  fatal (cs_solidification_set_voller_model b None t_solidus t_liquidus
           latent_heat forcing_coef).
Proof. eexists. reflexivity. Qed.

Lemma set_voller_model_other_variant (b : build_t)
      (solid : cs_solidification_t)
      (t_solidus t_liquidus latent_heat forcing_coef : cs_real_t) :
  Z.land (model solid) (CS_SOLIDIFICATION_MODEL_VOLLER_PRAKASH_87 b) = 0%Z ->
  fatal (cs_solidification_set_voller_model b (Some solid) t_solidus
           t_liquidus latent_heat forcing_coef).
Proof.
  intros H. unfold cs_solidification_set_voller_model. rewrite H. simpl.
  eexists. reflexivity.
Qed.

Lemma set_binary_alloy_model_before_activation (b : build_t) (st : statics_t)
      (conc0 beta kp mliq t_eutec t_melt solute_diff
       latent_heat forcing_coef : cs_real_t) :
  fatal (cs_solidification_set_binary_alloy_model b st None conc0 beta kp
           mliq t_eutec t_melt solute_diff latent_heat forcing_coef).
Proof. eexists. reflexivity. Qed.

(** Against the other variant the alloy setter only has an [assert]: a
    build without NDEBUG aborts on it, without the message of [bft_error]. *)
Lemma set_binary_alloy_model_other_variant_debug (b : build_t)
      (st : statics_t) (solid : cs_solidification_t)
      (conc0 beta kp mliq t_eutec t_melt solute_diff
       latent_heat forcing_coef : cs_real_t) :
  ndebug b = false ->
  Z.land (model solid) (CS_SOLIDIFICATION_MODEL_BINARY_ALLOY b) = 0%Z ->
  cs_solidification_set_binary_alloy_model b st (Some solid) conc0 beta kp
    mliq t_eutec t_melt solute_diff latent_heat forcing_coef = Aborted.
Proof.
  intros Hd H. unfold cs_solidification_set_binary_alloy_model, c_assert,
    flag_test. rewrite Hd, H. reflexivity.
Qed.

(** With NDEBUG nothing stops it: the stores go through [model_context],
    which points to the smaller Voller block. *)
Lemma set_binary_alloy_model_other_variant_release (b : build_t)
      (st : statics_t) (solid : cs_solidification_t)
      (v_model : Voller.cs_solidification_voller_t)
      (conc0 beta kp mliq t_eutec t_melt solute_diff
       latent_heat forcing_coef : cs_real_t) :
  ndebug b = true ->
  model_context solid = VollerContext v_model ->
  cs_solidification_set_binary_alloy_model b st (Some solid) conc0 beta kp
    mliq t_eutec t_melt solute_diff latent_heat forcing_coef = Undefined.
Proof.
  intros Hd Hctx. unfold cs_solidification_set_binary_alloy_model, c_assert.
  rewrite Hd, Hctx. reflexivity.
Qed.

(** C9 fails on the code: after an activation for the Voller model, a call
    of the binary-alloy setter in a build with NDEBUG is not stopped by any
    error; it stores the alloy parameters through the pointer to the Voller
    block. *)
Theorem alloy_setter_against_voller_not_fatal :
  alloy_setter_after_voller_activation = Undefined
  /\ ~ fatal alloy_setter_after_voller_activation.
Proof.
  split; [reflexivity |]. intros (msg & H). discriminate H.
Qed.

(** ** Assertions *)

Lemma c_assert_true (nd : bool) : c_assert nd true = Done tt.
Proof. destruct nd; reflexivity. Qed.

(** ** What a pass writes and what it leaves *)

Lemma for_loop_inv {S : Type} (I : nat -> S -> Prop) (n : nat)
      (body : nat -> S -> outcome S) (s0 s' : S) :
  I 0%nat s0 ->
  (forall i s s1, (i < n)%nat -> I i s -> body i s = Done s1 ->
                  I (Datatypes.S i) s1) ->
  for_loop n body s0 = Done s' -> I n s'.
Proof.
  intros H0 Hstep. revert s'. induction n as [| n IH]; intros s' E.
  - unfold for_loop in E. simpl in E. injection E as <-. exact H0.
  - rewrite for_loop_S in E.
    destruct (for_loop n body s0) as [s1 | | |] eqn:E1; simpl in E;
      try discriminate.
    apply (Hstep n s1 s'); [lia | | exact E].
    apply IH; [| reflexivity].
    intros i s s2 Hi. apply Hstep. lia.
Qed.

Lemma same_frame_refl (s : cs_solidification_t) : same_frame s s.
Proof. repeat split. Qed.

Lemma same_frame_trans (s0 s1 s2 : cs_solidification_t) :
  same_frame s0 s1 -> same_frame s1 s2 -> same_frame s0 s2.
Proof.
  intros (A1 & A2 & A3 & A4 & A5) (B1 & B2 & B3 & B4 & B5).
  repeat split; congruence.
Qed.

Lemma voller_cell_frame_fields (st : statics_t)
      (v_model : Voller.cs_solidification_voller_t)
      (quant : cs_cdo_quantities_t) (d i dc : cs_real_t) (c : nat)
      (s : cs_solidification_t) :
  same_frame s (voller_cell st v_model quant d i dc c s).
Proof. unfold voller_cell. cmp_cases; repeat split. Qed.

Lemma voller_local_frame (st : statics_t) (quant : cs_cdo_quantities_t)
      (ts : cs_time_step_t) (cur2prev : bool)
      (solid s' : cs_solidification_t) :
  voller_local st quant ts cur2prev solid = Done s' ->
  g_l_val_pre s' = (if cur2prev then g_l_val solid else g_l_val_pre solid)
  /\ model_context s' = model_context solid
  /\ state_ratio s' = state_ratio solid /\ options s' = options solid
  /\ post_flag s' = post_flag solid.
Proof.
  unfold voller_local.
  destruct (model_context solid) as [| v |] eqn:Hctx; try discriminate.
  intros E. injection E as <-.
  match goal with
  | |- context [iter_loop ?n ?body ?s0] =>
      pose proof (iter_loop_rule (fun _ s => same_frame s0 s) n body s0
                    (same_frame_refl s0)) as H
  end.
  destruct H as (A1 & A2 & A3 & A4 & A5).
  - intros i s _ Hs. eapply same_frame_trans; [exact Hs |].
    apply voller_cell_frame_fields.
  - rewrite A1, A2, A3, A4, A5. simpl.
    destruct cur2prev; simpl; rewrite ?Hctx; repeat split.
Qed.

Lemma alloy_cell_frame_fields (st : statics_t) (quant : cs_cdo_quantities_t)
      (r k e i : cs_real_t) (c : nat) (s s1 : cs_solidification_t)
      (a a1 : Alloy.cs_solidification_binary_alloy_t) :
  alloy_cell st quant r k e i c (s, a) = Done (s1, a1) ->
  same_frame s s1 /\ a1 = Alloy.with_c_l_val (Alloy.c_l_val a1) a.
Proof.
  unfold alloy_cell.
  destruct (_get_alloy_state a (rd (temperature s) c)
              (rd (Alloy.solute_val a) c)) as [[tl tsol] state].
  destruct state; try discriminate; intros E; injection E as <- <-;
    (split; [repeat split |]).
  - cmp_cases; destruct a; reflexivity.
  - destruct a; reflexivity.
  - destruct a; reflexivity.
  - destruct a; reflexivity.
Qed.

Lemma alloy_cells_frame (st : statics_t) (quant : cs_cdo_quantities_t)
      (r k e i : cs_real_t) (n : nat) (s0 s' : cs_solidification_t)
      (a0 a' : Alloy.cs_solidification_binary_alloy_t) :
  for_loop n (alloy_cell st quant r k e i) (s0, a0) = Done (s', a') ->
  same_frame s0 s' /\ a' = Alloy.with_c_l_val (Alloy.c_l_val a') a0.
Proof.
  intros E.
  apply (for_loop_inv
           (fun _ sa => same_frame s0 (fst sa)
                        /\ snd sa = Alloy.with_c_l_val (Alloy.c_l_val (snd sa)) a0)
           n (alloy_cell st quant r k e i) (s0, a0) (s', a'));
    [| | exact E].
  - simpl. split; [apply same_frame_refl | destruct a0; reflexivity].
  - intros j [s a] [s1 a1] _ (Hs & Ha) E1. simpl in Hs, Ha |- *.
    destruct (alloy_cell_frame_fields _ _ _ _ _ _ _ _ _ _ _ E1) as (F1 & F2).
    split; [exact (same_frame_trans _ _ _ Hs F1) |].
    rewrite F2 at 1. rewrite Ha. reflexivity.
Qed.

Lemma alloy_face_step (f : nat)
      (a0 : Alloy.cs_solidification_binary_alloy_t) (l : list cs_real_t) :
  alloy_face f (Alloy.with_c_l_faces l a0)
  = Done (Alloy.with_c_l_faces
            (<[f := alloy_face_value a0 (rd (Alloy.temp_faces a0) f)
                      (rd (Alloy.solute_face_values a0) f)]> l) a0).
Proof.
  unfold alloy_face, alloy_face_value, state_of.
  change (Alloy.solute_face_values (Alloy.with_c_l_faces l a0))
    with (Alloy.solute_face_values a0).
  change (Alloy.temp_faces (Alloy.with_c_l_faces l a0))
    with (Alloy.temp_faces a0).
  change (_get_alloy_state (Alloy.with_c_l_faces l a0))
    with (_get_alloy_state a0).
  pose proof (get_alloy_state_classified a0 (rd (Alloy.temp_faces a0) f)
                (rd (Alloy.solute_face_values a0) f)) as Hc.
  unfold state_of in Hc.
  destruct (_get_alloy_state a0 (rd (Alloy.temp_faces a0) f)
              (rd (Alloy.solute_face_values a0) f)) as [[tl tsol] state].
  simpl in Hc |- *.
  destruct state; try reflexivity; [| contradiction].
  change (Alloy.c_eutec_a (Alloy.with_c_l_faces l a0))
    with (Alloy.c_eutec_a a0).
  destruct (Qleb (Alloy.c_eutec_a a0) (rd (Alloy.solute_face_values a0) f));
    reflexivity.
Qed.

(** The loop on faces returns; it writes [c_l_faces] only, every face with
    the value of its branch. *)
Lemma alloy_faces_values (n : nat)
      (a0 : Alloy.cs_solidification_binary_alloy_t) :
  length (Alloy.c_l_faces a0) = n ->
  exists l,
    for_loop n alloy_face a0 = Done (Alloy.with_c_l_faces l a0)
    /\ length l = n
    /\ forall f, (f < n)%nat ->
         rd l f = alloy_face_value a0 (rd (Alloy.temp_faces a0) f)
                    (rd (Alloy.solute_face_values a0) f).
Proof.
  intros Hlen.
  destruct (for_loop_rule
              (fun k a =>
                 exists l, a = Alloy.with_c_l_faces l a0 /\ length l = n
                           /\ forall f, (f < k)%nat ->
                                rd l f
                                = alloy_face_value a0
                                    (rd (Alloy.temp_faces a0) f)
                                    (rd (Alloy.solute_face_values a0) f))
              n alloy_face a0) as (a' & E & (l & -> & Hl & Hv)).
  - exists (Alloy.c_l_faces a0).
    split; [destruct a0; reflexivity |]. split; [exact Hlen |].
    intros f Hf. lia.
  - intros i a Hi (l & -> & Hl & Hv).
    eexists. split; [apply alloy_face_step |].
    eexists. split; [reflexivity |].
    split; [rewrite length_insert; exact Hl |].
    intros f Hf. destruct (decide (f = i)) as [-> | Hne].
    + apply rd_insert_eq. lia.
    + rewrite rd_insert_ne by congruence. apply Hv. lia.
  - exists l. split; [exact E |]. split; [exact Hl | exact Hv].
Qed.

(** Everything a binary-alloy pass leaves behind. *)
Lemma alloy_pass_spec (b : build_t) (st : statics_t) (peers : list (list Z))
      (quant : cs_cdo_quantities_t) (ts : cs_time_step_t) (cur2prev : bool)
      (solid : cs_solidification_t)
      (alloy : Alloy.cs_solidification_binary_alloy_t) :
  model_context solid = AlloyContext alloy ->
  sized quant solid -> alloy_sized quant alloy ->
  kp_accepted b alloy ->
  exists s' cells faces,
    _update_liquid_fraction_binary_alloy b st peers quant ts cur2prev solid
    = Done s'
    /\ model_context s'
       = AlloyContext
           (with_liquid_concentrations cells faces
              (if cur2prev then Alloy.c_l_current_to_previous alloy
               else alloy))
    /\ sized quant s' /\ same_inputs solid s'
    /\ g_l_val_pre s'
       = (if cur2prev then g_l_val solid else g_l_val_pre solid)
    /\ state_ratio s' = state_ratio solid
    /\ length cells = n_cells quant /\ length faces = n_faces quant
    /\ (forall c, (c < n_cells quant)%nat ->
          cell_view c s' = alloy_cell_values st quant ts solid alloy c
          /\ rd cells c
             = alloy_c_l_value alloy (rd (temperature solid) c)
                 (rd (Alloy.solute_val alloy) c)
                 (rd (g_l_val solid) c) (rd (Alloy.c_l_val alloy) c))
    /\ (forall f, (f < n_faces quant)%nat ->
          rd faces f
          = alloy_face_value alloy (rd (Alloy.temp_faces alloy) f)
              (rd (Alloy.solute_face_values alloy) f)).
Proof.
  intros Hctx Hsz Hasz Hkp.
  pose proof (asz_c_l _ _ Hasz) as Hcl.
  destruct (alloy_local_tags b st quant ts cur2prev solid alloy Hctx Hsz
              Hcl Hkp) as (s1 & a1 & E1 & Hs1 & Hin1 & Hv & Hz & Hc & Ht).
  destruct (enforce_returns b quant s1 (sized_lnum _ _ Hsz) Ht) as (le & El).
  assert (Hfr : same_frame
                  (set_n_g_cells (zeros4 0%Z)
                     (if cur2prev then g_l_current_to_previous solid
                      else solid)) s1
                /\ a1 = Alloy.with_c_l_val (Alloy.c_l_val a1)
                          (if cur2prev
                           then Alloy.c_l_current_to_previous alloy
                           else alloy)).
  { revert E1. unfold alloy_local. rewrite Hctx.
    destruct (c_assert (ndebug b) _); simpl; try discriminate.
    apply alloy_cells_frame. }
  destruct Hfr as ((F1 & F2 & F3 & _) & Ha1).
  set (a0 := if cur2prev then Alloy.c_l_current_to_previous alloy else alloy)
    in *.
  assert (Hlen1 : length (Alloy.c_l_val a1) = n_cells quant).
  { revert E1. unfold alloy_local. rewrite Hctx.
    destruct (c_assert (ndebug b) _) eqn:Ea; simpl; try discriminate.
    intros E1.
    destruct (alloy_cells_loop st quant
                (mass_density
                   (set_n_g_cells (zeros4 0%Z)
                      (if cur2prev then g_l_current_to_previous solid
                       else solid))
                 * Alloy.latent_heat a0 / dt ts)
                (1 / (Alloy.kp a0 - 1))
                (1 / (Alloy.c_eutec a0 - Alloy.c_eutec_a a0))
                (1 / cs_solidification_forcing_eps st)
                (set_n_g_cells (zeros4 0%Z)
                   (if cur2prev then g_l_current_to_previous solid
                    else solid)) a0)
      as (s2 & a2 & E2 & _ & Hl2 & _).
    - apply sized_set_n_g_cells. destruct cur2prev;
        [apply sized_g_l_current_to_previous |]; exact Hsz.
    - unfold a0. destruct cur2prev; exact Hcl.
    - reflexivity.
    - assert (Heq : Done (s1, a1) = Done (s2, a2))
        by (rewrite <- E1; exact E2).
      injection Heq as -> ->. exact Hl2. }
  destruct (alloy_faces_values (n_faces quant) a1) as (l & E2 & Hl & Hf).
  { rewrite Ha1. unfold a0. destruct cur2prev; apply (asz_c_l_faces _ _ Hasz). }
  exists (set_model_context (AlloyContext (Alloy.with_c_l_faces l a1))
            (set_n_g_cells (cs_parall_sum_gnum peers (n_g_cells s1)) s1)),
    (Alloy.c_l_val a1), l.
  unfold _update_liquid_fraction_binary_alloy. rewrite E1. simpl.
  rewrite El. simpl. rewrite E2. simpl.
  split; [reflexivity |].
  split; [unfold with_liquid_concentrations; rewrite <- Ha1; reflexivity |].
  split; [destruct Hs1; split; assumption |].
  split; [exact Hin1 |].
  split; [rewrite F1; destruct cur2prev; reflexivity |].
  split; [rewrite F3; destruct cur2prev; reflexivity |].
  split; [exact Hlen1 |]. split; [exact Hl |].
  split; [exact Hv |].
  intros f Hlt. rewrite (Hf f Hlt), Ha1.
  unfold a0. destruct cur2prev; reflexivity.
Qed.

(** ** Liquid concentration of the binary alloy *)






Lemma sized_solid3_alloy_cold : sized quant3_faces solid3_alloy_cold.
Proof. split; reflexivity. Defined.

Lemma alloy_sized_half_cold : alloy_sized quant3_faces alloy_half_cold.
Proof. split; reflexivity. Defined.





(** ** Saved values and repeated passes *)

(** The fields a pass of either model leaves alone, and the snapshot it
    takes. *)
Lemma call_update_frame (b : build_t) (st : statics_t) (peers : list (list Z))
      (quant : cs_cdo_quantities_t) (ts : cs_time_step_t) (cur2prev : bool)
      (solid : cs_solidification_t) :
  ready b (quant, solid) ->
  exists s',
    call_update b st peers quant ts cur2prev solid = Done s'
    /\ g_l_val_pre s'
       = (if cur2prev then g_l_val solid else g_l_val_pre solid)
    /\ state_ratio s' = state_ratio solid
    /\ same_inputs solid s'
    /\ context_after quant cur2prev (model_context solid) (model_context s').
Proof.
  intros (Hsz & Hr). simpl in Hsz, Hr. unfold call_update.
  destruct (update solid) eqn:Hu; [contradiction | |];
    destruct (model_context solid) as [| v_model | alloy] eqn:Hctx;
    try contradiction.
  - destruct (voller_local_spec st quant ts cur2prev solid v_model Hctx Hsz)
      as (s1 & E1 & _ & Hin & _ & _ & _ & Ht).
    destruct (enforce_returns b quant s1 (sized_lnum _ _ Hsz) Ht) as (l & El).
    destruct (voller_local_frame st quant ts cur2prev solid s1 E1)
      as (F1 & F2 & F3 & _).
    eexists. unfold _update_liquid_fraction_voller. rewrite E1. simpl.
    rewrite El. simpl. split; [reflexivity |]. simpl.
    split; [exact F1 |]. split; [exact F3 |]. split; [exact Hin |].
    rewrite F2. exact Hctx.
  - destruct Hr as (Hasz & Hkp).
    destruct (alloy_pass_spec b st peers quant ts cur2prev solid alloy Hctx
                Hsz Hasz Hkp)
      as (s' & cells & faces & E & Hc' & _ & Hin & Hp & Hsr & L1 & L2 & _).
    exists s'. split; [exact E |]. split; [exact Hp |].
    split; [exact Hsr |]. split; [exact Hin |].
    exists cells, faces. split; [exact L1 |]. split; [exact L2 | exact Hc'].
Qed.

(** X9: called with cur2prev, a pass of either model saves the liquid
    fraction it finds (and, for the alloy model, the liquid concentration)
    as the previous values; called without, it leaves the previous values
    as they are.  The temperature, the mass density, the Voller parameters,
    the alloy parameters and the arrays of the solute equation come out as
    they went in. *)
Theorem update_saves_previous_values (b : build_t) (st : statics_t)
        (peers : list (list Z))
        (quant : cs_cdo_quantities_t) (ts : cs_time_step_t) (cur2prev : bool)
        (solid : cs_solidification_t) :
  ready b (quant, solid) ->
  exists s',
    call_update b st peers quant ts cur2prev solid = Done s'
    /\ g_l_val_pre s'
       = (if cur2prev then g_l_val solid else g_l_val_pre solid)
    /\ temperature s' = temperature solid
    /\ mass_density s' = mass_density solid
    /\ match model_context solid, model_context s' with
       | VollerContext v_model, VollerContext v_model' => v_model' = v_model
       | AlloyContext alloy, AlloyContext alloy' =>
           Alloy.c_l_val_pre alloy'
           = (if cur2prev then Alloy.c_l_val alloy
              else Alloy.c_l_val_pre alloy)
           /\ same_alloy_inputs alloy alloy'
       | _, _ => False
       end.
Proof.
  intros Hr.
  destruct (call_update_frame b st peers quant ts cur2prev solid Hr)
    as (s' & E & Hp & _ & (Ht & _ & _ & Hrho) & Hctx).
  exists s'. split; [exact E |]. split; [exact Hp |].
  split; [exact Ht |]. split; [exact Hrho |].
  destruct Hr as (_ & Hr). simpl in Hr.
  destruct (update solid); [contradiction | |];
    destruct (model_context solid) as [| v_model | alloy];
    try contradiction; simpl in Hctx.
  - rewrite Hctx. reflexivity.
  - destruct Hctx as (cells & faces & _ & _ & ->).
    destruct cur2prev; repeat split.
Qed.

Lemma update_saves_previous_values_witness :
  exists s',
    call_update release_build default_statics [] quant3_faces step_tenth true
      solid3_alloy_cold = Done s'
    /\ g_l_val_pre s' = [0; 1; 1]
    /\ temperature s' = [900; 850; 995].
Proof.
  destruct (update_saves_previous_values release_build default_statics []
              quant3_faces step_tenth true solid3_alloy_cold)
    as (s' & E & P & T & _).
  - split; [exact sized_solid3_alloy_cold |].
    split; [exact alloy_sized_half_cold | left; reflexivity].
  - exists s'. split; [exact E |]. split; [exact P | exact T].
Defined.

Lemma ready_after (b : build_t) (quant : cs_cdo_quantities_t)
      (cur2prev : bool) (solid s' : cs_solidification_t) :
  ready b (quant, solid) -> sized quant s' -> same_inputs solid s' ->
  context_after quant cur2prev (model_context solid) (model_context s') ->
  ready b (quant, s').
Proof.
  intros (Hsz & Hr) Hsz' (_ & _ & Hu & _) Hctx. simpl in Hsz, Hr.
  split; [exact Hsz' |]. simpl. rewrite Hu.
  destruct (update solid); [contradiction | |];
    destruct (model_context solid) as [| v_model | alloy];
    try contradiction; simpl in Hctx.
  - rewrite Hctx. exact I.
  - destruct Hctx as (cells & faces & L1 & L2 & ->).
    destruct Hr as ([A1 A2 A3 A4 A5 A6] & Hkp).
    split; [| destruct cur2prev; exact Hkp].
    destruct cur2prev; split; assumption.
Qed.

Lemma pass_values_after (st : statics_t) (quant : cs_cdo_quantities_t)
      (ts : cs_time_step_t) (cur2prev : bool)
      (solid s' : cs_solidification_t) (c : nat) :
  same_inputs solid s' ->
  context_after quant cur2prev (model_context solid) (model_context s') ->
  pass_values st quant ts s' c = pass_values st quant ts solid c.
Proof.
  intros (Ht & _ & _ & Hrho) Hctx. unfold pass_values.
  destruct (model_context solid) as [| v_model | alloy]; simpl in Hctx.
  - contradiction.
  - rewrite Hctx, Ht, Hrho. reflexivity.
  - destruct Hctx as (cells & faces & _ & _ & ->).
    unfold alloy_cell_values. rewrite Ht, Hrho.
    destruct cur2prev; reflexivity.
Qed.

Lemma tallied_unique (f : nat -> cs_solidification_state_t) (k : nat)
      (a b : list Z) :
  tallied f k a -> tallied f k b -> a = b.
Proof.
  intros (La & Ha) (Lb & Hb).
  destruct a as [| a0 [| a1 [| a2 [| a3 [| ? ?]]]]]; try discriminate.
  destruct b as [| b0 [| b1 [| b2 [| b3 [| ? ?]]]]]; try discriminate.
  pose proof (Ha SOLID) as A0. pose proof (Hb SOLID) as B0.
  pose proof (Ha MUSHY) as A1. pose proof (Hb MUSHY) as B1.
  pose proof (Ha LIQUID) as A2. pose proof (Hb LIQUID) as B2.
  pose proof (Ha EUTECTIC) as A3. pose proof (Hb EUTECTIC) as B3.
  unfold rdz in *. simpl in *.
  rewrite A0, A1, A2, A3, B0, B1, B2, B3 by discriminate. reflexivity.
Qed.

(** A cell the pass has made solid is kept as it is by the next pass. *)
Lemma alloy_c_l_value_again (st : statics_t)
      (alloy : Alloy.cs_solidification_binary_alloy_t)
      (r k e i temp conc conc_prev vol g_old cl_old : cs_real_t) :
  alloy_c_l_value alloy temp conc
    (view_g (alloy_values st alloy r k e i temp conc conc_prev vol))
    (alloy_c_l_value alloy temp conc g_old cl_old)
  = alloy_c_l_value alloy temp conc g_old cl_old.
Proof.
  unfold alloy_c_l_value, alloy_values, view_g, state_of.
  pose proof (get_alloy_state_classified alloy temp conc) as Hc.
  unfold state_of in Hc.
  destruct (_get_alloy_state alloy temp conc) as [[tl tsol] state].
  simpl in Hc |- *.
  destruct state; try reflexivity; contradiction.
Qed.

(** The liquid concentrations a pass of the alloy model leaves, with the
    contexts before and after. *)
Lemma alloy_pass_concentrations (b : build_t) (st : statics_t)
      (peers : list (list Z))
      (quant : cs_cdo_quantities_t) (ts : cs_time_step_t) (cur2prev : bool)
      (solid s' : cs_solidification_t)
      (alloy : Alloy.cs_solidification_binary_alloy_t) :
  ready b (quant, solid) ->
  model_context solid = AlloyContext alloy ->
  call_update b st peers quant ts cur2prev solid = Done s' ->
  exists alloy',
    model_context s' = AlloyContext alloy'
    /\ Alloy.c_l_val_pre alloy'
       = (if cur2prev then Alloy.c_l_val alloy else Alloy.c_l_val_pre alloy)
    /\ same_alloy_inputs alloy alloy'
    /\ (forall c, (c < n_cells quant)%nat ->
          rd (g_l_val s') c
          = view_g (alloy_cell_values st quant ts solid alloy c)
          /\ rd (Alloy.c_l_val alloy') c
             = alloy_c_l_value alloy (rd (temperature solid) c)
                 (rd (Alloy.solute_val alloy) c)
                 (rd (g_l_val solid) c) (rd (Alloy.c_l_val alloy) c))
    /\ (forall f, (f < n_faces quant)%nat ->
          rd (Alloy.c_l_faces alloy') f
          = alloy_face_value alloy (rd (Alloy.temp_faces alloy) f)
              (rd (Alloy.solute_face_values alloy) f)).
Proof.
  intros (Hsz & Hr) Hctx E. simpl in Hsz, Hr. revert E. unfold call_update.
  rewrite Hctx in Hr.
  destruct (update solid); try contradiction. destruct Hr as (Hasz & Hkp).
  destruct (alloy_pass_spec b st peers quant ts cur2prev solid alloy Hctx
              Hsz Hasz Hkp)
    as (s1 & cells & faces & E1 & Hc' & _ & _ & _ & _ & _ & _ & Hv & Hf).
  rewrite E1. intros E. injection E as <-.
  eexists. split; [exact Hc' |].
  split; [destruct cur2prev; reflexivity |].
  split; [destruct cur2prev; repeat split |].
  split; [| exact Hf].
  intros c Hc. destruct (Hv c Hc) as (V1 & V2).
  split; [| exact V2].
  change (rd (g_l_val s1) c) with (view_g (cell_view c s1)).
  rewrite V1. reflexivity.
Qed.

Lemma ready_solid3_voller : ready release_build (quant3, solid3_voller).
Proof. split; [exact sized_solid3_voller | exact I]. Defined.

(** X10: after a pass of either model, running the update again without
    cur2prev (as cs_solidification_initialize calls it) returns and leaves
    the same values in every cell, the same counters, the same previous
    liquid fraction and, for the alloy model, the same liquid
    concentrations at cells and faces. *)
Theorem update_again_changes_nothing (b : build_t) (st : statics_t)
        (peers : list (list Z))
        (quant : cs_cdo_quantities_t) (ts : cs_time_step_t) (cur2prev : bool)
        (solid : cs_solidification_t) :
  ready b (quant, solid) ->
  exists s1 s2,
    call_update b st peers quant ts cur2prev solid = Done s1
    /\ call_update b st peers quant ts false s1 = Done s2
    /\ (forall c, (c < n_cells quant)%nat -> cell_view c s2 = cell_view c s1)
    /\ n_g_cells s2 = n_g_cells s1
    /\ g_l_val_pre s2 = g_l_val_pre s1
    /\ match model_context s1, model_context s2 with
       | VollerContext v1, VollerContext v2 => v2 = v1
       | AlloyContext a1, AlloyContext a2 =>
           Alloy.c_l_val_pre a2 = Alloy.c_l_val_pre a1
           /\ (forall c, (c < n_cells quant)%nat ->
                 rd (Alloy.c_l_val a2) c = rd (Alloy.c_l_val a1) c)
           /\ (forall f, (f < n_faces quant)%nat ->
                 rd (Alloy.c_l_faces a2) f = rd (Alloy.c_l_faces a1) f)
       | _, _ => False
       end.
Proof.
  intros Hr.
  destruct (call_update_spec b st peers quant ts cur2prev solid Hr)
    as (l1 & s1 & _ & E1 & Hn1 & _ & Hsz1 & Hin1 & _ & Hcnt1 & _ & Hpv1).
  destruct (call_update_frame b st peers quant ts cur2prev solid Hr)
    as (s1' & E1' & _ & _ & _ & Hctx1).
  rewrite E1 in E1'. injection E1' as <-.
  pose proof (ready_after b quant cur2prev solid s1 Hr Hsz1 Hin1 Hctx1) as Hr1.
  destruct (call_update_spec b st peers quant ts false s1 Hr1)
    as (l2 & s2 & _ & E2 & Hn2 & _ & Hsz2 & Hin2 & _ & Hcnt2 & _ & Hpv2).
  destruct (call_update_frame b st peers quant ts false s1 Hr1)
    as (s2' & E2' & Hp2 & _ & _ & Hctx2).
  rewrite E2 in E2'. injection E2' as <-.
  assert (Hview : forall c, (c < n_cells quant)%nat ->
                            cell_view c s2 = cell_view c s1).
  { intros c Hc. rewrite (Hpv2 c Hc), (Hpv1 c Hc).
    apply (pass_values_after st quant ts cur2prev); assumption. }
  exists s1, s2. split; [exact E1 |]. split; [exact E2 |].
  split; [exact Hview |].
  split.
  { rewrite Hn1, Hn2. f_equal.
    pose proof (sized_lnum _ _ Hsz1) as Hlt.
    destruct (Hcnt1 Hlt) as (_ & T1). destruct (Hcnt2 Hlt) as (_ & T2).
    apply (tallied_unique (fun c => rds (cell_state s1) c) (n_cells quant));
      [| exact T1].
    apply (tallied_ext (fun c => rds (cell_state s2) c)); [| exact T2].
    intros c Hc.
    change (rds (cell_state s2) c) with (snd (fst (cell_view c s2))).
    rewrite (Hview c Hc). reflexivity. }
  split; [exact Hp2 |].
  destruct (model_context solid) as [| v_model | alloy] eqn:Hctx;
    simpl in Hctx1; [contradiction | |].
  - rewrite Hctx1 in Hctx2 |- *. simpl in Hctx2. rewrite Hctx2. reflexivity.
  - destruct (alloy_pass_concentrations b st peers quant ts cur2prev solid s1
                alloy Hr Hctx E1) as (a1 & C1 & P1 & I1 & V1 & F1).
    destruct (alloy_pass_concentrations b st peers quant ts false s1 s2
                a1 Hr1 C1 E2) as (a2 & C2 & P2 & I2 & V2 & F2).
    rewrite C1, C2. split; [exact P2 |].
    destruct Hin1 as (Ht & _ & _ & Hrho).
    destruct I1 as (_ & _ & J3 & J4 & J5 & J6 & J7 & J8 & J9 & J10 & J11
                    & J12 & J13 & J14 & _ & J16 & J17 & J18 & J19).
    split.
    + intros c Hc. destruct (V2 c Hc) as (_ & W2).
      destruct (V1 c Hc) as (G1 & W1).
      rewrite W2, G1, W1, Ht, J16.
      unfold alloy_cell_values.
      assert (Ea : forall T C g cl,
                 alloy_c_l_value a1 T C g cl = alloy_c_l_value alloy T C g cl).
      { intros. unfold alloy_c_l_value, _get_alloy_state.
        rewrite ?J5, ?J6, ?J7, ?J8, ?J9, ?J10, ?J11, ?J12, ?J13, ?J14. reflexivity. }
      rewrite Ea. apply alloy_c_l_value_again.
    + intros f Hf. rewrite (F2 f Hf), (F1 f Hf), J18, J19.
      unfold alloy_face_value, _get_alloy_state.
      rewrite ?J5, ?J6, ?J7, ?J8, ?J9, ?J10, ?J11, ?J12, ?J13, ?J14. reflexivity.
Qed.

Lemma update_again_changes_nothing_witness :
  exists s1 s2,
    call_update release_build default_statics [] quant3 step_tenth true
      solid3_voller = Done s1
    /\ call_update release_build default_statics [] quant3 step_tenth false
         s1 = Done s2
    /\ cell_view 1 s2 = cell_view 1 s1
    /\ n_g_cells s2 = n_g_cells s1.
Proof.
  destruct (update_again_changes_nothing release_build default_statics []
              quant3 step_tenth true solid3_voller ready_solid3_voller)
    as (s1 & s2 & E1 & E2 & V & N & _).
  exists s1, s2. split; [exact E1 |]. split; [exact E2 |].
  split; [apply V; simpl; lia | exact N].
Defined.

(** ** Enforcement of the solid cells *)




Lemma kill_face_lookup (f p : nat) (v : list cs_real_t) :
  kill_face f v !! p
  = if decide ((p / 3)%nat = f) then (fun _ => 0) <$> (v !! p) else v !! p.
Proof.
  unfold kill_face, cs_real_t in *.
  rewrite !list_lookup_insert, !length_insert.
  pose proof (Nat.div_mod_eq p 3) as Hd.
  pose proof (Nat.mod_upper_bound p 3 ltac:(lia)) as Hm.
  destruct (v !! p) as [x |] eqn:Ev.
  - apply lookup_lt_Some in Ev.
    repeat case_decide; simpl; try reflexivity; exfalso; lia.
  - apply lookup_ge_None in Ev.
    repeat case_decide; simpl; try reflexivity; exfalso; lia.
Qed.

Lemma kill_faces_lookup (faces : list nat) (p : nat) (v : list cs_real_t) :
  kill_faces faces v !! p
  = if decide ((p / 3)%nat ∈ faces) then (fun _ => 0) <$> (v !! p)
    else v !! p.
Proof.
  unfold kill_faces. revert v.
  induction faces as [| f faces IH]; intros v; unfold cs_real_t in *.
  - destruct (decide ((p / 3)%nat ∈ [])) as [H | H]; [| reflexivity].
    exfalso. eapply not_elem_of_nil; exact H.
  - change (fold_left (fun v0 f0 => kill_face f0 v0) (f :: faces) v)
      with (fold_left (fun v0 f0 => kill_face f0 v0) faces (kill_face f v)).
    rewrite IH, kill_face_lookup.
    destruct (decide ((p / 3)%nat ∈ faces)) as [H1 | H1];
      destruct (decide ((p / 3)%nat = f)) as [H2 | H2];
      destruct (decide ((p / 3)%nat ∈ f :: faces)) as [H3 | H3];
      try reflexivity;
      try (destruct (_ !! p); reflexivity);
      try (exfalso;
      first [ apply H3; apply list_elem_of_further; exact H1
            | apply H3; rewrite H2; apply list_elem_of_here
            | apply elem_of_cons in H3; destruct H3;
              [congruence | contradiction] ]).
Qed.

Lemma kill_faces_app (l1 l2 : list nat) (v : list cs_real_t) :
  kill_faces (l1 ++ l2) v = kill_faces l2 (kill_faces l1 v).
Proof. unfold kill_faces. apply fold_left_app. Qed.

Lemma kill_cell_faces_eq (c2f : Adjacency.cs_adjacency_t) (c_id : nat)
      (v : list cs_real_t) :
  kill_cell_faces c2f c_id v = kill_faces (cell_faces c2f c_id) v.
Proof.
  unfold kill_cell_faces, kill_faces, cell_faces.
  generalize (seq (rdn (Adjacency.idx c2f) c_id)
                (rdn (Adjacency.idx c2f) (c_id + 1)
                 - rdn (Adjacency.idx c2f) c_id)).
  intros l. revert v. induction l as [| j l IH]; intros v; simpl;
    [reflexivity | apply IH].
Qed.

(** The loop on cells zeroes the faces of the cells [_enforce_solid_cells]
    selects. *)
Lemma kill_advection_field_eq (quant : cs_cdo_quantities_t)
      (c2f : Adjacency.cs_adjacency_t) (solid : cs_solidification_t)
      (v : list cs_real_t) :
  kill_advection_field quant c2f solid v
  = kill_faces
      (selection_faces c2f
         (filter (fun c_id => rds (cell_state solid) c_id = SOLID)
            (seq 0 (n_cells quant)))) v.
Proof.
  unfold kill_advection_field, selection_faces.
  induction (n_cells quant) as [| n IH].
  - reflexivity.
  - rewrite iter_loop_S, IH, seq_S, filter_app, flat_map_app, kill_faces_app.
    simpl seq. rewrite filter_cons, filter_nil.
    repeat case_decide; try contradiction; simpl.
    + rewrite app_nil_r. apply kill_cell_faces_eq.
    + reflexivity.
Qed.

Lemma kill_faces_length (faces : list nat) (v : list cs_real_t) :
  length (kill_faces faces v) = length v.
Proof.
  unfold kill_faces. revert v.
  induction faces as [| f faces IH]; intros v; simpl; [reflexivity |].
  rewrite IH. unfold kill_face. rewrite !length_insert. reflexivity.
Qed.

Lemma selection_faces_elem (c2f : Adjacency.cs_adjacency_t)
      (quant : cs_cdo_quantities_t) (solid : cs_solidification_t) (f : nat) :
  f ∈ selection_faces c2f
        (filter (fun c_id => rds (cell_state solid) c_id = SOLID)
           (seq 0 (n_cells quant)))
  <-> exists c j,
        (c < n_cells quant)%nat /\ rds (cell_state solid) c = SOLID
        /\ (rdn (Adjacency.idx c2f) c <= j)%nat
        /\ (j < rdn (Adjacency.idx c2f) (c + 1))%nat
        /\ f = rdn (Adjacency.ids c2f) j.
Proof.
  unfold selection_faces, cell_faces.
  rewrite list_elem_of_In, in_flat_map. split.
  - intros (c & Hc & Hf). apply list_elem_of_In in Hc.
    apply list_elem_of_filter in Hc. destruct Hc as (Hs & Hc).
    apply elem_of_seq in Hc.
    apply in_map_iff in Hf. destruct Hf as (j & <- & Hj).
    apply in_seq in Hj.
    exists c, j. repeat split; try assumption; lia.
  - intros (c & j & Hc & Hs & H1 & H2 & ->).
    exists c. split.
    + apply list_elem_of_In, list_elem_of_filter. split; [exact Hs |].
      apply elem_of_seq. lia.
    + apply in_map_iff. exists j. split; [reflexivity |].
      apply in_seq. lia.
Qed.

(** X12: the loop of _enforce_solid_cells keeps the length of the velocity
    array of the advection field, sets to zero the three components of
    every face attached through c2f to a cell tagged SOLID, and leaves
    every other entry as it is. *)
Theorem enforcement_kills_solid_faces (quant : cs_cdo_quantities_t)
        (c2f : Adjacency.cs_adjacency_t) (solid : cs_solidification_t)
        (face_velocity : list cs_real_t) :
  let v' := kill_advection_field quant c2f solid face_velocity in
  length v' = length face_velocity
  /\ (forall c j k,
        (c < n_cells quant)%nat -> rds (cell_state solid) c = SOLID ->
        (rdn (Adjacency.idx c2f) c <= j)%nat ->
        (j < rdn (Adjacency.idx c2f) (c + 1))%nat ->
        (k < 3)%nat ->
        (3 * rdn (Adjacency.ids c2f) j + k < length face_velocity)%nat ->
        v' !! (3 * rdn (Adjacency.ids c2f) j + k)%nat = Some 0)
  /\ (forall p,
        (forall c j,
           (c < n_cells quant)%nat -> rds (cell_state solid) c = SOLID ->
           (rdn (Adjacency.idx c2f) c <= j)%nat ->
           (j < rdn (Adjacency.idx c2f) (c + 1))%nat ->
           (p / 3)%nat <> rdn (Adjacency.ids c2f) j) ->
        v' !! p = face_velocity !! p).
Proof.
  cbv zeta. rewrite kill_advection_field_eq.
  split; [apply kill_faces_length |]. split.
  - intros c j k Hc Hs H1 H2 Hk Hlen.
    rewrite kill_faces_lookup.
    assert (Hd : ((3 * rdn (Adjacency.ids c2f) j + k) / 3)%nat
                 = rdn (Adjacency.ids c2f) j).
    { symmetry. apply (Nat.div_unique _ 3 _ k); [exact Hk | reflexivity]. }
    rewrite Hd.
    destruct (decide _) as [_ | Hn].
    + destruct (lookup_lt_is_Some_2 face_velocity _ Hlen) as (x & ->).
      reflexivity.
    + exfalso. apply Hn. apply selection_faces_elem.
      exists c, j. repeat split; assumption.
  - intros p Hp. rewrite kill_faces_lookup.
    destruct (decide _) as [He | _]; [| reflexivity].
    exfalso. apply selection_faces_elem in He.
    destruct He as (c & j & Hc & Hs & H1 & H2 & E).
    exact (Hp c j Hc Hs H1 H2 E).
Qed.

(** X13: applying the loop of _enforce_solid_cells twice with the same
    tags gives the velocity array one application gives. *)
Theorem enforcement_idempotent (quant : cs_cdo_quantities_t)
        (c2f : Adjacency.cs_adjacency_t) (solid : cs_solidification_t)
        (face_velocity : list cs_real_t) :
  kill_advection_field quant c2f solid
    (kill_advection_field quant c2f solid face_velocity)
  = kill_advection_field quant c2f solid face_velocity.
Proof.
  rewrite !kill_advection_field_eq.
  apply list_eq. intros p. rewrite !kill_faces_lookup.
  destruct (decide _); [| reflexivity].
  unfold cs_real_t in *. destruct (_ !! p); reflexivity.
Qed.

(** ** Volume shares of the states *)












(** ** Buoyancy *)

Lemma write3_lookup (rid p : nat) (x0 x1 x2 : cs_real_t)
      (r : list cs_real_t) :
  <[(3 * rid + 2)%nat := x2]>
    (<[(3 * rid + 1)%nat := x1]> (<[(3 * rid + 0)%nat := x0]> r)) !! p
  = if decide ((p / 3)%nat = rid)
    then (fun _ => match (p mod 3)%nat with
                   | 0%nat => x0 | 1%nat => x1 | _ => x2 end) <$> (r !! p)
    else r !! p.
Proof.
  unfold cs_real_t in *.
  rewrite !list_lookup_insert, !length_insert.
  pose proof (Nat.div_mod_eq p 3) as Hd.
  pose proof (Nat.mod_upper_bound p 3 ltac:(lia)) as Hm.
  remember (p mod 3)%nat as m eqn:Em. remember (p / 3)%nat as q eqn:Eq.
  clear Em Eq.
  destruct (r !! p) as [x |] eqn:Ev.
  - apply lookup_lt_Some in Ev.
    repeat case_decide; try reflexivity;
      destruct m as [| [| [| m]]]; try reflexivity; exfalso; lia.
  - apply lookup_ge_None in Ev.
    repeat case_decide; try reflexivity; exfalso; lia.
Qed.

Lemma iter_loop_3 {S : Type} (body : nat -> S -> S) (s : S) :
  iter_loop 3 body s = body 2%nat (body 1%nat (body 0%nat s)).
Proof. reflexivity. Qed.

Lemma scatter3_spec (n : nat) (r_id : nat -> nat)
      (F : nat -> nat -> cs_real_t) (r : list cs_real_t) :
  (forall i, (i < n)%nat -> (3 * r_id i + 2 < length r)%nat) ->
  (forall i i' k, (i < n)%nat -> (i' < n)%nat -> r_id i = r_id i' ->
                  F i k = F i' k) ->
  let r' := scatter3 n r_id F r in
  length r' = length r
  /\ (forall i k, (i < n)%nat -> (k < 3)%nat ->
        r' !! (3 * r_id i + k)%nat = Some (F i k))
  /\ (forall p, (forall i, (i < n)%nat -> (p / 3)%nat <> r_id i) ->
        r' !! p = r !! p).
Proof.
  intros Hrange Hsame. cbv zeta. unfold scatter3.
  assert (Hgen : forall m, (m <= n)%nat ->
    let r' := iter_loop m
                (fun i retval =>
                   iter_loop 3
                     (fun k _r => <[(3 * r_id i + k)%nat := F i k]> _r) retval)
                r in
    length r' = length r
    /\ (forall i k, (i < m)%nat -> (k < 3)%nat ->
          r' !! (3 * r_id i + k)%nat = Some (F i k))
    /\ (forall p, (forall i, (i < m)%nat -> (p / 3)%nat <> r_id i) ->
          r' !! p = r !! p)).
  { induction m as [| m IH]; intros Hm; cbv zeta.
    - split; [reflexivity |]. split; [intros i k Hi; lia |].
      intros p _. reflexivity.
    - rewrite iter_loop_S.
      destruct (IH ltac:(lia)) as (L & V & Fr). cbv zeta in L, V, Fr.
      set (r1 := iter_loop m _ r) in *.
      rewrite iter_loop_3.
      assert (Hdiv : forall i k, (k < 3)%nat ->
                       ((3 * r_id i + k) / 3)%nat = r_id i
                       /\ ((3 * r_id i + k) mod 3)%nat = k).
      { intros i k Hk. split; symmetry.
        - apply (Nat.div_unique _ 3 _ k); [exact Hk | reflexivity].
        - apply (Nat.mod_unique _ 3 (r_id i) k); [exact Hk | reflexivity]. }
      split; [rewrite !length_insert; exact L |]. split.
      + intros i k Hi Hk. rewrite write3_lookup.
        destruct (Hdiv i k Hk) as (D1 & D2). rewrite D1, D2.
        assert (Hin : (3 * r_id i + k < length r1)%nat)
          by (rewrite L; specialize (Hrange i ltac:(lia)); lia).
        destruct (decide (r_id i = r_id m)) as [E | N].
        * destruct (lookup_lt_is_Some_2 r1 _ Hin) as (x & ->). simpl.
          f_equal. rewrite (Hsame i m k ltac:(lia) ltac:(lia) E).
          destruct k as [| [| [| k]]]; try reflexivity; lia.
        * apply V; [| exact Hk].
          destruct (decide (i = m)) as [-> | Hne]; [contradiction | lia].
      + intros p Hp. rewrite write3_lookup.
        destruct (decide ((p / 3)%nat = r_id m)) as [E | N].
        * exfalso. apply (Hp m); [lia | exact E].
        * apply Fr. intros i Hi. apply Hp. lia. }
  apply (Hgen n). lia.
Qed.

Lemma rd_of_lookup (l : list cs_real_t) (p : nat) (x : cs_real_t) :
  l !! p = Some x -> rd l p = x.
Proof. intros E. unfold rd, cs_real_t in *. rewrite E. reflexivity. Qed.

Lemma result_id_same {A : Type} (elt_ids : option (list nat)) (compact : bool)
      (F : nat -> A) (i i' : nat) :
  result_id elt_ids compact i = result_id elt_ids compact i' ->
  F (elt_id elt_ids i) = F (elt_id elt_ids i').
Proof.
  unfold result_id. destruct compact; intros E; rewrite E; reflexivity.
Qed.

(** X16: _temp_boussinesq_source_term, given an array with room for the
    selected elements, returns; it writes for element i the three entries
    3 r_id + k (r_id = i when compact, elt_ids[i] otherwise) with
    rho0 (-beta (var[id] - var0)) g[k], which is zero where the variable
    has its reference value; it keeps the length of the array and leaves
    the entries of the other elements as they are. *)
Theorem temp_boussinesq_values (b : build_t) (n_elts : nat)
        (elt_ids : option (list nat)) (compact : bool)
        (bq : Boussinesq.cs_source_term_boussinesq_t)
        (retval : list cs_real_t) :
  (forall i, (i < n_elts)%nat ->
     (3 * result_id elt_ids compact i + 2 < length retval)%nat) ->
  exists r',
    _temp_boussinesq_source_term b n_elts elt_ids compact (Some bq)
      (Some retval) = Done (Some r')
    /\ length r' = length retval
    /\ (forall i k, (i < n_elts)%nat -> (k < 3)%nat ->
          let id := elt_id elt_ids i in
          let T := rd (Boussinesq.var bq) id in
          let p := (3 * result_id elt_ids compact i + k)%nat in
          r' !! p
          = Some (Boussinesq.rho0 bq
                  * (- Boussinesq.beta bq * (T - Boussinesq.var0 bq))
                  * rd (Boussinesq.g bq) k)
          /\ (T == Boussinesq.var0 bq -> rd r' p == 0))
    /\ (forall p,
          (forall i, (i < n_elts)%nat ->
             (p / 3)%nat <> result_id elt_ids compact i) ->
          r' !! p = retval !! p).
Proof.
  intros Hrange.
  unfold _temp_boussinesq_source_term. rewrite c_assert_true.
  cbv beta iota delta [mbind outcome_bind].
  eexists. split; [reflexivity |].
  set (F := fun (i k : nat) =>
              Boussinesq.rho0 bq
              * (- Boussinesq.beta bq
                 * (rd (Boussinesq.var bq) (elt_id elt_ids i)
                    - Boussinesq.var0 bq))
              * rd (Boussinesq.g bq) k).
  assert (Hsame : forall i i' k, (i < n_elts)%nat -> (i' < n_elts)%nat ->
                    result_id elt_ids compact i = result_id elt_ids compact i' ->
                    F i k = F i' k).
  { intros i i' k _ _ E.
    apply (result_id_same elt_ids compact
             (fun id => Boussinesq.rho0 bq
                        * (- Boussinesq.beta bq
                           * (rd (Boussinesq.var bq) id - Boussinesq.var0 bq))
                        * rd (Boussinesq.g bq) k) i i' E). }
  destruct (scatter3_spec n_elts (result_id elt_ids compact) F retval Hrange
              Hsame) as (L & V & Fr).
  split; [exact L |]. split; [| exact Fr].
  intros i k Hi Hk.
  pose proof (V i k Hi Hk) as Vp.
  split; [exact Vp |].
  intros ET.
  match goal with
  | |- rd ?R ?p == 0 =>
      assert (Hrd : rd R p = F i k) by (apply rd_of_lookup; exact Vp);
      rewrite Hrd
  end.
  unfold F. rewrite ET. unfold cs_real_t. ring.
Qed.

Lemma temp_boussinesq_values_witness :
  exists r',
    _temp_boussinesq_source_term release_build 2 None true (Some bq_two)
      (Some [0; 0; 0; 0; 0; 0]) = Done (Some r')
    /\ r' !! 5%nat
       = Some (2 * (- (1 # 100) * (30 - 20)) * -10)
    /\ rd r' 2 == 0.
Proof.
  destruct (temp_boussinesq_values release_build 2 None true bq_two
              [0; 0; 0; 0; 0; 0])
    as (r' & E & _ & H & _).
  - intros i Hi. unfold result_id. simpl. lia.
  - exists r'. split; [exact E |]. split.
    + destruct (H 1%nat 2%nat) as (H1 & _); [lia | lia |]. exact H1.
    + destruct (H 0%nat 2%nat) as (_ & H2); [lia | lia |].
      apply H2. reflexivity.
Defined.



(** ** Life cycle *)

(** X19: a model word of at least 1 with neither the Voller nor the
    binary-alloy bit passes cs_solidification_activate, which leaves the
    module activated with no update function; cs_solidification_finalize_setup
    then stops with its message, and cs_solidification_compute would call
    through the NULL function pointer. *)
Theorem unhandled_model_fails_late (b : build_t) (st : statics_t)
        (fresh_v : Voller.cs_solidification_voller_t)
        (fresh_a : Alloy.cs_solidification_binary_alloy_t)
        (rho : cs_real_t) (model_ options_ post_flag_ : Z)
        (temperature_field : list cs_real_t) (thermal_reaction_coef : bool)
        (peers_n : list (list Z)) (peers_vol : list (list cs_real_t))
        (quant : cs_cdo_quantities_t) (ts : cs_time_step_t) :
  (1 <= model_)%Z ->
  flag_test model_ (CS_SOLIDIFICATION_MODEL_VOLLER_PRAKASH_87 b) = false ->
  flag_test model_ (CS_SOLIDIFICATION_MODEL_BINARY_ALLOY b) = false ->
  exists solid,
    cs_solidification_activate b fresh_v fresh_a rho model_ options_
      post_flag_ = Done solid
    /\ cs_solidification_is_activated (Some solid) = true
    /\ fatal (cs_solidification_finalize_setup b temperature_field
                thermal_reaction_coef quant (Some solid))
    /\ cs_solidification_compute b st peers_n peers_vol quant ts (Some solid)
       = Undefined.
Proof.
  intros Hm HV HA. unfold cs_solidification_activate.
  assert (Hlt : (model_ <? 1)%Z = false) by (apply Z.ltb_ge; exact Hm).
  rewrite Hlt, HV, HA.
  eexists. split; [reflexivity |]. split; [reflexivity |].
  split.
  - unfold cs_solidification_finalize_setup. simpl. rewrite HV, HA. simpl.
    eexists. reflexivity.
  - reflexivity.
Qed.

Lemma unhandled_model_fails_late_witness :
  exists solid,
    cs_solidification_activate release_build voller_1700_1730 alloy_half 2
      1 0 0 = Done solid
    /\ fatal (cs_solidification_finalize_setup release_build [] true quant3
                (Some solid)).
Proof.
  destruct (unhandled_model_fails_late release_build default_statics
              voller_1700_1730 alloy_half 2 1 0 0 [] true [] [] quant3
              step_tenth)
    as (solid & E & _ & F & _).
  - lia.
  - reflexivity.
  - reflexivity.
  - exists solid. split; [exact E | exact F].
Defined.

(** X20: a model word with both the Voller and the binary-alloy bit passes
    cs_solidification_activate, which allocates the Voller block only and
    selects the Voller updater; the alloy setter, cs_solidification_finalize_setup
    and cs_solidification_destroy_all, which test the alloy bit on its own,
    then use that block as an alloy block. *)
Theorem both_models_use_voller_block_as_alloy (b : build_t) (st : statics_t)
        (fresh_v : Voller.cs_solidification_voller_t)
        (fresh_a : Alloy.cs_solidification_binary_alloy_t)
        (rho : cs_real_t) (model_ options_ post_flag_ : Z)
        (temperature_field : list cs_real_t) (thermal_reaction_coef : bool)
        (quant : cs_cdo_quantities_t)
        (conc0 beta kp mliq t_eutec t_melt solute_diff
         latent_heat forcing_coef : cs_real_t) :
  (1 <= model_)%Z ->
  flag_test model_ (CS_SOLIDIFICATION_MODEL_VOLLER_PRAKASH_87 b) = true ->
  flag_test model_ (CS_SOLIDIFICATION_MODEL_BINARY_ALLOY b) = true ->
  exists solid,
    cs_solidification_activate b fresh_v fresh_a rho model_ options_
      post_flag_ = Done solid
    /\ model_context solid = VollerContext fresh_v
    /\ update solid = update_voller
    /\ cs_solidification_set_binary_alloy_model b st (Some solid) conc0 beta
         kp mliq t_eutec t_melt solute_diff latent_heat forcing_coef
       = Undefined
    /\ cs_solidification_finalize_setup b temperature_field
         thermal_reaction_coef quant (Some solid) = Undefined
    /\ cs_solidification_destroy_all b (pointer_to solid) = Undefined.
Proof.
  intros Hm HV HA. unfold cs_solidification_activate.
  assert (Hlt : (model_ <? 1)%Z = false) by (apply Z.ltb_ge; exact Hm).
  rewrite Hlt, HV.
  eexists. split; [reflexivity |]. split; [reflexivity |].
  split; [reflexivity |].
  split.
  { unfold cs_solidification_set_binary_alloy_model. simpl. rewrite HA.
    rewrite c_assert_true. reflexivity. }
  split.
  - unfold cs_solidification_finalize_setup. simpl. rewrite HV, HA. simpl.
    destruct thermal_reaction_coef; simpl; rewrite HA; reflexivity.
  - unfold cs_solidification_destroy_all. simpl. rewrite HV, HA. reflexivity.
Qed.

Lemma both_models_use_voller_block_as_alloy_witness :
  exists solid,
    cs_solidification_activate release_build voller_1700_1730 alloy_half 2
      48 0 0 = Done solid
    /\ model_context solid = VollerContext voller_1700_1730
    /\ cs_solidification_destroy_all release_build (pointer_to solid)
       = Undefined.
Proof.
  destruct (both_models_use_voller_block_as_alloy release_build
              default_statics voller_1700_1730 alloy_half 2 48 0 0 [] true
              quant3 0 0 (1 # 2) (-100) 900 1000 0 1 1)
    as (solid & E & C & _ & _ & _ & D).
  - lia.
  - reflexivity.
  - reflexivity.
  - exists solid. split; [exact E |]. split; [exact C | exact D].
Defined.

(** * Properties in double precision *)

Import Binary64.

(** ** Order of the doubles *)

Lemma compare_cont_eq (p q : positive) :
  Pos.compare_cont Eq p q = Pos.compare p q.
Proof. reflexivity. Qed.

Ltac order_cases :=
  repeat match goal with
    | H : context [Z.compare ?a ?b] |- _ =>
        destruct (Z.compare_spec a b)
    | |- context [Z.compare ?a ?b] =>
        destruct (Z.compare_spec a b)
    | H : context [Pos.compare ?a ?b] |- _ =>
        destruct (Pos.compare_spec a b)
    | |- context [Pos.compare ?a ?b] =>
        destruct (Pos.compare_spec a b)
    end.

Lemma SFcompare_antisym (x y : double) :
  SFcompare y x = option_map CompOpp (SFcompare x y).
Proof.
  destruct x as [sx|sx| |sx mx ex], y as [sy|sy| |sy my ey]; simpl;
    try reflexivity;
    try (destruct sx; reflexivity); try (destruct sy; reflexivity);
    try (destruct sx, sy; reflexivity).
  rewrite !compare_cont_eq.
  destruct sx, sy; try reflexivity;
    rewrite (Z.compare_antisym ex ey), (Pos.compare_antisym mx my);
    destruct (ex ?= ey)%Z; simpl; try reflexivity;
    destruct (mx ?= my)%positive; reflexivity.
Qed.


Lemma leb_not_nan (x y : double) :
  leb x y = true -> is_nan x = false /\ is_nan y = false.
Proof.
  unfold leb, SFleb. destruct x, y; simpl; try discriminate; auto.
Qed.




Lemma ltb_asym (x y : double) : ltb x y = true -> ltb y x = false.
Proof.
  unfold ltb, SFltb. rewrite (SFcompare_antisym x y).
  destruct (SFcompare x y) as [[]|]; simpl; intros; try reflexivity;
    discriminate.
Qed.

Lemma leb_ltb_false (x y : double) : leb x y = true -> ltb y x = false.
Proof.
  unfold ltb, leb, SFltb, SFleb. rewrite (SFcompare_antisym x y).
  destruct (SFcompare x y) as [[]|]; simpl; intros; try reflexivity;
    discriminate.
Qed.

Lemma compare_cont_pos (p q : positive) :
  PosDef.Pos.compare_cont Eq p q = (Z.pos p ?= Z.pos q)%Z.
Proof. reflexivity. Qed.

Lemma compare_key (x y : double) :
  is_nan x = false -> is_nan y = false ->
  exists c, SFcompare x y = Some c
            /\ (c = Lt <-> order_key_lt (order_key x) (order_key y))
            /\ (c = Eq <-> order_key x = order_key y).
Proof.
  destruct x as [sx|sx| |sx mx ex], y as [sy|sy| |sy my ey]; simpl;
    try discriminate; intros _ _; eexists; (split; [reflexivity |]);
    repeat match goal with s : bool |- _ => destruct s end;
    unfold order_key_lt; simpl;
    try (split; split; intros; try discriminate; try reflexivity; lia).
  - rewrite compare_cont_pos.
    destruct (Z.compare_spec ex ey); [destruct (Z.compare_spec (Z.pos mx) (Z.pos my)) |..];
      simpl; split; split; intros H'; try discriminate; try reflexivity;
      try lia; try (injection H'; intros; lia); try (f_equal; lia);
      try (subst; f_equal; f_equal; lia).
  - rewrite compare_cont_pos.
    destruct (Z.compare_spec ex ey); [destruct (Z.compare_spec (Z.pos mx) (Z.pos my)) |..];
      simpl; split; split; intros H'; try discriminate; try reflexivity;
      try lia; try (injection H'; intros; lia); try (f_equal; lia);
      try (subst; f_equal; f_equal; lia).
Qed.


Lemma leb_key (x y : double) :
  leb x y = true <->
  is_nan x = false /\ is_nan y = false
  /\ (order_key_lt (order_key x) (order_key y) \/ order_key x = order_key y).
Proof.
  split.
  - intros H. destruct (leb_not_nan x y H) as (Hx & Hy).
    split; [exact Hx |]. split; [exact Hy |].
    destruct (compare_key x y Hx Hy) as (c & E & Hlt & Heq).
    unfold leb, SFleb in H. rewrite E in H.
    destruct c; try discriminate;
      [right; apply Heq | left; apply Hlt]; reflexivity.
  - intros (Hx & Hy & Hk).
    destruct (compare_key x y Hx Hy) as (c & E & Hlt & Heq).
    unfold leb, SFleb. rewrite E.
    destruct Hk as [Hk | Hk]; [apply Hlt in Hk | apply Heq in Hk]; subst c;
      reflexivity.
Qed.

Lemma key_lt_trans (k1 k2 k3 : Z * Z * Z) :
  order_key_lt k1 k2 -> order_key_lt k2 k3 -> order_key_lt k1 k3.
Proof.
  destruct k1 as [[a1 b1] c1], k2 as [[a2 b2] c2], k3 as [[a3 b3] c3].
  unfold order_key_lt. lia.
Qed.



Lemma leb_trans (x y z : double) :
  leb x y = true -> leb y z = true -> leb x z = true.
Proof.
  rewrite !leb_key. intros (Hx & _ & H1) (_ & Hz & H2).
  split; [exact Hx |]. split; [exact Hz |].
  destruct H1 as [H1 | ->]; [| exact H2].
  destruct H2 as [H2 | <-]; [left; eapply key_lt_trans; eassumption |].
  left. exact H1.
Qed.

(** ** Results that are not NaN *)









(** ** Exact results *)

(** [x - x] is +0 for a finite [x]. *)
Lemma sub_diag (x : double) : is_finite x = true -> sub x x = zero.
Proof.
  destruct x as [s|s| |s m e]; simpl; try discriminate; intros _.
  - destruct s; reflexivity.
  - rewrite Z.sub_diag. reflexivity.
Qed.

(** A quotient by a zero is a NaN or an infinity. *)
Lemma div_zero_not_finite (x : double) (s : bool) :
  is_finite (div x (S754_zero s)) = false.
Proof. destruct x as [sx|sx| |sx mx ex]; reflexivity. Qed.

(** So is what [1 +] makes of it. *)
Lemma add_one_not_finite (x : double) :
  is_finite x = false -> is_finite (add one x) = false.
Proof. destruct x as [sx|sx| |sx mx ex]; try discriminate; reflexivity. Qed.

Local Open Scope b64_scope.

(** ** Arrays of doubles *)

Lemma rd_insert_eq_b64 (a : list B64.cs_real_t) (i : nat) (x : B64.cs_real_t) :
  (i < length a)%nat -> B64.rd (<[i := x]> a) i = x.
Proof.
  intros H. unfold B64.rd. rewrite list_lookup_insert_eq by exact H.
  reflexivity.
Qed.

Lemma rd_insert_ne_b64 (a : list B64.cs_real_t) (i j : nat)
      (x : B64.cs_real_t) :
  i <> j -> B64.rd (<[i := x]> a) j = B64.rd a j.
Proof.
  intros H. unfold B64.rd. rewrite list_lookup_insert_ne by exact H.
  reflexivity.
Qed.

(** Case analysis on the comparisons of the goal, keeping what each test
    returned. *)
Ltac test_cases :=
  repeat match goal with
    | |- context [ltb ?a ?b] =>
        let E := fresh "E" in destruct (ltb a b) eqn:E
    | |- context [leb ?a ?b] =>
        let E := fresh "E" in destruct (leb a b) eqn:E
    end.

Ltac test_cases_in H :=
  repeat match type of H with
    | context [ltb ?a ?b] =>
        let E := fresh "E" in destruct (ltb a b) eqn:E
    | context [leb ?a ?b] =>
        let E := fresh "E" in destruct (leb a b) eqn:E
    end.

(** ** The Voller pass in double precision *)

Section VollerCellB64.

Variable st : B64.statics_t.
Variable v_model : B64.Voller.cs_solidification_voller_t.
Variable quant : B64.cs_cdo_quantities_t.
Variables dgldT inv_forcing_eps dgldT_coef : B64.cs_real_t.

Let body := B64.voller_cell st v_model quant dgldT inv_forcing_eps dgldT_coef.

Lemma voller_cell_stores (c : nat) (s : B64.cs_solidification_t) :
  B64.sized quant s -> (c < B64.n_cells quant)%nat ->
  B64.cell_view c (body c s)
  = B64.voller_values st v_model dgldT inv_forcing_eps dgldT_coef
      (B64.rd (B64.temperature s) c) (B64.rd (B64.cell_vol quant) c).
Proof.
  intros [] Hc. unfold body, B64.voller_cell, B64.voller_values, B64.cell_view.
  test_cases; simpl; rewrite !rd_insert_eq_b64, rds_insert_eq by lia;
    reflexivity.
Qed.

Lemma voller_cell_elsewhere (c c' : nat) (s : B64.cs_solidification_t) :
  c <> c' -> B64.cell_view c' (body c s) = B64.cell_view c' s.
Proof.
  intros Hc. unfold body, B64.voller_cell, B64.cell_view.
  test_cases; simpl; rewrite !rd_insert_ne_b64, rds_insert_ne by exact Hc;
    reflexivity.
Qed.

Lemma voller_cell_keeps_size (c : nat) (s : B64.cs_solidification_t) :
  B64.sized quant s -> B64.sized quant (body c s).
Proof.
  intros []. unfold body, B64.voller_cell.
  test_cases; split; simpl; rewrite ?length_insert; assumption.
Qed.

Lemma voller_cell_keeps_inputs (c : nat) (s0 s : B64.cs_solidification_t) :
  B64.same_inputs s0 s -> B64.same_inputs s0 (body c s).
Proof.
  intros H. unfold body, B64.voller_cell. test_cases; exact H.
Qed.

End VollerCellB64.

Lemma sized_previous_b64 quant s :
  B64.sized quant s -> B64.sized quant (B64.g_l_current_to_previous s).
Proof. intros []. split; assumption. Qed.

Lemma sized_counters_b64 quant n s :
  B64.sized quant s -> B64.sized quant (B64.set_n_g_cells n s).
Proof. intros []. split; assumption. Qed.

Lemma voller_values_classified (st : B64.statics_t)
      (v_model : B64.Voller.cs_solidification_voller_t)
      (dgldT inv_forcing_eps dgldT_coef T vol : B64.cs_real_t) :
  snd (fst (B64.voller_values st v_model dgldT inv_forcing_eps dgldT_coef
              T vol))
  <> CS_SOLIDIFICATION_N_STATES.
Proof. unfold B64.voller_values. test_cases; discriminate. Qed.

Lemma voller_values_never_eutectic (st : B64.statics_t)
      (v_model : B64.Voller.cs_solidification_voller_t)
      (dgldT inv_forcing_eps dgldT_coef T vol : B64.cs_real_t) :
  let x := snd (fst (B64.voller_values st v_model dgldT inv_forcing_eps
                       dgldT_coef T vol)) in
  x = SOLID \/ x = MUSHY \/ x = LIQUID.
Proof. unfold B64.voller_values. test_cases; simpl; auto. Qed.

Lemma voller_cell_moves_counter (st : B64.statics_t)
      (v_model : B64.Voller.cs_solidification_voller_t)
      (quant : B64.cs_cdo_quantities_t)
      (dgldT inv_forcing_eps dgldT_coef : B64.cs_real_t)
      (c : nat) (s : B64.cs_solidification_t) (vol : B64.cs_real_t) :
  B64.n_g_cells
    (B64.voller_cell st v_model quant dgldT inv_forcing_eps dgldT_coef c s)
  = incr (snd (fst (B64.voller_values st v_model dgldT inv_forcing_eps
                      dgldT_coef (B64.rd (B64.temperature s) c) vol)))
      (B64.n_g_cells s).
Proof. unfold B64.voller_cell, B64.voller_values. test_cases; reflexivity. Qed.

Lemma sized_below_64_bits (quant : B64.cs_cdo_quantities_t)
      (s : B64.cs_solidification_t) :
  B64.sized quant s -> (Z.of_nat (B64.n_cells quant) < 2 ^ 64)%Z.
Proof. intros []. lia. Qed.

(** The loop on cells returns; each cell then holds the values of its
    branch, and the counters count each cell once, under the tag it
    stores. *)
Lemma voller_pass_values (st : B64.statics_t) (quant : B64.cs_cdo_quantities_t)
      (ts : B64.cs_time_step_t) (cur2prev : bool)
      (solid : B64.cs_solidification_t)
      (v_model : B64.Voller.cs_solidification_voller_t) :
  B64.model_context solid = B64.VollerContext v_model ->
  B64.sized quant solid ->
  exists s',
    B64.voller_local st quant ts cur2prev solid = Done s'
    /\ B64.sized quant s' /\ B64.same_inputs solid s'
    /\ (forall c, (c < B64.n_cells quant)%nat ->
          B64.cell_view c s'
          = B64.voller_cell_values st quant ts solid v_model c)
    /\ no_eutectic (B64.n_g_cells s')
    /\ tallied (fun c => rds (B64.cell_state s') c) (B64.n_cells quant)
         (B64.n_g_cells s').
Proof.
  intros Hctx Hsz. pose proof (sized_below_64_bits _ _ Hsz) as Hn.
  unfold B64.voller_local. rewrite Hctx.
  eexists. split; [reflexivity |].
  set (s0 := B64.set_n_g_cells (zeros4 0%Z)
               (if cur2prev then B64.g_l_current_to_previous solid else solid)).
  assert (Hsz0 : B64.sized quant s0)
    by (apply sized_counters_b64; destruct cur2prev;
        [apply sized_previous_b64 |]; exact Hsz).
  assert (Hin0 : B64.same_inputs solid s0)
    by (destruct cur2prev; repeat split).
  assert (Hrho : B64.mass_density s0 = B64.mass_density solid) by apply Hin0.
  rewrite Hrho.
  set (f := fun c : nat =>
              snd (fst (B64.voller_cell_values st quant ts solid v_model c))).
  pose (I := fun (k : nat) (s : B64.cs_solidification_t) =>
    B64.sized quant s /\ B64.same_inputs solid s
    /\ (forall c, (c < k)%nat ->
          B64.cell_view c s
          = B64.voller_cell_values st quant ts solid v_model c)
    /\ no_eutectic (B64.n_g_cells s)
    /\ tallied f k (B64.n_g_cells s)).
  match goal with
  | |- context [iter_loop ?n ?body ?s] =>
      assert (HI : I n (iter_loop n body s)); [apply iter_loop_rule |]
  end.
  - split; [exact Hsz0 |]. split; [exact Hin0 |].
    split; [intros c Hc; lia |].
    split; [apply no_eutectic_zeros | apply tallied_zeros].
  - intros i s Hi (Hs & Hin & Hv & Hz & Ht).
    split; [apply voller_cell_keeps_size; exact Hs |].
    split; [apply voller_cell_keeps_inputs; exact Hin |].
    rewrite (voller_cell_moves_counter _ _ _ _ _ _ _ _
               (B64.rd (B64.cell_vol quant) i)).
    pose proof Hin as (HT & _).
    split; [| rewrite HT; split].
    + intros c Hc. destruct (decide (c = i)) as [-> | Hne].
      * rewrite voller_cell_stores by assumption.
        rewrite HT. reflexivity.
      * rewrite voller_cell_elsewhere by congruence. apply Hv. lia.
    + apply no_eutectic_incr; [| exact Hz].
      apply voller_values_never_eutectic.
    + apply (tallied_incr_eq f); [reflexivity | lia | | exact Ht].
      apply voller_values_classified.
  - destruct HI as (H1 & H2 & H3 & H4 & H5).
    repeat (split; [assumption |]).
    eapply tallied_ext; [| exact H5].
    intros c Hc. unfold f. rewrite <- (H3 c Hc). reflexivity.
Qed.

(** ** The binary-alloy pass in double precision *)

Section AlloyCellB64.

Variable st : B64.statics_t.
Variable quant : B64.cs_cdo_quantities_t.
Variables rhoLovdt inv_kpm1 eut_slope inv_forcing_eps : B64.cs_real_t.

Let body := B64.alloy_cell st quant rhoLovdt inv_kpm1 eut_slope inv_forcing_eps.

(** One step of the loop on cells: it returns, writes cell [c] of each
    array, and moves one counter. *)
Lemma alloy_cell_stores (c : nat) (s : B64.cs_solidification_t)
      (a : B64.Alloy.cs_solidification_binary_alloy_t) :
  B64.sized quant s -> length (B64.Alloy.c_l_val a) = B64.n_cells quant ->
  (c < B64.n_cells quant)%nat ->
  let temp := B64.rd (B64.temperature s) c in
  let conc := B64.rd (B64.Alloy.solute_val a) c in
  exists s' a',
    body c (s, a) = Done (s', a')
    /\ B64.sized quant s'
    /\ length (B64.Alloy.c_l_val a') = B64.n_cells quant
    /\ B64.same_inputs s s'
    /\ a' = B64.Alloy.with_c_l_val (B64.Alloy.c_l_val a') a
    /\ B64.cell_view c s'
       = B64.alloy_values st a rhoLovdt inv_kpm1 eut_slope inv_forcing_eps
           temp conc (B64.rd (B64.Alloy.solute_val_pre a) c)
           (B64.rd (B64.cell_vol quant) c)
    /\ B64.rd (B64.Alloy.c_l_val a') c
       = B64.alloy_c_l_value a temp conc (B64.rd (B64.g_l_val s) c)
           (B64.rd (B64.Alloy.c_l_val a) c)
    /\ (forall c', c' <> c ->
          B64.cell_view c' s' = B64.cell_view c' s
          /\ B64.rd (B64.g_l_val s') c' = B64.rd (B64.g_l_val s) c'
          /\ B64.rd (B64.Alloy.c_l_val a') c'
             = B64.rd (B64.Alloy.c_l_val a) c')
    /\ B64.n_g_cells s'
       = incr (counted_state (B64.state_of (B64._get_alloy_state a temp conc)))
           (B64.n_g_cells s)
    /\ B64.state_of (B64._get_alloy_state a temp conc)
       <> CS_SOLIDIFICATION_N_STATES.
Proof.
  intros Hsz Hcl Hc temp conc. destruct Hsz. destruct a.
  unfold body, B64.alloy_cell, B64.alloy_values, B64.alloy_c_l_value,
    B64.state_of, B64._get_alloy_state, B64.cell_view, B64.same_inputs.
  fold temp. simpl in *. fold conc.
  test_cases; simpl;
    (eexists; eexists; split; [reflexivity |]);
    (split; [split; simpl; rewrite ?length_insert; assumption |]);
    simpl; rewrite ?length_insert;
    (split; [assumption |]);
    (split; [repeat split |]);
    (split; [reflexivity |]);
    rewrite ?rd_insert_eq_b64, ?rds_insert_eq by lia;
    (split; [reflexivity |]);
    (split; [reflexivity |]);
    (split; [intros c' Hne;
             rewrite ?rd_insert_ne_b64, ?rds_insert_ne by congruence;
             repeat split |]);
    (split; [reflexivity | discriminate]).
Qed.

End AlloyCellB64.

Lemma same_inputs_trans_b64 (s0 s1 s2 : B64.cs_solidification_t) :
  B64.same_inputs s0 s1 -> B64.same_inputs s1 s2 -> B64.same_inputs s0 s2.
Proof. intros (A1 & A2) (B1 & B2). split; congruence. Qed.

(** The loop on cells returns; each cell then holds the values its state
    calls for, and the counters tally the states with EUTECTIC counted as
    MUSHY. *)
Lemma alloy_cells_values (st : B64.statics_t) (quant : B64.cs_cdo_quantities_t)
      (rhoLovdt inv_kpm1 eut_slope inv_forcing_eps : B64.cs_real_t)
      (s0 : B64.cs_solidification_t)
      (a0 : B64.Alloy.cs_solidification_binary_alloy_t) :
  B64.sized quant s0 -> length (B64.Alloy.c_l_val a0) = B64.n_cells quant ->
  B64.n_g_cells s0 = zeros4 0%Z ->
  exists s' a',
    for_loop (B64.n_cells quant)
      (B64.alloy_cell st quant rhoLovdt inv_kpm1 eut_slope inv_forcing_eps)
      (s0, a0) = Done (s', a')
    /\ B64.sized quant s'
    /\ B64.same_inputs s0 s'
    /\ (forall c, (c < B64.n_cells quant)%nat ->
          B64.cell_view c s'
          = B64.alloy_values st a0 rhoLovdt inv_kpm1 eut_slope inv_forcing_eps
              (B64.rd (B64.temperature s0) c) (B64.rd (B64.Alloy.solute_val a0) c)
              (B64.rd (B64.Alloy.solute_val_pre a0) c)
              (B64.rd (B64.cell_vol quant) c)
          /\ B64.rd (B64.Alloy.c_l_val a') c
             = B64.alloy_c_l_value a0 (B64.rd (B64.temperature s0) c)
                 (B64.rd (B64.Alloy.solute_val a0) c)
                 (B64.rd (B64.g_l_val s0) c) (B64.rd (B64.Alloy.c_l_val a0) c))
    /\ no_eutectic (B64.n_g_cells s')
    /\ tallied
         (fun c => counted_state (B64.alloy_cell_state s0 a0 c))
         (B64.n_cells quant) (B64.n_g_cells s').
Proof.
  intros Hsz Hcl Hzero.
  pose proof (sized_below_64_bits _ _ Hsz) as Hn.
  set (f := fun c : nat => counted_state (B64.alloy_cell_state s0 a0 c)).
  pose (I := fun (k : nat)
                 (sa : B64.cs_solidification_t
                       * B64.Alloy.cs_solidification_binary_alloy_t) =>
    let s := fst sa in
    let a := snd sa in
    B64.sized quant s /\ length (B64.Alloy.c_l_val a) = B64.n_cells quant
    /\ B64.same_inputs s0 s
    /\ (exists l, a = B64.Alloy.with_c_l_val l a0)
    /\ (forall c, (c < k)%nat ->
          B64.cell_view c s
          = B64.alloy_values st a0 rhoLovdt inv_kpm1 eut_slope inv_forcing_eps
              (B64.rd (B64.temperature s0) c) (B64.rd (B64.Alloy.solute_val a0) c)
              (B64.rd (B64.Alloy.solute_val_pre a0) c)
              (B64.rd (B64.cell_vol quant) c)
          /\ B64.rd (B64.Alloy.c_l_val a) c
             = B64.alloy_c_l_value a0 (B64.rd (B64.temperature s0) c)
                 (B64.rd (B64.Alloy.solute_val a0) c)
                 (B64.rd (B64.g_l_val s0) c) (B64.rd (B64.Alloy.c_l_val a0) c))
    /\ (forall c, (k <= c)%nat ->
          B64.rd (B64.g_l_val s) c = B64.rd (B64.g_l_val s0) c
          /\ B64.rd (B64.Alloy.c_l_val a) c = B64.rd (B64.Alloy.c_l_val a0) c)
    /\ no_eutectic (B64.n_g_cells s)
    /\ tallied f k (B64.n_g_cells s)).
  destruct (for_loop_rule I (B64.n_cells quant)
              (B64.alloy_cell st quant rhoLovdt inv_kpm1 eut_slope
                 inv_forcing_eps)
              (s0, a0)) as ([s' a'] & E & HI).
  - unfold I; simpl. split; [exact Hsz |]. split; [exact Hcl |].
    split; [split; reflexivity |].
    split; [exists (B64.Alloy.c_l_val a0); destruct a0; reflexivity |].
    split; [intros c Hc; lia |].
    split; [intros c _; split; reflexivity |].
    rewrite Hzero.
    split; [apply no_eutectic_zeros | apply tallied_zeros].
  - intros i [s a] Hi (Hs & Hl & Hin & (l & Ha) & Hdone & Htodo & Hz & Hc).
    simpl in Hs, Hl, Hin, Ha, Hdone, Htodo, Hz, Hc.
    destruct (alloy_cell_stores st quant rhoLovdt inv_kpm1 eut_slope
                inv_forcing_eps i s a Hs Hl Hi)
      as (s1 & a1 & E1 & Hs1 & Hl1 & Hin1 & Ha1 & Hv1 & Hc1 & Hfr & Hn1 & Hne).
    exists (s1, a1). split; [exact E1 |].
    unfold I; simpl.
    split; [exact Hs1 |]. split; [exact Hl1 |].
    split; [exact (same_inputs_trans_b64 _ _ _ Hin Hin1) |].
    split; [exists (B64.Alloy.c_l_val a1); rewrite Ha1, Ha; reflexivity |].
    assert (Ht : B64.temperature s = B64.temperature s0) by apply Hin.
    destruct (Htodo i (Nat.le_refl i)) as (Hg_i & Hcl_i).
    assert (Hst : let x := counted_state
                             (B64.state_of
                                (B64._get_alloy_state a
                                   (B64.rd (B64.temperature s) i)
                                   (B64.rd (B64.Alloy.solute_val a) i))) in
                  x = SOLID \/ x = MUSHY \/ x = LIQUID).
    { revert Hne.
      destruct (B64.state_of
                  (B64._get_alloy_state a (B64.rd (B64.temperature s) i)
                     (B64.rd (B64.Alloy.solute_val a) i)));
        simpl; intros Hne; auto; contradiction. }
    split; [| split; [| split]].
    + intros c Hc'. destruct (decide (c = i)) as [-> | Hci].
      * rewrite Hv1, Hc1, Ht, Hg_i, Hcl_i, Ha. split; reflexivity.
      * destruct (Hfr c Hci) as (F1 & _ & F3). rewrite F1, F3.
        apply Hdone. lia.
    + intros c Hc'. destruct (Hfr c) as (_ & F2 & F3); [lia |].
      rewrite F2, F3. apply Htodo. lia.
    + rewrite Hn1. apply no_eutectic_incr; [exact Hst | exact Hz].
    + rewrite Hn1.
      assert (Ef : counted_state
                     (B64.state_of
                        (B64._get_alloy_state a (B64.rd (B64.temperature s) i)
                           (B64.rd (B64.Alloy.solute_val a) i))) = f i)
        by (unfold f, B64.alloy_cell_state; rewrite Ht, Ha; reflexivity).
      apply (tallied_incr_eq f); [exact Ef | lia | | exact Hc].
      cbv zeta in Hst. destruct Hst as [-> | [-> | ->]]; discriminate.
  - exists s', a'.
    destruct HI as (H1 & _ & H3 & _ & H5 & _ & H7 & H8).
    repeat (split; [assumption |]). exact H8.
Qed.

Lemma alloy_values_tag (st : B64.statics_t)
      (alloy : B64.Alloy.cs_solidification_binary_alloy_t)
      (rhoLovdt inv_kpm1 eut_slope inv_forcing_eps
       temp conc conc_prev vol : B64.cs_real_t) :
  snd (fst (B64.alloy_values st alloy rhoLovdt inv_kpm1 eut_slope
              inv_forcing_eps temp conc conc_prev vol))
  = counted_state (B64.state_of (B64._get_alloy_state alloy temp conc)).
Proof.
  unfold B64.alloy_values, B64.state_of, B64._get_alloy_state.
  test_cases; reflexivity.
Qed.

(** The loop part of the alloy pass, all facts together. *)
Lemma alloy_pass_values (b : build_t) (st : B64.statics_t)
      (quant : B64.cs_cdo_quantities_t) (ts : B64.cs_time_step_t)
      (cur2prev : bool) (solid : B64.cs_solidification_t)
      (alloy : B64.Alloy.cs_solidification_binary_alloy_t) :
  B64.alloy_ready b quant solid alloy ->
  exists s' a',
    B64.alloy_local b st quant ts cur2prev solid = Done (s', a')
    /\ B64.sized quant s' /\ B64.same_inputs solid s'
    /\ (forall c, (c < B64.n_cells quant)%nat ->
          B64.cell_view c s' = B64.alloy_cell_values st quant ts solid alloy c
          /\ B64.rd (B64.Alloy.c_l_val a') c
             = B64.alloy_c_l_value alloy (B64.rd (B64.temperature solid) c)
                 (B64.rd (B64.Alloy.solute_val alloy) c)
                 (B64.rd (B64.g_l_val solid) c)
                 (B64.rd (B64.Alloy.c_l_val alloy) c))
    /\ no_eutectic (B64.n_g_cells s')
    /\ tallied (fun c => rds (B64.cell_state s') c) (B64.n_cells quant)
         (B64.n_g_cells s').
Proof.
  intros (Hctx & Hsz & Hasz & Hkp).
  pose proof (B64.asz_c_l _ _ Hasz) as Hcl.
  unfold B64.alloy_local. rewrite Hctx.
  set (s0 := B64.set_n_g_cells (zeros4 0%Z)
               (if cur2prev then B64.g_l_current_to_previous solid else solid)).
  set (a0 := if cur2prev then B64.Alloy.c_l_current_to_previous alloy
             else alloy).
  assert (Hk0 : B64.Alloy.kp a0 = B64.Alloy.kp alloy)
    by (unfold a0; destruct cur2prev; reflexivity).
  assert (Ha : c_assert (ndebug b) (zero <? B64.Alloy.kp a0) = Done tt).
  { rewrite Hk0. unfold c_assert. destruct Hkp as [-> | Hk]; [reflexivity |].
    rewrite Hk. destruct (ndebug b); reflexivity. }
  rewrite Ha. simpl.
  assert (Hsz0 : B64.sized quant s0)
    by (apply sized_counters_b64; destruct cur2prev;
        [apply sized_previous_b64 |]; exact Hsz).
  assert (Hcl0 : length (B64.Alloy.c_l_val a0) = B64.n_cells quant)
    by (unfold a0; destruct cur2prev; exact Hcl).
  assert (Hin0 : B64.same_inputs solid s0)
    by (unfold s0; destruct cur2prev; split; reflexivity).
  assert (Hg0 : B64.g_l_val s0 = B64.g_l_val solid)
    by (unfold s0; destruct cur2prev; reflexivity).
  assert (Hrho : B64.mass_density s0 = B64.mass_density solid) by apply Hin0.
  assert (Ht : B64.temperature s0 = B64.temperature solid) by apply Hin0.
  destruct (alloy_cells_values st quant
              (B64.mass_density s0 * B64.Alloy.latent_heat a0 / B64.dt ts)
              (one / (B64.Alloy.kp a0 - one))
              (one / (B64.Alloy.c_eutec a0 - B64.Alloy.c_eutec_a a0))
              (one / B64.cs_solidification_forcing_eps st) s0 a0 Hsz0 Hcl0
              eq_refl)
    as (s' & a' & E & Hs' & Hin' & Hv & Hz & Hc).
  assert (Hview : forall c, (c < B64.n_cells quant)%nat ->
            B64.cell_view c s' = B64.alloy_cell_values st quant ts solid alloy c
            /\ B64.rd (B64.Alloy.c_l_val a') c
               = B64.alloy_c_l_value alloy (B64.rd (B64.temperature solid) c)
                   (B64.rd (B64.Alloy.solute_val alloy) c)
                   (B64.rd (B64.g_l_val solid) c)
                   (B64.rd (B64.Alloy.c_l_val alloy) c)).
  { intros c Hlt. destruct (Hv c Hlt) as (V1 & V2).
    rewrite V1, V2, Hrho, Ht, Hg0.
    unfold a0, B64.alloy_cell_values, B64.alloy_rhoLovdt, B64.alloy_inv_kpm1,
      B64.alloy_eut_slope.
    destruct cur2prev; split; reflexivity. }
  exists s', a'. split; [exact E |].
  split; [exact Hs' |].
  split; [exact (same_inputs_trans_b64 _ _ _ Hin0 Hin') |].
  split; [exact Hview |]. split; [exact Hz |].
  eapply tallied_ext; [| exact Hc].
  intros c Hlt. simpl.
  change (rds (B64.cell_state s') c) with (snd (fst (B64.cell_view c s'))).
  destruct (Hview c Hlt) as (-> & _).
  unfold B64.alloy_cell_values. rewrite alloy_values_tag.
  unfold B64.alloy_cell_state. rewrite Ht. unfold a0.
  destruct cur2prev; reflexivity.
Qed.

(** ** Whole passes in double precision *)

(** The enforcement returns: its assertion holds as soon as the counters
    tally the tags. *)
Lemma enforce_returns_b64 (b : build_t) (quant : B64.cs_cdo_quantities_t)
      (s : B64.cs_solidification_t) :
  (Z.of_nat (B64.n_cells quant) < 2 ^ 64)%Z ->
  tallied (fun c => rds (B64.cell_state s) c) (B64.n_cells quant)
    (B64.n_g_cells s) ->
  exists l, B64.enforce_if_solid b quant s = Done l.
Proof.
  intros Hn (_ & Ht). unfold B64.enforce_if_solid.
  destruct (0 <? rdz (B64.n_g_cells s) (state_id SOLID))%Z;
    [| eexists; reflexivity].
  unfold B64._enforce_solid_cells.
  rewrite (Ht SOLID) by discriminate.
  pose proof (tally_le (fun c => rds (B64.cell_state s) c) (B64.n_cells quant)
                SOLID) as Hle.
  unfold tally in *.
  set (k := length (filter (fun c => rds (B64.cell_state s) c = SOLID)
                      (seq 0 (B64.n_cells quant)))) in *.
  assert (Hw : wrap64 (Z.of_nat k) = Z.of_nat k)
    by (unfold wrap64; apply Z.mod_small; lia).
  rewrite Hw, Z.eqb_refl. unfold c_assert.
  destruct (ndebug b); eexists; reflexivity.
Qed.

(** The whole Voller pass returns; the enforcement and the reduction leave
    the arrays of the cells as the loop wrote them. *)
Lemma voller_update_values (b : build_t) (st : B64.statics_t)
      (peers : list (list Z))
      (quant : B64.cs_cdo_quantities_t) (ts : B64.cs_time_step_t)
      (cur2prev : bool) (solid : B64.cs_solidification_t)
      (v_model : B64.Voller.cs_solidification_voller_t) :
  B64.model_context solid = B64.VollerContext v_model ->
  B64.sized quant solid ->
  exists n_loc s',
    B64._update_liquid_fraction_voller b st peers quant ts cur2prev solid
    = Done s'
    /\ B64.n_g_cells s' = cs_parall_sum_gnum peers n_loc
    /\ no_eutectic n_loc
    /\ tallied (fun c => rds (B64.cell_state s') c) (B64.n_cells quant) n_loc
    /\ forall c, (c < B64.n_cells quant)%nat ->
         B64.cell_view c s'
         = B64.voller_cell_values st quant ts solid v_model c.
Proof.
  intros Hctx Hsz.
  destruct (voller_pass_values st quant ts cur2prev solid v_model Hctx Hsz)
    as (s1 & E1 & Hs1 & _ & Hv & Hz & Ht).
  destruct (enforce_returns_b64 b quant s1 (sized_below_64_bits _ _ Hsz) Ht)
    as (l & El).
  exists (B64.n_g_cells s1). eexists.
  unfold B64._update_liquid_fraction_voller. rewrite E1. simpl.
  rewrite El. simpl.
  split; [reflexivity |]. split; [reflexivity |].
  split; [exact Hz |]. split; [exact Ht |]. exact Hv.
Qed.

Lemma alloy_faces_loop_b64 (n : nat)
      (a0 : B64.Alloy.cs_solidification_binary_alloy_t) :
  exists a', for_loop n B64.alloy_face a0 = Done a'
             /\ exists l, a' = B64.Alloy.with_c_l_faces l a0.
Proof.
  apply (for_loop_rule
           (fun _ a => exists l, a = B64.Alloy.with_c_l_faces l a0)).
  - exists (B64.Alloy.c_l_faces a0). destruct a0; reflexivity.
  - intros i a _ (l & ->). unfold B64.alloy_face, B64._get_alloy_state. simpl.
    test_cases; (eexists; split; [reflexivity |]); eexists; reflexivity.
Qed.

(** The whole alloy pass returns; the enforcement, the reduction and the
    loop on faces leave the arrays of the cells as the loop on cells wrote
    them. *)
Lemma alloy_update_values (b : build_t) (st : B64.statics_t)
      (peers : list (list Z))
      (quant : B64.cs_cdo_quantities_t) (ts : B64.cs_time_step_t)
      (cur2prev : bool) (solid : B64.cs_solidification_t)
      (alloy : B64.Alloy.cs_solidification_binary_alloy_t) :
  B64.alloy_ready b quant solid alloy ->
  exists n_loc s' a',
    B64._update_liquid_fraction_binary_alloy b st peers quant ts cur2prev solid
    = Done s'
    /\ B64.model_context s' = B64.AlloyContext a'
    /\ B64.n_g_cells s' = cs_parall_sum_gnum peers n_loc
    /\ no_eutectic n_loc
    /\ tallied (fun c => rds (B64.cell_state s') c) (B64.n_cells quant) n_loc
    /\ forall c, (c < B64.n_cells quant)%nat ->
         B64.cell_view c s' = B64.alloy_cell_values st quant ts solid alloy c
         /\ B64.rd (B64.Alloy.c_l_val a') c
            = B64.alloy_c_l_value alloy (B64.rd (B64.temperature solid) c)
                (B64.rd (B64.Alloy.solute_val alloy) c)
                (B64.rd (B64.g_l_val solid) c)
                (B64.rd (B64.Alloy.c_l_val alloy) c).
Proof.
  intros Hr. pose proof Hr as (_ & Hsz & _).
  destruct (alloy_pass_values b st quant ts cur2prev solid alloy Hr)
    as (s1 & a1 & E1 & Hs1 & _ & Hv & Hz & Ht).
  destruct (enforce_returns_b64 b quant s1 (sized_below_64_bits _ _ Hsz) Ht)
    as (l & El).
  destruct (alloy_faces_loop_b64 (B64.n_faces quant) a1)
    as (a2 & E2 & (lf & Ha2)).
  exists (B64.n_g_cells s1). eexists. exists a2.
  unfold B64._update_liquid_fraction_binary_alloy. rewrite E1. simpl.
  rewrite El. simpl. rewrite E2. simpl.
  split; [reflexivity |]. split; [reflexivity |]. split; [reflexivity |].
  split; [exact Hz |]. split; [exact Ht |].
  intros c Hc. destruct (Hv c Hc) as (V1 & V2).
  split; [exact V1 |]. rewrite Ha2. exact V2.
Qed.

(** ** The phase diagram in double precision *)








(** ** Cells of the Voller pass in double precision *)

Lemma sized_solid3_b64 (m : B64.model_context_t) (a b c : B64.cs_real_t) :
  B64.sized B64.quant3 (B64.solid3 m [a; b; c]).
Proof. split; reflexivity. Defined.




(** C3 (as amended): after a Voller-Prakash pass a cell is SOLID exactly
    when the test T < t_solidus held; a SOLID cell holds the liquid fraction
    0 and a LIQUID cell the liquid fraction 1, so that a cell whose liquid
    fraction is zero is SOLID or MUSHY. *)
Theorem voller_solid_cells_in_double (b : build_t) (st : B64.statics_t)
        (peers : list (list Z))
        (quant : B64.cs_cdo_quantities_t) (ts : B64.cs_time_step_t)
        (cur2prev : bool) (solid : B64.cs_solidification_t)
        (v_model : B64.Voller.cs_solidification_voller_t) :
  B64.model_context solid = B64.VollerContext v_model ->
  B64.sized quant solid ->
  exists s',
    B64._update_liquid_fraction_voller b st peers quant ts cur2prev solid
    = Done s'
    /\ forall c, (c < B64.n_cells quant)%nat ->
         let T := B64.rd (B64.temperature solid) c in
         let g := B64.rd (B64.g_l_val s') c in
         let state := rds (B64.cell_state s') c in
         (state = SOLID <-> (T <? B64.Voller.t_solidus v_model) = true)
         /\ (state = SOLID -> g = zero)
         /\ (state = LIQUID -> g = one)
         /\ (B64.is_zero g = true -> state = SOLID \/ state = MUSHY).
Proof.
  intros Hctx Hsz.
  destruct (voller_update_values b st peers quant ts cur2prev solid v_model
              Hctx Hsz) as (n_loc & s' & E & _ & _ & _ & Hv).
  exists s'. split; [exact E |].
  intros c Hc T g state. specialize (Hv c Hc).
  unfold B64.cell_view, B64.voller_cell_values, B64.voller_values in Hv.
  fold T g state in Hv.
  clearbody T g state.
  test_cases_in Hv; injection Hv as -> _ _ -> _;
    repeat split; intros; try reflexivity; try congruence; auto;
    discriminate.
Qed.

Lemma voller_solid_cells_in_double_witness :
  exists s',
    B64._update_liquid_fraction_voller B64.debug_build B64.default_statics []
      B64.quant3 B64.step_tenth true B64.solid3_on_solidus = Done s'
    /\ rds (B64.cell_state s') 0 <> SOLID.
Proof.
  destruct (voller_solid_cells_in_double B64.debug_build B64.default_statics
              [] B64.quant3 B64.step_tenth true B64.solid3_on_solidus
              B64.voller_1700_1730)
    as (s' & E & H).
  - reflexivity.
  - apply sized_solid3_b64.
  - exists s'. split; [exact E |].
    destruct (H 0%nat) as (H1 & _); [simpl; lia |].
    intros Hs. apply H1 in Hs. revert Hs. discriminate.
Defined.

(** C3, the claim as stated fails: a cell exactly at t_solidus = 1700 takes
    the mushy branch, which stores (1700 - 1700) * dgldT = 0 and the tag
    MUSHY. *)
Lemma voller_zero_fraction_in_mushy_cell :
  match B64._update_liquid_fraction_voller B64.debug_build
          B64.default_statics [] B64.quant3 B64.step_tenth true
          B64.solid3_on_solidus with
  | Done s' =>
      ~ (rds (B64.cell_state s') 0 = SOLID
         <-> B64.is_zero (B64.rd (B64.g_l_val s') 0) = true)
  | _ => False
  end.
Proof.
  vm_compute. intros [_ H]. specialize (H eq_refl). discriminate H.
Qed.

(** ** Eutectic cells in double precision *)

Lemma ready_solid3_alloy_b64
      (a : B64.Alloy.cs_solidification_binary_alloy_t)
      (t0 t1 t2 c0 c1 c2 p0 p1 p2 : B64.cs_real_t) :
  (zero <? B64.Alloy.kp a) = true ->
  B64.Alloy.solute_face_values a = [] ->
  B64.Alloy.temp_faces a = [] -> B64.Alloy.c_l_faces a = [] ->
  B64.alloy_ready B64.debug_build B64.quant3
    (B64.solid3_alloy a [t0; t1; t2] [c0; c1; c2] [p0; p1; p2])
    (B64.with_solute [c0; c1; c2] [p0; p1; p2] [zero; zero; zero] a).
Proof.
  intros Hk H1 H2 H3. split; [reflexivity |].
  split; [apply sized_solid3_b64 |].
  split; [split; simpl; rewrite ?H1, ?H2, ?H3; reflexivity |].
  right. exact Hk.
Defined.

(** C5 (as amended): in a binary-alloy pass in double precision, a cell the
    evaluator classifies EUTECTIC gets the liquid fraction
    (C - c_eutec_a) * eut_slope, where eut_slope = 1/(c_eutec - c_eutec_a) is
    rounded once before the loop, the liquid concentration c_eutec, the
    thermal reaction coefficient 0 and the thermal source term
    cell_volume * (rho * latent_heat / dt) * eut_slope * (C - C_prev), every
    operation rounded; it is tagged MUSHY in the state array, and the
    counters, which count the cells by their tag, count it as MUSHY and leave
    the EUTECTIC counter at zero.  With c_eutec_a = 0.1, c_eutec = 0.3 and
    C = 0.2 the liquid fraction is exactly 0.5. *)
Theorem eutectic_cells_in_double (b : build_t) (st : B64.statics_t)
        (peers : list (list Z))
        (quant : B64.cs_cdo_quantities_t) (ts : B64.cs_time_step_t)
        (cur2prev : bool) (solid : B64.cs_solidification_t)
        (alloy : B64.Alloy.cs_solidification_binary_alloy_t) :
  B64.alloy_ready b quant solid alloy ->
  exists n_loc s' a',
    B64._update_liquid_fraction_binary_alloy b st peers quant ts cur2prev solid
    = Done s'
    /\ B64.model_context s' = B64.AlloyContext a'
    /\ B64.n_g_cells s' = cs_parall_sum_gnum peers n_loc
    /\ rdz n_loc (state_id EUTECTIC) = 0%Z
    /\ (forall s, s <> CS_SOLIDIFICATION_N_STATES ->
          rdz n_loc (state_id s)
          = tally (fun c => rds (B64.cell_state s') c) (B64.n_cells quant) s)
    /\ forall c, (c < B64.n_cells quant)%nat ->
         let T := B64.rd (B64.temperature solid) c in
         let C := B64.rd (B64.Alloy.solute_val alloy) c in
         let C_prev := B64.rd (B64.Alloy.solute_val_pre alloy) c in
         let ce := B64.Alloy.c_eutec alloy in
         let cea := B64.Alloy.c_eutec_a alloy in
         let eut_slope := one / (ce - cea) in
         let rhoLovdt :=
           B64.mass_density solid * B64.Alloy.latent_heat alloy / B64.dt ts in
         let g := B64.rd (B64.g_l_val s') c in
         B64.state_of (B64._get_alloy_state alloy T C) = EUTECTIC ->
         g = (C - cea) * eut_slope
         /\ B64.rd (B64.Alloy.c_l_val a') c = ce
         /\ B64.rd (B64.thermal_reaction_coef_array s') c = zero
         /\ B64.rd (B64.thermal_source_term_array s') c
            = B64.rd (B64.cell_vol quant) c * rhoLovdt * eut_slope
              * (C - C_prev)
         /\ rds (B64.cell_state s') c = MUSHY
         /\ (cea = decimal 1 1 -> ce = decimal 3 1 -> C = decimal 2 1 ->
             g = decimal 5 1).
Proof.
  intros Hr.
  destruct (alloy_update_values b st peers quant ts cur2prev solid alloy Hr)
    as (n_loc & s' & a' & E & Ea & En & (_ & Hz) & Ht & Hv).
  exists n_loc, s', a'.
  split; [exact E |]. split; [exact Ea |]. split; [exact En |].
  split; [exact Hz |].
  split; [apply Ht |].
  intros c Hc T C C_prev ce cea eut_slope rhoLovdt g Hst.
  destruct (Hv c Hc) as (V1 & V2).
  unfold B64.alloy_c_l_value in V2. fold T C in V2. rewrite Hst in V2.
  unfold B64.alloy_cell_values, B64.alloy_values in V1.
  fold T C C_prev in V1.
  unfold B64.state_of in Hst.
  destruct (B64._get_alloy_state alloy T C) as [[tl tsol] state].
  simpl in Hst. subst state.
  unfold B64.cell_view in V1. fold g in V1.
  injection V1 as Hg Hreac Hsrc Htag _.
  assert (Eg : g = (C - cea) * eut_slope) by exact Hg.
  split; [exact Eg |].
  split; [exact V2 |].
  split; [exact Hreac |].
  split; [exact Hsrc |].
  split; [exact Htag |].
  intros H1 H2 H3. rewrite Eg. unfold eut_slope. rewrite H1, H2, H3.
  reflexivity.
Qed.

Lemma eutectic_cells_in_double_witness :
  exists s',
    B64._update_liquid_fraction_binary_alloy B64.debug_build
      B64.default_statics [] B64.quant3 B64.step_tenth true
      B64.solid3_eutectic = Done s'
    /\ B64.rd (B64.g_l_val s') 0 = decimal 5 1
    /\ rds (B64.cell_state s') 0 = MUSHY.
Proof.
  destruct (eutectic_cells_in_double B64.debug_build B64.default_statics []
              B64.quant3 B64.step_tenth true B64.solid3_eutectic
              (B64.with_solute [decimal 2 1; decimal 15 2; decimal 25 2]
                 [decimal 3 1; decimal 15 2; decimal 25 2]
                 [zero; zero; zero] B64.alloy_third))
    as (n_loc & s' & a' & E & _ & _ & _ & _ & H).
  - apply ready_solid3_alloy_b64; reflexivity.
  - exists s'. split; [exact E |].
    destruct (H 0%nat) as (_ & _ & _ & _ & Htag & Hg).
    + simpl; lia.
    + reflexivity.
    + split; [| exact Htag]. apply Hg; reflexivity.
Defined.

(** C5, the claim as stated fails in the last place: for the alloy with
    c_eutec = 1 and c_eutec_a = 0.25, a cell on the plateau with C = 0.325
    stores (0.325 - 0.25) * (1/0.75), the double 0.1, while the quotient
    (0.325 - 0.25)/(1 - 0.25) is the next double above it. *)
Lemma eutectic_fraction_is_a_product :
  match B64._update_liquid_fraction_binary_alloy B64.debug_build
          B64.default_statics [] B64.quant3 B64.step_tenth true
          B64.solid3_quarter with
  | Done s' =>
      B64.alloy_cell_state B64.solid3_quarter
        (B64.with_solute [decimal 325 3; decimal 5 1; decimal 5 1]
           [decimal 325 3; decimal 5 1; decimal 5 1] [zero; zero; zero]
           B64.alloy_quarter) 0 = EUTECTIC
      /\ B64.Alloy.c_eutec B64.alloy_quarter = one
      /\ B64.Alloy.c_eutec_a B64.alloy_quarter = decimal 25 2
      /\ B64.rd (B64.g_l_val s') 0 = decimal 1 1
      /\ (B64.rd (B64.g_l_val s') 0
          <? (decimal 325 3 - decimal 25 2) / (one - decimal 25 2)) = true
  | _ => False
  end.
Proof. vm_compute. repeat split; reflexivity. Qed.

(** ** The momentum forcing in double precision *)






(** ** The liquid fraction in double precision *)




(** ** Divisions by zero *)

Lemma ltb_irrefl (x : double) : ltb x x = false.
Proof.
  destruct (ltb x x) eqn:E; [| reflexivity].
  pose proof (ltb_asym _ _ E). congruence.
Qed.

(** The product of a zero and a finite double is a zero. *)
Lemma mul_zero_finite (s : bool) (y : double) :
  is_finite y = true -> B64.is_zero (mul (S754_zero s) y) = true.
Proof. destruct y; try discriminate; reflexivity. Qed.

Lemma mul_nan_r (x : double) : mul x S754_nan = S754_nan.
Proof. destruct x; reflexivity. Qed.

Lemma div_nan_l (y : double) : div S754_nan y = S754_nan.
Proof. destruct y; reflexivity. Qed.

Lemma five_values {A B C D E : Type} (a a' : A) (b b' : B) (c c' : C)
      (d d' : D) (e e' : E) :
  (a, b, c, d, e) = (a', b', c', d', e') ->
  a = a' /\ b = b' /\ c = c' /\ d = d' /\ e = e'.
Proof. intros [= -> -> -> -> ->]. repeat split. Qed.

(** X28: a cell exactly at the solidus temperature in a Voller-Prakash pass
    in double precision, t_solidus finite and not above t_liquidus: it takes
    the third branch and is tagged MUSHY; its liquid fraction is a zero when
    dgldT = 1/(t_liquidus - t_solidus) is finite; when t_liquidus equals
    t_solidus, dgldT is +infinity and both the liquid fraction 0 * dgldT and
    the forcing coefficient are NaN. *)
Theorem voller_cell_on_solidus_in_double (b : build_t) (st : B64.statics_t)
        (peers : list (list Z))
        (quant : B64.cs_cdo_quantities_t) (ts : B64.cs_time_step_t)
        (cur2prev : bool) (solid : B64.cs_solidification_t)
        (v_model : B64.Voller.cs_solidification_voller_t) :
  B64.model_context solid = B64.VollerContext v_model ->
  B64.sized quant solid ->
  is_finite (B64.Voller.t_solidus v_model) = true ->
  (B64.Voller.t_solidus v_model <=? B64.Voller.t_liquidus v_model) = true ->
  exists s',
    B64._update_liquid_fraction_voller b st peers quant ts cur2prev solid
    = Done s'
    /\ forall c, (c < B64.n_cells quant)%nat ->
         B64.rd (B64.temperature solid) c = B64.Voller.t_solidus v_model ->
         let dgldT :=
           one / (B64.Voller.t_liquidus v_model
                  - B64.Voller.t_solidus v_model) in
         rds (B64.cell_state s') c = MUSHY
         /\ B64.rd (B64.g_l_val s') c = zero * dgldT
         /\ (is_finite dgldT = true ->
             B64.is_zero (B64.rd (B64.g_l_val s') c) = true)
         /\ (B64.Voller.t_liquidus v_model = B64.Voller.t_solidus v_model ->
             dgldT = S754_infinity false
             /\ is_nan (B64.rd (B64.g_l_val s') c) = true
             /\ is_nan (B64.rd (B64.forcing_mom_array s') c) = true).
Proof.
  intros Hctx Hsz Hfin Hord.
  destruct (voller_update_values b st peers quant ts cur2prev solid v_model
              Hctx Hsz) as (n_loc & s' & E & _ & _ & _ & Hv).
  exists s'. split; [exact E |].
  intros c Hc HT dgldT. specialize (Hv c Hc).
  unfold B64.cell_view, B64.voller_cell_values, B64.voller_values,
    B64.voller_dgldT in Hv.
  rewrite HT, ltb_irrefl, (leb_ltb_false _ _ Hord), (sub_diag _ Hfin) in Hv.
  fold dgldT in Hv.
  apply five_values in Hv. destruct Hv as (Hg & _ & _ & Hs & Hf).
  split; [exact Hs |]. split; [exact Hg |].
  split.
  - intros Hd. rewrite Hg. apply mul_zero_finite. exact Hd.
  - intros Heq.
    assert (Hd : dgldT = S754_infinity false)
      by (unfold dgldT; rewrite Heq, (sub_diag _ Hfin); reflexivity).
    split; [exact Hd |].
    assert (Hn : B64.rd (B64.g_l_val s') c = S754_nan)
      by (rewrite Hg, Hd; reflexivity).
    split; [rewrite Hn; reflexivity |].
    rewrite Hf, Hd.
    change (zero * S754_infinity false) with S754_nan.
    change (one - S754_nan) with S754_nan.
    rewrite !mul_nan_r, div_nan_l. reflexivity.
Qed.

Lemma voller_cell_on_solidus_in_double_witness :
  exists s',
    B64._update_liquid_fraction_voller B64.debug_build B64.default_statics []
      B64.quant3 B64.step_tenth true B64.solid3_on_solidus = Done s'
    /\ rds (B64.cell_state s') 0 = MUSHY
    /\ B64.is_zero (B64.rd (B64.g_l_val s') 0) = true.
Proof.
  destruct (voller_cell_on_solidus_in_double B64.debug_build
              B64.default_statics [] B64.quant3 B64.step_tenth true
              B64.solid3_on_solidus B64.voller_1700_1730)
    as (s' & E & H).
  - reflexivity.
  - apply sized_solid3_b64.
  - reflexivity.
  - reflexivity.
  - exists s'. split; [exact E |].
    destruct (H 0%nat) as (H1 & _ & H3 & _); [simpl; lia | reflexivity |].
    split; [exact H1 |]. apply H3. reflexivity.
Defined.

(** X29: a cell the alloy evaluator classifies MUSHY at a temperature equal
    to a finite t_melt: the pass in double precision divides by
    T - t_melt = 0, and the liquid fraction it stores is a NaN or an
    infinity. *)
Theorem alloy_mushy_cell_at_melting_point (b : build_t) (st : B64.statics_t)
        (peers : list (list Z))
        (quant : B64.cs_cdo_quantities_t) (ts : B64.cs_time_step_t)
        (cur2prev : bool) (solid : B64.cs_solidification_t)
        (alloy : B64.Alloy.cs_solidification_binary_alloy_t) :
  B64.alloy_ready b quant solid alloy ->
  is_finite (B64.Alloy.t_melt alloy) = true ->
  exists s',
    B64._update_liquid_fraction_binary_alloy b st peers quant ts cur2prev solid
    = Done s'
    /\ forall c, (c < B64.n_cells quant)%nat ->
         B64.alloy_cell_state solid alloy c = MUSHY ->
         B64.rd (B64.temperature solid) c = B64.Alloy.t_melt alloy ->
         rds (B64.cell_state s') c = MUSHY
         /\ is_finite (B64.rd (B64.g_l_val s') c) = false.
Proof.
  intros Hr Hfin.
  destruct (alloy_update_values b st peers quant ts cur2prev solid alloy Hr)
    as (n_loc & s' & a' & E & _ & _ & _ & _ & Hv).
  exists s'. split; [exact E |].
  intros c Hc Hst HT. destruct (Hv c Hc) as (V & _).
  unfold B64.cell_view, B64.alloy_cell_values, B64.alloy_values in V.
  unfold B64.alloy_cell_state, B64.state_of in Hst.
  destruct (B64._get_alloy_state alloy (B64.rd (B64.temperature solid) c)
              (B64.rd (B64.Alloy.solute_val alloy) c)) as [[tl tsol] state].
  simpl in Hst. subst state.
  rewrite HT, (sub_diag _ Hfin) in V.
  apply five_values in V. destruct V as (Hg & _ & _ & Hs & _).
  split; [exact Hs |].
  rewrite Hg. apply add_one_not_finite. apply div_zero_not_finite.
Qed.

Lemma alloy_mushy_cell_at_melting_point_witness :
  exists s',
    B64._update_liquid_fraction_binary_alloy B64.debug_build
      B64.default_statics [] B64.quant3 B64.step_tenth true
      B64.solid3_1024 = Done s'
    /\ is_finite (B64.rd (B64.g_l_val s') 0) = false.
Proof.
  destruct (alloy_mushy_cell_at_melting_point B64.debug_build
              B64.default_statics [] B64.quant3 B64.step_tenth true
              B64.solid3_1024
              (B64.with_solute
                 [one / of_int (2 ^ 52); one / of_int (2 ^ 51);
                  one / of_int (2 ^ 51)]
                 [one / of_int (2 ^ 52); one / of_int (2 ^ 51);
                  one / of_int (2 ^ 51)]
                 [zero; zero; zero] B64.alloy_1024))
    as (s' & E & H).
  - apply ready_solid3_alloy_b64; reflexivity.
  - reflexivity.
  - exists s'. split; [exact E |].
    destruct (H 0%nat) as (_ & H2); [simpl; lia | reflexivity | reflexivity |].
    exact H2.
Defined.
